(* ===== verification/_CoqProject ===== *)
-Q . S2P
Prelude.v
JsString.v
ArrayUtils.v
CustomRules.v
AxeResults.v
Index.v
SarifLog.v
Message.v
WcagIndexer.v
RuleLinker.v
Collaborators.v
Samples.v
Results.v
Machine.v
Converter.v
LogWf.v
