(* ===== verification/Prelude.v ===== *)
(** * Verification of the axe-to-SARIF converter

    ** The program

    The package (TypeScript, [src/src]) turns the report of an
    accessibility scan (axe results: four buckets of rule results,
    [violations], [passes], [incomplete], [inapplicable]; each rule result
    with its guideline tags and its evaluated nodes; each node with its
    [all], [any] and [none] checks) into a SARIF 2.1 log with one run.

    - [sarif-converter-21.ts], class [SarifConverter21].  [convert] wraps
      the run of [convertRun] in the log.  [convertRun] builds the rule list
      with the rule linker, asks the collaborators for tool, invocation and
      artifact data, calls [convertResults], builds the taxonomy and assigns
      the test case id.  [convertResults] fills one array through
      [convertRuleResults] for the three buckets that bear nodes and
      [convertRuleResultsWithoutNodes] for the fourth; [convertRuleResult]
      pushes one result per node, with the rule index read from
      [this.ruleIdsToRuleIndices], the message of [convertMessage] and the
      locations.  [convertMessage] groups the checks through
      [convertMessageChecks] and escapes markdown with [escapeForMarkdown].
    - [array-utils.ts]: [isEmpty].
    - [custom-rule-configurations/heading-rule.ts] and [frame-title.ts]:
      two rule configurations for the scanner with the [evaluate] function
      of their check, which reads a DOM element and stores data in the
      check context.
    - [index.ts]: [axeToSarif], which builds the result decorator from
      imported parts and hands the decorated results to a converter.

    ** The files

    - [Prelude] (this file): what the files share.  JavaScript exceptions
      as a completion monad ([Completion], [Normal] or [Throw]), the
      [for (const x of xs)] loop that stops at the first exception
      ([for_of]), [Array.prototype.push] ([push]), reading and writing a
      property of a possibly undefined object ([get_property],
      [set_property]), the dictionary of positions of a list
      ([index_dict]), [drop_while], lists whose elements carry their
      position ([indexed]), termination of a relation by a measure
      ([sn_measure]), the elements of a list in the
      order of their first occurrence ([first_occurrences]), the list
      lemmas, the hint databases.
    - [JsString]: the built-ins the sources call on strings: [join],
      [replace_all_char] for [s.replace(/</g, r)], [truthy], [trim],
      [toLowerCase], [parseInt] in base 10 with its result type [JsNumber],
      [match_H_digit] for [s.match(/H(\d)/)]; their lemmas are stated on
      [chars], the code units of a string.  [split] at a character is not
      called by the sources: it is the inverse against which the joined
      name of a logical location is read back.
    - [ArrayUtils]: [isEmpty].
    - [CustomRules]: [HTMLElement] (the four properties the checks read),
      [CheckContext] with [data] for [this.data], the configurations
      [headingConfiguration] and [frameTitleConfiguration] and their
      [evaluateCodedHeadings] and [evaluateTitle], which take the context
      and return the answer with the context after the call.
    - [AxeResults]: the input document ([DecoratedAxeResults] and its
      parts), the levels, [ConverterOptions].
    - [Index]: [axeToSarif] over the class [Pipeline.t] of the parts that
      [index.ts] imports; definitions only.
    - [SarifLog]: the output types, one record per object literal of the
      converter; the types that only pass through from the collaborators
      are the fields of the class [ExternalTypes].
    - [Message]: [convertMessage], [convertMessageChecks],
      [escapeForMarkdown], and the specification by groups [message_spec].
    - [WcagIndexer]: the guideline taxonomy indexer and [getWcagTaxonomy].
      Their code is not among the sources; they follow the specification
      and the calls of the converter.
    - [RuleLinker]: the rule linker as the interface [RuleLinker] with the
      contract [RuleLinkerLaws], and the linker of section 4.2 of the
      specification ([linker_of], the instance [first_appearance_linker]):
      the rules in the order of their first appearance.
    - [Collaborators]: the imported functions of the converter as the class
      [Providers.t].
    - [Samples]: a table of three guideline tags and three documents.
    - [Results]: the record [SarifConverter21] of the members of the class,
      [convertResults] and the methods it calls, and the specification
      [results_spec] of the result list.  The array [resultArray] that the
      methods fill is passed in and returned; the statement of the loop
      over the nodes is [convertRuleResult_push].
    - [Machine]: the same methods as a transition system.  A configuration
      ([config]) is the one array with a stack of frames ([frame]: the
      calls [convertResults] has still to make and the loops that are
      running), or a return, or an exception; [step] is the relation (one
      call, one turn of a loop, the end of a loop, the return), [step_fn]
      the same as a function, [run] its iteration with fuel, [steps_left]
      the measure.
    - [Converter]: the constructor ([new_SarifConverter21]),
      [defaultSarifConverter21], [convertRun] with the properties of the run
      literal evaluated in source order, [convert], and the run
      [run_of] that a conversion returns.
    - [LogWf]: the shape of a log as a decidable predicate ([log_wf],
      [run_wf], [result_wf], [taxonomy_wf], [rule_wf]) on the output types.

    ** The theorems

    - Messages ([Message]): [convertMessage] equals [message_spec]
      (refinement of the push loops by the groups of the specification);
      the markdown holds no [<]; the text is empty exactly without checks;
      [>] is not escaped.
    - Results ([Results]): with the dictionary of rule indices defined the
      result list is [results_spec]: one result per node, bucket by bucket
      in document order, with location and logical location of the node;
      with the dictionary undefined the first node makes the conversion
      throw; the list is empty exactly when no node exists; the completion
      depends on the three buckets that bear nodes only, an undefined
      bucket counting as an empty one ([same_nodes], an equivalence); the
      name of a logical location gives the target path back exactly when
      the path is not empty and no segment holds a semicolon (round trip
      of [join] and [split]).
    - Loops ([Machine]): with the dictionary defined the array only
      grows, along [results_spec] (invariant of the reachable
      configurations, [machine_prefix]); every reachable configuration
      leads, in at most [steps_left] transitions, to the final
      configuration of the specification, the returned result list or the
      [TypeError] of the first node, and to no other ([machine_live]).  The
      proofs go through a denotation of configurations by the functions of
      [Results], which every transition keeps.
    - Logs ([LogWf]): a log that [convert] returns is well formed, whether
      the dictionary is undefined (then the log has no result) or the one
      of the linker; [bool_decide] checks the shape of a given log.
    - Runs ([Converter]): index integrity (every result names the rule at
      its rule index), taxonomy coverage and the cross references from
      rules to taxa, the taxonomy in tag order with positions as indices,
      what the run takes from the collaborators, the behaviour of the
      converter as constructed, and the fate of the options.  These hold
      for every linker that keeps [RuleLinkerLaws] and every instance of
      [Providers.t].  With the linker of the specification the rule ids of
      a run are [first_occurrences] of the rule ids of the document
      ([convertRun_rule_order_first_appearance]).
    - Custom rules ([CustomRules]): the heading level for each source of
      the level ([aria-level] as a numeral, which gives the double nearest
      to its number and the number itself below 2^53; a tag name [H<n>];
      the leftmost [H] before a digit; none), and when the frame title
      check accepts.
    - Each theorem with a hypothesis is applied to a sample document or
      element in a lemma named [<theorem>_witness].

    ** What the proofs found

    - [convertRuleResult] reads [this.ruleIdsToRuleIndices], which the
      class neither declares nor assigns: a converter as constructed throws
      a [TypeError] on the first node ([convert_constructed]).  The record
      [SarifConverter21] therefore has the member as an [option], [None]
      after the constructor, and index integrity is proved on the
      hypothesis that the member holds the dictionary of the linker.
      Every theorem with a hypothesis [ruleIdsToRuleIndices this = Some _]
      is about a converter that the constructor does not build; what the
      constructed converter does is [convert_constructed] and
      [convertResults_undefined].
    - The test case id is assigned into [run.properties], which the run
      literal does not have: a conversion with a test case id throws
      ([convertRun_testCaseId_throws]).
    - The scan name never reaches the run ([convertRun_scanName_ignored]);
      only [<] is escaped ([escapeForMarkdown_keeps_gt]); the taxonomy is
      that of the whole static table, also for an empty document
      ([convert_empty]).
    - The name of a logical location does not determine the target path
      when a selector holds a semicolon or the path is empty
      ([getLogicalLocations_targets]).

    ** Conventions and limits of the model

    - A JavaScript string is a [string] with one character per UTF-16 code
      unit, code units below 256.  [sort_strings] and [String.le] compare
      code units, as [Array.prototype.sort] does without a comparison
      function; white space and letter case are those of the code units
      below 256.
    - An optional property is an [option], an array a [list], an object
      used as a dictionary a [gmap string _]: own properties only, so keys
      that collide with members of [Object.prototype] are outside the
      model.  The order in which the engine enumerates the keys of the
      static table does not matter, since the keys are sorted
      ([indexer_tags_canonical]).
    - A Number that [parseInt] returns is a [JsNumber]: an integer that a
      double holds ([Num z]), the negative zero, an infinity or NaN.  The
      integer of the digits is rounded to the nearest double, a tie to the
      even significand ([round_double], [to_number]); below 2^53 nothing
      is rounded ([to_number_safe]), and the error is at most half a unit
      of the last bit kept ([round_double_near]).  The digits are all
      read: an engine may replace the digits after the twentieth by zeros,
      which the model does not.
    - The functions of the sources need no fuel: every loop runs over an
      array, and the recursive functions are structural on lists.  Only
      [run] of [Machine] takes fuel, the number of transitions; the
      measure [steps_left] of a configuration bounds the transitions from
      it ([step_steps_left]), so [run (steps_left c) c] is the final
      configuration ([run_outcome], [machine_live]), 16 transitions for
      the sample document.
    - Classification levels other than the four the converter passes are
      not modelled.
    - The functions of [Providers.t] and [Pipeline.t] without a
      [Completion] in their type always return: a collaborator that
      throws where the converter calls it is outside the model.

    ** Not modelled

    The collaborators whose code is not among the sources are parameters,
    not definitions: the providers of environment, artifact, invocation
    and tool data ([Providers.t]), and the decorator, message decorator,
    help URL getter, document utilities and the converter of the first
    SARIF version that [index.ts] composes ([Pipeline.t]); of [axeToSarif]
    the development has the definition and no theorem, since its result
    is decided by these parts.  The two rule configuration objects are
    transcribed ([headingConfiguration], [frameTitleConfiguration]); what
    the scanner does with them is not modelled, so the theorems are about
    their [evaluate] functions only.  Of the DOM only
    the four properties read by the checks exist; the selectors of the rule
    configurations are kept as strings and matching them against a
    document is left to the scanner.*)

From stdpp Require Export base option list strings gmap sorting relations.

Declare Scope js_scope.
Delimit Scope js_scope with js.

(** ** Completions: normal return or a thrown exception *)

(** The two ways the modelled code can throw: both are [TypeError]s of the
    engine, raised when a property is read from, or written to, [undefined]. *)
Inductive JsError : Type :=
| TypeErrorRead (object property : string)
| TypeErrorWrite (object property : string).

#[export] Instance JsError_eq_dec : EqDecision JsError.
Proof. solve_decision. Defined.

Inductive Completion (A : Type) : Type :=
| Normal (a : A)
| Throw (e : JsError).
Arguments Normal {A} a.
Arguments Throw {A} e.

#[export] Instance Completion_eq_dec `{EqDecision A} : EqDecision (Completion A).
Proof. solve_decision. Defined.

#[export] Instance Completion_ret : MRet Completion := @Normal.
#[export] Instance Completion_bind : MBind Completion := λ A B f m,
  match m with Normal a => f a | Throw e => Throw e end.
#[export] Instance Completion_fmap : FMap Completion := λ A B f m,
  match m with Normal a => Normal (f a) | Throw e => Throw e end.

Definition is_normal {A} (m : Completion A) : bool :=
  match m with Normal _ => true | Throw _ => false end.

Definition is_throw {A} (m : Completion A) : bool := negb (is_normal m).

(** ** Property access on a possibly undefined object *)

(** [o[k]] where [o] is a dictionary or [undefined]: reading from
    [undefined] throws, a missing key reads as [undefined] ([None]). *)
Definition get_property {V} (object : string) (o : option (gmap string V))
    (k : string) : Completion (option V) :=
  match o with
  | Some d => Normal (d !! k)
  | None => Throw (TypeErrorRead object k)
  end.

(** [o[k] = v] where [o] is a dictionary or [undefined]. *)
Definition set_property {V} (object : string) (o : option (gmap string V))
    (k : string) (v : V) : Completion (gmap string V) :=
  match o with
  | Some d => Normal (<[k:=v]> d)
  | None => Throw (TypeErrorWrite object k)
  end.

(** ** Arrays and loops *)

Definition push {A} (arr : list A) (x : A) : list A := arr ++ [x].

(** [for (const x of l) body], the loop state threaded through the body; the
    first exception leaves the loop. *)
Fixpoint for_of {A S} (body : S → A → Completion S) (l : list A) (s : S)
    : Completion S :=
  match l with
  | [] => Normal s
  | x :: l' => s' ← body s x; for_of body l' s'
  end.

Notation "'for_each' x 'of' l 'with' acc ':=' init 'do' body" :=
  (for_of (λ acc x, body) l init)
  (at level 10, x name, acc name, l at level 9, init at level 9,
   body at level 200, only parsing) : js_scope.

(** ** Tactics *)

(** Case analysis on the completions under a bind, simplifying as it goes. *)
Ltac case_completion :=
  repeat match goal with
  | |- context [mbind _ ?m] =>
      lazymatch m with
      | Normal _ => fail
      | Throw _ => fail
      | _ => destruct m eqn:?
      end; simpl
  | H : context [mbind _ (Normal _)] |- _ => simpl in H
  | H : context [mbind _ (Throw _)] |- _ => simpl in H
  end.

Create HintDb js discriminated.
Create Rewrite HintDb js.

(** ** Lemmas on completions *)

Section completion.
Context {A B : Type}.
Implicit Types (m : Completion A) (f : A → Completion B).

Lemma bind_Normal f a : (Normal a ≫= f) = f a.
Proof. done. Qed.

Lemma bind_Throw f e : (Throw e ≫= f) = Throw e.
Proof. done. Qed.

Lemma bind_Normal_inv m f b :
  m ≫= f = Normal b ↔ ∃ a, m = Normal a ∧ f a = Normal b.
Proof.
  destruct m; simpl; split; intros Hm; try done; eauto;
    by destruct Hm as (?&?&?); simplify_eq.
Qed.

Lemma bind_Throw_inv m f e :
  m ≫= f = Throw e ↔ m = Throw e ∨ ∃ a, m = Normal a ∧ f a = Throw e.
Proof.
  destruct m; simpl; split; intros Hm;
    [by right; eauto | | by left; simplify_eq | ];
    by destruct Hm as [|(?&?&?)]; simplify_eq.
Qed.

Lemma is_normal_Normal m : is_normal m = true ↔ ∃ a, m = Normal a.
Proof. destruct m; simpl; split; intros Hm; try done; eauto; by destruct Hm. Qed.

Lemma is_throw_Throw m : is_throw m = true ↔ ∃ e, m = Throw e.
Proof. destruct m; simpl; split; intros Hm; try done; eauto; by destruct Hm. Qed.

Lemma not_normal_throw m : is_normal m = false ↔ is_throw m = true.
Proof. unfold is_throw. by destruct (is_normal m). Qed.

End completion.

Lemma bind_assoc {A B C} (m : Completion A) (f : A → Completion B)
    (g : B → Completion C) :
  (m ≫= f) ≫= g = m ≫= (λ a, f a ≫= g).
Proof. by destruct m. Qed.

(** A completion is normal or a throw. *)
Lemma Completion_cases {A} (m : Completion A) :
  (∃ a, m = Normal a) ∨ (∃ e, m = Throw e).
Proof. destruct m; eauto. Qed.

#[export] Hint Rewrite @bind_Normal @bind_Throw : js.

(** ** Lemmas on property access *)

Section property.
Context {V : Type}.
Implicit Types (o : option (gmap string V)) (d : gmap string V).

Lemma get_property_Some obj d k : get_property obj (Some d) k = Normal (d !! k).
Proof. done. Qed.

Lemma get_property_None obj k :
  get_property (V:=V) obj None k = Throw (TypeErrorRead obj k).
Proof. done. Qed.

Lemma get_property_normal obj o k :
  is_normal (get_property obj o k) = true ↔ is_Some o.
Proof. destruct o; simpl; split; [by eauto|done|done|by intros [? ?]]. Qed.

Lemma set_property_None obj k v :
  set_property (V:=V) obj None k v = Throw (TypeErrorWrite obj k).
Proof. done. Qed.

Lemma set_property_Some obj d k v :
  set_property obj (Some d) k v = Normal (<[k:=v]> d).
Proof. done. Qed.

End property.

#[export] Hint Rewrite @get_property_Some @get_property_None
  @set_property_Some @set_property_None : js.

(** ** Lemmas on [push] and [for_of] *)

Section loops.
Context {A S : Type}.
Implicit Types (body : S → A → Completion S) (l : list A) (s : S).

Lemma push_length {X} (arr : list X) x : length (push arr x) = Datatypes.S (length arr).
Proof. unfold push. rewrite length_app. simpl. lia. Qed.

Lemma for_of_nil body s : for_of body [] s = Normal s.
Proof. done. Qed.

Lemma for_of_cons body x l s :
  for_of body (x :: l) s = body s x ≫= for_of body l.
Proof. done. Qed.

Lemma for_of_app body l1 l2 s :
  for_of body (l1 ++ l2) s = for_of body l1 s ≫= for_of body l2.
Proof.
  revert s. induction l1 as [|x l1 IH]; intros s; simpl; [done|].
  destruct (body s x); simpl; auto.
Qed.

(** A body that never throws makes the loop a left fold. *)
Lemma for_of_fold body (f : S → A → S) l s :
  (∀ s x, x ∈ l → body s x = Normal (f s x)) →
  for_of body l s = Normal (fold_left f l s).
Proof.
  revert s. induction l as [|x l IH]; intros s Hb; simpl; [done|].
  rewrite Hb by left. simpl. apply IH. intros; apply Hb. by right.
Qed.

(** A loop over nothing but exceptions throws the first one. *)
Lemma for_of_throw body l s e :
  l ≠ [] → (∀ s x, x ∈ l → body s x = Throw e) → for_of body l s = Throw e.
Proof. destruct l as [|x l]; [done|]. intros _ Hb. simpl. by rewrite Hb by left. Qed.

Lemma for_of_ext body body' l s :
  (∀ s x, x ∈ l → body s x = body' s x) → for_of body l s = for_of body' l s.
Proof.
  revert s. induction l as [|x l IH]; intros s Hb; simpl; [done|].
  rewrite Hb by left. destruct (body' s x); simpl; [|done].
  apply IH. intros; apply Hb. by right.
Qed.

End loops.

Section push_loops.
Context {A X : Type}.
Implicit Types (l : list A) (arr : list X).

(** Pushing the image of every element appends the mapped list. *)
Lemma fold_left_push (g : A → X) l arr :
  fold_left (λ acc x, push acc (g x)) l arr = arr ++ (g <$> l).
Proof.
  revert arr. induction l as [|x l IH]; intros arr; simpl.
  - by rewrite app_nil_r.
  - rewrite IH. unfold push. by rewrite <-app_assoc.
Qed.

(** The same for a loop that pushes to two arrays at once. *)
Lemma fold_left_push2 {Y} (g : A → X) (h : A → Y) l arr (arr' : list Y) :
  fold_left (λ '(acc, acc') x, (push acc (g x), push acc' (h x))) l (arr, arr')
  = (arr ++ (g <$> l), arr' ++ (h <$> l)).
Proof.
  revert arr arr'. induction l as [|x l IH]; intros arr arr'; simpl.
  - by rewrite !app_nil_r.
  - rewrite IH. unfold push. by rewrite <-!app_assoc.
Qed.

(** A loop whose body appends [g x] and never throws appends them all, in
    order. *)
Lemma for_of_append (body : list X → A → Completion (list X)) (g : A → list X) l arr :
  (∀ arr x, x ∈ l → body arr x = Normal (arr ++ g x)) →
  for_of body l arr = Normal (arr ++ (l ≫= g)).
Proof.
  revert arr. induction l as [|x l IH]; intros arr Hb; simpl.
  - by rewrite app_nil_r.
  - rewrite Hb by left. simpl. rewrite IH, app_assoc; [done|].
    intros; apply Hb. by right.
Qed.

(** A loop whose body leaves the state alone is the identity. *)
Lemma for_of_skip (body : list X → A → Completion (list X)) l arr :
  (∀ arr x, x ∈ l → body arr x = Normal arr) → for_of body l arr = Normal arr.
Proof.
  revert arr. induction l as [|x l IH]; intros arr Hb; simpl; [done|].
  rewrite Hb by left. simpl. apply IH. intros; apply Hb. by right.
Qed.

End push_loops.

#[export] Hint Rewrite @for_of_nil @for_of_cons @for_of_app : js.

(** ** Lists: counting and sums used by several components *)

Lemma filter_two {A} (P : A → Prop) `{∀ x, Decision (P x)} (x y : A) :
  filter P [x; y] = filter P [x] ++ filter P [y].
Proof. apply (filter_app P [x] [y]). Qed.

Lemma length_bind {A B} (f : A → list B) (l : list A) :
  length (l ≫= f) = sum_list (length ∘ f <$> l).
Proof.
  induction l as [|x l IH]; [done|].
  rewrite bind_cons, length_app, IH. done.
Qed.

Lemma bind_nil_all {A B} (f : A → list B) (l : list A) :
  l ≫= f = [] ↔ Forall (λ x, f x = []) l.
Proof.
  induction l as [|x l IH]; [by split|].
  rewrite bind_cons, Forall_cons, <-IH. split.
  - by intros [? ?]%app_eq_nil.
  - by intros [-> ->].
Qed.

(** ** The dictionary of the positions of a list of keys *)

(** [l.forEach((k, i) => d[k] = i)] from an empty dictionary: every key is
    mapped to its position, a repeated key to its last one. *)
Definition index_dict (l : list string) : gmap string nat :=
  fold_left (λ d '(i, k), <[k:=i]> d) (imap pair l) ∅.

Section index_dict.
Implicit Types (l : list string) (k : string) (i : nat).

Lemma index_dict_nil : index_dict [] = ∅.
Proof. done. Qed.

Lemma index_dict_snoc l k :
  index_dict (l ++ [k]) = <[k:=length l]> (index_dict l).
Proof.
  unfold index_dict. rewrite imap_app, fold_left_app. simpl.
  by rewrite Nat.add_0_r.
Qed.

(** The entry of a key is its last position. *)
Lemma index_dict_lookup_last l k i :
  index_dict l !! k = Some i
  ↔ l !! i = Some k ∧ ∀ j, i < j → l !! j ≠ Some k.
Proof.
  revert i. induction l as [|k' l IH] using rev_ind; intros i.
  - rewrite index_dict_nil, lookup_empty. split; [done|]. by intros [? _].
  - rewrite index_dict_snoc. destruct (decide (k' = k)) as [->|Hne].
    + rewrite lookup_insert_eq. split.
      * intros [= <-]. split; [by rewrite list_lookup_middle|].
        intros j Hj. rewrite lookup_ge_None_2; [done|]. rewrite length_app; simpl; lia.
      * intros [Hi Hlast]. f_equal.
        destruct (decide (i < length l)) as [Hlt|Hge].
        { destruct (Hlast (length l) Hlt). by rewrite list_lookup_middle. }
        apply lookup_lt_Some in Hi. rewrite length_app in Hi; simpl in Hi; lia.
    + rewrite lookup_insert_ne, IH by done. split; intros [Hi Hlast].
      * split; [by apply lookup_app_l_Some|]. intros j Hj.
        destruct (decide (j < length l)) as [Hlt|Hge].
        { rewrite lookup_app_l by done. by apply Hlast. }
        intros Hk. apply lookup_lt_Some in Hk as Hjl.
        rewrite length_app in Hjl; simpl in Hjl.
        replace j with (length l) in Hk by lia.
        rewrite list_lookup_middle in Hk by done. congruence.
      * assert (i < length l) as Hlt.
        { apply lookup_lt_Some in Hi as Hil. rewrite length_app in Hil; simpl in Hil.
          destruct (decide (i = length l)) as [->|]; [|lia].
          rewrite list_lookup_middle in Hi by done. congruence. }
        rewrite lookup_app_l in Hi by done. split; [done|].
        intros j Hj Hk. apply (Hlast j Hj). by apply lookup_app_l_Some.
Qed.

(** Without repeated keys the dictionary is the inverse of the list. *)
Lemma index_dict_lookup l k i :
  NoDup l → index_dict l !! k = Some i ↔ l !! i = Some k.
Proof.
  intros Hnd. rewrite index_dict_lookup_last. split; [by intros [? _]|].
  intros Hi. split; [done|]. intros j Hj Hk.
  pose proof (NoDup_lookup l i j k Hnd Hi Hk). lia.
Qed.

Lemma index_dict_lookup_lt l k i : index_dict l !! k = Some i → i < length l.
Proof. intros [Hi _]%index_dict_lookup_last. by eapply lookup_lt_Some. Qed.

Lemma index_dict_is_Some l k : is_Some (index_dict l !! k) ↔ k ∈ l.
Proof.
  induction l as [|k' l IH] using rev_ind.
  - rewrite index_dict_nil, lookup_empty, elem_of_nil. split; [by intros []|done].
  - rewrite index_dict_snoc, elem_of_app, list_elem_of_singleton, <-IH.
    destruct (decide (k' = k)) as [->|].
    + rewrite lookup_insert_eq. split; eauto.
    + rewrite lookup_insert_ne by done. split; [by left|]. by intros [?|?].
Qed.

Lemma index_dict_dom l : dom (index_dict l) = list_to_set l.
Proof.
  apply set_eq. intros k.
  by rewrite elem_of_dom, index_dict_is_Some, elem_of_list_to_set.
Qed.

End index_dict.

(** ** Dropping a prefix by a test *)

Fixpoint drop_while {A} (p : A → bool) (l : list A) : list A :=
  match l with
  | [] => []
  | x :: l' => if p x then drop_while p l' else l
  end.

Section drop_while.
Context {A : Type} (p : A → bool).
Implicit Types (l k : list A) (x : A).

(** The dropped prefix passes the test, and the rest starts with an
    element that fails it. *)
Lemma drop_while_split l :
  ∃ k, l = k ++ drop_while p l ∧ Forall (λ x, p x = true) k.
Proof.
  induction l as [|x l (k & Hl & Hk)]; [by exists []|]. simpl.
  destruct (p x) eqn:Hx; [|by exists []].
  exists (x :: k). split; [by rewrite <-app_comm_cons, <-Hl|by constructor].
Qed.

Lemma drop_while_head l x : head (drop_while p l) = Some x → p x = false.
Proof.
  induction l as [|y l IH]; [done|]. simpl. destruct (p y) eqn:Hy; [done|].
  by intros [= <-].
Qed.

Lemma drop_while_nil l : drop_while p l = [] ↔ Forall (λ x, p x = true) l.
Proof.
  induction l as [|x l IH]; [done|]. simpl. rewrite Forall_cons, <-IH.
  destruct (p x); split; try done; by intros [? ?].
Qed.

Lemma drop_while_id l :
  (∀ x, head l = Some x → p x = false) → drop_while p l = l.
Proof. destruct l as [|x l]; [done|]. intros Hx. simpl. by rewrite Hx. Qed.

Lemma drop_while_idemp l : drop_while p (drop_while p l) = drop_while p l.
Proof. apply drop_while_id, drop_while_head. Qed.

(** What is left ends as the list does. *)
Lemma drop_while_last l : drop_while p l ≠ [] → last (drop_while p l) = last l.
Proof.
  destruct (drop_while_split l) as (k & Hl & _). intros Hne.
  rewrite Hl at 2. rewrite last_app. by destruct (last (drop_while p l)) eqn:E;
    [|apply last_None in E].
Qed.

Lemma drop_while_length l : length (drop_while p l) ≤ length l.
Proof.
  destruct (drop_while_split l) as (k & Hl & _). rewrite Hl at 2.
  rewrite length_app. lia.
Qed.

End drop_while.

(** ** Transition relations *)

(** Termination from a measure: a relation whose steps decrease a natural
    number has no infinite sequence, and reaches an irreducible element
    within that number of steps. *)
Section measure.
Context {A : Type} (R : relation A) (m : A → nat).
Context (decreasing : ∀ x y, R x y → m y < m x).

Lemma sn_measure x : sn R x.
Proof.
  apply (wf_projected (<) m); [|apply lt_wf].
  intros y z Hzy. by apply decreasing.
Qed.

End measure.

(** A functional relation: the irreducible element a sequence reaches is
    unique. *)
Lemma deterministic_rtc_nf {A} (R : relation A) x y1 y2 :
  deterministic R → rtc R x y1 → nf R y1 → rtc R x y2 → nf R y2 → y1 = y2.
Proof. intros Hdet. by apply confluent_rtc_nf, deterministic_confluent. Qed.

(** ** Lists whose elements carry their position *)

(** Every element carries its position: [index] of the [i]-th is [i]. *)
Definition indexed {A} (index : A → nat) (l : list A) : Prop :=
  index <$> l = seq 0 (length l).

#[export] Instance indexed_dec {A} (index : A → nat) l : Decision (indexed index l).
Proof. unfold indexed. apply _. Defined.

Lemma indexed_lookup {A} (index : A → nat) l :
  indexed index l ↔ ∀ i x, l !! i = Some x → index x = i.
Proof.
  unfold indexed. split.
  - intros Hl i x Hx. apply (f_equal (.!! i)) in Hl.
    rewrite list_lookup_fmap, Hx in Hl. symmetry in Hl.
    by apply lookup_seq in Hl as [-> _].
  - intros Hl. apply list_eq. intros i. rewrite list_lookup_fmap.
    destruct (l !! i) as [x|] eqn:Hx; simpl.
    + rewrite (Hl i x Hx), lookup_seq_lt; [done|]. by eapply lookup_lt_Some.
    + rewrite lookup_seq_ge; [done|]. by apply lookup_ge_None.
Qed.

(** ** The elements of a list in the order of their first occurrence *)

(** The head is kept and its later copies are dropped. *)
Fixpoint first_occurrences `{EqDecision A} (l : list A) : list A :=
  match l with
  | [] => []
  | x :: l => x :: filter (λ y, y ≠ x) (first_occurrences l)
  end.

Section first_occurrences.
Context `{EqDecision A}.
Implicit Types (x y : A) (l : list A).

Lemma first_occurrences_elem_of l x : x ∈ first_occurrences l ↔ x ∈ l.
Proof.
  induction l as [|y l IH]; [done|]. simpl.
  rewrite !elem_of_cons, list_elem_of_filter, IH. split.
  - intros [->|[_ ?]]; auto.
  - intros [->|?]; [by left|]. destruct (decide (x = y)); auto.
Qed.

Lemma first_occurrences_NoDup l : NoDup (first_occurrences l).
Proof.
  induction l as [|y l IH]; simpl; constructor.
  - rewrite list_elem_of_filter. by intros [? _].
  - by apply NoDup_filter.
Qed.

(** An element seen before adds nothing; a new one is added at the end. *)
Lemma first_occurrences_snoc l x :
  first_occurrences (l ++ [x])
  = if decide (x ∈ l) then first_occurrences l else first_occurrences l ++ [x].
Proof.
  induction l as [|y l IH]; [done|]. simpl. rewrite IH.
  destruct (decide (x = y)) as [->|Hxy].
  - rewrite (decide_True (P:=y ∈ y :: l)) by left. case_decide; [done|].
    by rewrite filter_app, filter_cons_False, filter_nil, app_nil_r by auto.
  - destruct (decide (x ∈ l)) as [Hx|Hx].
    + by rewrite (decide_True (P:=x ∈ y :: l)) by (by right).
    + rewrite (decide_False (P:=x ∈ y :: l)) by (by intros [?|?]%elem_of_cons).
      by rewrite filter_app, filter_cons_True by done.
Qed.

Lemma filter_ne_id l x : x ∉ l → filter (λ y, y ≠ x) l = l.
Proof.
  induction l as [|y l IH]; [done|]. intros [? ?]%not_elem_of_cons.
  by rewrite filter_cons_True, IH by done.
Qed.

(** A list without a copy is left as it is. *)
Lemma first_occurrences_id l : NoDup l → first_occurrences l = l.
Proof.
  induction 1 as [|x l Hx _ IH]; [done|]. simpl. by rewrite IH, filter_ne_id.
Qed.

End first_occurrences.
