(* ===== verification/JsString.v ===== *)
(** * JsString: the ECMAScript string and array-of-string operations

    The built-ins the sources call on strings, as executable functions on
    [string] (one character per UTF-16 code unit, code units below 256):
    [Array.prototype.join] ([join]), [String.prototype.replace] with a
    global one-character pattern ([replace_all_char]), truthiness of a
    string ([truthy]), [String.prototype.trim] ([trim]),
    [String.prototype.toLowerCase] ([toLowerCase]), [parseInt] in base 10
    ([parseInt]) with the rounding of its integer to a double
    ([to_number]), and the first match of [/H(\d)/] ([match_H_digit]);
    and [String.prototype.split] at one character ([split]), the inverse
    of [join] where there is one.

    Facts about the characters of a result are stated on [chars], the list
    of code units of a string, where the list library applies. *)

From S2P Require Import Prelude.
From Stdlib Require Import Ascii.

Implicit Types (s t sep r : string) (c a : ascii) (l : list string).

(** ** Strings as lists of code units *)

Definition chars (s : string) : list ascii := String.list_ascii_of_string s.

Definition of_chars (cs : list ascii) : string := String.string_of_list_ascii cs.

#[global] Arguments chars : simpl never.
#[global] Arguments of_chars : simpl never.

(** A string is truthy when it is not empty. *)
Definition truthy (s : string) : bool := bool_decide (s ≠ "").

(** ** [Array.prototype.join] on an array of strings *)

Fixpoint join (sep : string) (l : list string) : string :=
  match l with
  | [] => ""
  | [x] => x
  | x :: l' => x +:+ sep +:+ join sep l'
  end.

(** ** [s.replace(/c/g, r)]: every occurrence of one character replaced

    The replacement text [r] is inserted as it is (it holds no [$]
    pattern in the sources). *)
Fixpoint replace_all_char (c : ascii) (r : string) (s : string) : string :=
  match s with
  | "" => ""
  | String a s' =>
      (if decide (a = c) then r else String a "") +:+ replace_all_char c r s'
  end.

(** The number of occurrences of a character. *)
Definition count_char (c : ascii) (s : string) : nat :=
  length (filter (λ a, a = c) (chars s)).

(** ** Lemmas: [chars] *)

Lemma chars_of_chars cs : chars (of_chars cs) = cs.
Proof. apply String.list_ascii_of_string_of_list_ascii. Qed.

Lemma of_chars_chars s : of_chars (chars s) = s.
Proof. apply String.string_of_list_ascii_of_string. Qed.

#[export] Instance chars_inj : Inj (=) (=) chars.
Proof. intros s t E. by rewrite <-(of_chars_chars s), E, of_chars_chars. Qed.

Lemma chars_empty : chars "" = [].
Proof. done. Qed.

Lemma chars_String a s : chars (String a s) = a :: chars s.
Proof. done. Qed.

Lemma chars_app s t : chars (s +:+ t) = chars s ++ chars t.
Proof.
  induction s as [|a s IH]; [done|].
  change (String a s +:+ t) with (String a (s +:+ t)).
  by rewrite !chars_String, IH.
Qed.

Lemma chars_nil_inv s : chars s = [] ↔ s = "".
Proof. by destruct s. Qed.

Lemma string_length_chars s : String.length s = length (chars s).
Proof. induction s; [done|]. rewrite chars_String. simpl. by f_equal. Qed.

#[export] Hint Rewrite chars_empty chars_String chars_app chars_of_chars : js.

(** Equations on strings are proved on their characters. *)
Ltac string_eq := apply (inj chars); autorewrite with js; try done.

Lemma string_app_nil_r s : s +:+ "" = s.
Proof. string_eq. by rewrite app_nil_r. Qed.

Lemma string_app_assoc s t r : (s +:+ t) +:+ r = s +:+ t +:+ r.
Proof. string_eq. by rewrite app_assoc. Qed.

Lemma string_app_nil_inv s t : s +:+ t = "" ↔ s = "" ∧ t = "".
Proof.
  rewrite <-!chars_nil_inv, chars_app. split.
  - by intros [? ?]%app_eq_nil.
  - by intros [-> ->].
Qed.

Lemma string_length_app s t :
  String.length (s +:+ t) = String.length s + String.length t.
Proof. by rewrite !string_length_chars, chars_app, length_app. Qed.

Lemma truthy_true s : truthy s = true ↔ s ≠ "".
Proof. unfold truthy. by rewrite bool_decide_eq_true. Qed.

Lemma truthy_false s : truthy s = false ↔ s = "".
Proof.
  unfold truthy. rewrite bool_decide_eq_false. split; [|by intros ->; auto].
  intros H. by destruct (decide (s = "")).
Qed.

(** ** Lemmas: [join] *)

Lemma join_nil sep : join sep [] = "".
Proof. done. Qed.

Lemma join_singleton sep x : join sep [x] = x.
Proof. done. Qed.

Lemma join_cons sep x l :
  l ≠ [] → join sep (x :: l) = x +:+ sep +:+ join sep l.
Proof. by destruct l. Qed.

(** Every element after the first comes with the separator before it. *)
Lemma chars_join_cons sep x l :
  chars (join sep (x :: l)) = chars x ++ (l ≫= λ y, chars sep ++ chars y).
Proof.
  revert x. induction l as [|y l IH]; intros x.
  - simpl. by rewrite app_nil_r.
  - rewrite join_cons by done. rewrite !chars_app, IH, bind_cons.
    by rewrite <-!app_assoc.
Qed.

Lemma join_app sep l1 l2 :
  l1 ≠ [] → l2 ≠ [] →
  join sep (l1 ++ l2) = join sep l1 +:+ sep +:+ join sep l2.
Proof.
  intros H1 H2. destruct l1 as [|x l1]; [done|]. destruct l2 as [|y l2]; [done|].
  apply (inj chars). rewrite <-app_comm_cons, !chars_app, !chars_join_cons.
  rewrite bind_app, bind_cons. by rewrite <-!app_assoc.
Qed.

Lemma join_snoc sep l x :
  l ≠ [] → join sep (l ++ [x]) = join sep l +:+ sep +:+ x.
Proof. intros. by rewrite join_app. Qed.

(** A character that is neither in the separator nor in an element is not
    in the joined string. *)
Lemma not_elem_of_join c sep l :
  c ∉ chars sep → Forall (λ x, c ∉ chars x) l → c ∉ chars (join sep l).
Proof.
  intros Hsep Hl. destruct Hl as [|x l Hx Hl]; [by rewrite join_nil; inversion 1|].
  rewrite chars_join_cons, elem_of_app, list_elem_of_bind.
  intros [?|(y & [?|?]%elem_of_app & Hy)]; [done..|].
  by eapply Forall_forall in Hl.
Qed.

Lemma join_empty_inv sep l :
  sep ≠ "" → join sep l = "" ↔ l = [] ∨ l = [""].
Proof.
  intros Hsep. split; [|by intros [-> | ->]].
  destruct l as [|x [|y l]]; [by left|right; simpl in *; congruence|].
  rewrite join_cons by done.
  intros (_ & (? & _)%string_app_nil_inv)%string_app_nil_inv. done.
Qed.

(** ** Lemmas: [replace_all_char] *)

Lemma replace_all_char_empty c r : replace_all_char c r "" = "".
Proof. done. Qed.

Lemma replace_all_char_String c r a s :
  replace_all_char c r (String a s)
  = (if decide (a = c) then r else String a "") +:+ replace_all_char c r s.
Proof. done. Qed.

Lemma chars_replace_all_char c r s :
  chars (replace_all_char c r s)
  = chars s ≫= λ a, if decide (a = c) then chars r else [a].
Proof.
  induction s as [|a s IH]; [done|].
  rewrite replace_all_char_String, chars_app, IH, chars_String, bind_cons.
  by destruct (decide (a = c)).
Qed.

Lemma replace_all_char_app c r s t :
  replace_all_char c r (s +:+ t) = replace_all_char c r s +:+ replace_all_char c r t.
Proof. string_eq. by rewrite !chars_replace_all_char, chars_app, bind_app. Qed.

(** The replaced character is gone when the replacement does not hold it. *)
Lemma replace_all_char_not_elem c r s :
  c ∉ chars r → c ∉ chars (replace_all_char c r s).
Proof.
  intros Hr. rewrite chars_replace_all_char, list_elem_of_bind.
  intros (a & Ha & _). destruct (decide (a = c)); [done|].
  by apply list_elem_of_singleton in Ha.
Qed.

(** Other characters stay, and no other character appears but those of [r]. *)
Lemma replace_all_char_elem c r s a :
  a ∈ chars (replace_all_char c r s)
  ↔ (a ≠ c ∧ a ∈ chars s) ∨ (c ∈ chars s ∧ a ∈ chars r).
Proof.
  rewrite chars_replace_all_char, list_elem_of_bind. split.
  - intros (b & Ha & Hb). destruct (decide (b = c)) as [->|]; [by right|].
    apply list_elem_of_singleton in Ha as ->. by left.
  - intros [[? ?]|[? ?]].
    + exists a. by rewrite decide_False, list_elem_of_singleton.
    + exists c. by rewrite decide_True.
Qed.

(** A string without the character is left as it is. *)
Lemma replace_all_char_id c r s : c ∉ chars s → replace_all_char c r s = s.
Proof.
  induction s as [|a s IH]; [done|]. rewrite chars_String, not_elem_of_cons.
  intros [? ?]. rewrite replace_all_char_String, decide_False by done.
  by rewrite IH.
Qed.

Lemma replace_all_char_length c r s :
  String.length (replace_all_char c r s)
  = String.length s - count_char c s + count_char c s * String.length r.
Proof.
  unfold count_char. induction s as [|a s IH]; [done|].
  rewrite replace_all_char_String, string_length_app, IH, chars_String, filter_cons.
  pose proof (length_filter (λ a, a = c) (chars s)) as Hle.
  rewrite <-string_length_chars in Hle.
  destruct (decide (a = c)); simpl; lia.
Qed.

(** ** White space, [trim] and [toLowerCase] *)

(** The white space and line terminator code units below 256: tab, line
    feed, vertical tab, form feed, carriage return, space and no-break
    space. *)
Definition is_white_space (c : ascii) : bool :=
  match c with
  | "009" | "010" | "011" | "012" | "013" | " " | "160" => true
  | _ => false
  end%char.

Definition trimStart (s : string) : string :=
  of_chars (drop_while is_white_space (chars s)).

Definition trimEnd (s : string) : string :=
  of_chars (reverse (drop_while is_white_space (reverse (chars s)))).

(** [String.prototype.trim] *)
Definition trim (s : string) : string := trimEnd (trimStart s).

(** The upper case letters below 256 (A to Z, and the accented capitals
    but the multiplication sign) are 32 below their lower case. *)
Definition to_lower (c : ascii) : ascii :=
  let n := nat_of_ascii c in
  if bool_decide (65 ≤ n ≤ 90)
     || (bool_decide (192 ≤ n ≤ 222) && negb (bool_decide (n = 215)))
  then ascii_of_nat (n + 32) else c.

(** [String.prototype.toLowerCase] *)
Definition toLowerCase (s : string) : string := of_chars (to_lower <$> chars s).

(** ** [parseInt(s, 10)] *)

(** The result of [parseInt]: a Number that holds an integer, the negative
    zero, an infinity, or NaN.  The integer of [Num z] is one that a double
    holds: every integer below 2^53 in absolute value, and beyond it the
    integers with 53 significant bits. *)
Inductive JsNumber : Type :=
| Num (z : Z)
| NegZero
| Infinity (negative : bool)
| NaN.

#[export] Instance JsNumber_eq_dec : EqDecision JsNumber.
Proof. solve_decision. Defined.

Definition digit_value (c : ascii) : option Z := Z.of_nat <$> Ascii.is_nat c.

Definition is_digit (c : ascii) : bool := bool_decide (is_Some (digit_value c)).

(** The values of the longest prefix of decimal digits. *)
Fixpoint digits_prefix (cs : list ascii) : list Z :=
  match cs with
  | c :: cs' =>
      match digit_value c with
      | Some d => d :: digits_prefix cs'
      | None => []
      end
  | [] => []
  end.

Definition digits_value (ds : list Z) : Z :=
  fold_left (λ acc d, 10 * acc + d)%Z ds 0%Z.

(** The bits of [z] below the 53 that the significand of a double keeps. *)
Definition excess_bits (z : Z) : Z := Z.max 0 (Z.log2 z - 52).

(** The double nearest to the integer [z], for [0 ≤ z]: the bits beyond
    the 53 of the significand are rounded away, a tie to the even
    significand. *)
Definition round_double (z : Z) : Z :=
  let e := excess_bits z in
  let q := Z.shiftr z e in
  let r := Z.land z (Z.ones e) in
  let half := Z.shiftr (Z.shiftl 1 e) 1 in
  let q := if decide (half < r ∨ (r = half ∧ Z.odd q = true ∧ 0 < e))%Z
           then (q + 1)%Z else q in
  Z.shiftl q e.

(** The Number value of [sign * mathInt]: beyond the largest double it
    is an infinity. *)
Definition to_number (sign mathInt : Z) : JsNumber :=
  let m := round_double mathInt in
  if decide (2 ^ 1024 ≤ m)%Z then Infinity (bool_decide (sign = (-1)%Z))
  else Num (sign * m).

(** Leading white space is skipped, one sign is read, then the longest
    prefix of digits; no digit gives NaN.  The integer of the digits is
    exact, whatever their number, and is then rounded to a double. *)
Definition parseInt (s : string) : JsNumber :=
  let cs := drop_while is_white_space (chars s) in
  let '(sign, cs) :=
    match cs with
    | "-"%char :: r => ((-1)%Z, r)
    | "+"%char :: r => (1%Z, r)
    | _ => (1%Z, cs)
    end in
  match digits_prefix cs with
  | [] => NaN
  | ds =>
      let mathInt := digits_value ds in
      if decide (mathInt = 0%Z ∧ sign = (-1)%Z) then NegZero
      else to_number sign mathInt
  end.

(** ** The first match of [/H(\d)/] *)

Fixpoint match_H_digit_chars (cs : list ascii) : option ascii :=
  match cs with
  | c :: cs' =>
      match cs' with
      | d :: _ =>
          if bool_decide (c = "H"%char) && is_digit d then Some d
          else match_H_digit_chars cs'
      | [] => None
      end
  | [] => None
  end.

(** [s.match(/H(\d)/)]: the capture group of the leftmost match, or [None]
    when the result is [null]. *)
Definition match_H_digit (s : string) : option string :=
  (λ d, String d "") <$> match_H_digit_chars (chars s).

(** ** Lemmas: [trim] *)

Lemma chars_trimStart s : chars (trimStart s) = drop_while is_white_space (chars s).
Proof. apply chars_of_chars. Qed.

Lemma chars_trimEnd s :
  chars (trimEnd s) = reverse (drop_while is_white_space (reverse (chars s))).
Proof. apply chars_of_chars. Qed.

Lemma chars_trim s :
  chars (trim s)
  = reverse (drop_while is_white_space
      (reverse (drop_while is_white_space (chars s)))).
Proof. unfold trim. by rewrite chars_trimEnd, chars_trimStart. Qed.

(** What [trim] removes: white space before, and white space after. *)
Lemma trim_split s :
  ∃ before after,
    chars s = before ++ chars (trim s) ++ after
    ∧ Forall (λ c, is_white_space c = true) before
    ∧ Forall (λ c, is_white_space c = true) after.
Proof.
  rewrite chars_trim.
  destruct (drop_while_split is_white_space (chars s)) as (before & Hs & Hb).
  destruct (drop_while_split is_white_space
    (reverse (drop_while is_white_space (chars s)))) as (after & Hr & Ha).
  exists before, (reverse after). split_and!; [|done|by apply Forall_reverse].
  rewrite Hs at 1. f_equal. apply (inj reverse).
  by rewrite Hr at 1; rewrite reverse_app, !reverse_involutive.
Qed.

Lemma trim_head s c : head (chars (trim s)) = Some c → is_white_space c = false.
Proof.
  rewrite chars_trim, head_reverse. 
  set (l := reverse _). intros Hlast.
  destruct (decide (drop_while is_white_space l = [])) as [E|Hne];
    [by rewrite E in Hlast|].
  rewrite drop_while_last in Hlast by done. unfold l in Hlast.
  rewrite last_reverse in Hlast. by eapply drop_while_head.
Qed.

Lemma trim_last s c : last (chars (trim s)) = Some c → is_white_space c = false.
Proof. rewrite chars_trim, last_reverse. apply drop_while_head. Qed.

(** A string that neither starts nor ends with white space is its own
    [trim]. *)
Lemma trim_id s :
  (∀ c, head (chars s) = Some c → is_white_space c = false) →
  (∀ c, last (chars s) = Some c → is_white_space c = false) →
  trim s = s.
Proof.
  intros Hh Hl. apply (inj chars). rewrite chars_trim.
  rewrite (drop_while_id _ (chars s)) by done.
  rewrite drop_while_id, reverse_involutive; [done|].
  intros c. rewrite head_reverse. apply Hl.
Qed.

Lemma trim_idemp s : trim (trim s) = trim s.
Proof. apply trim_id; [apply trim_head|apply trim_last]. Qed.

(** [trim] gives the empty string exactly on white space. *)
Lemma trim_empty_iff s :
  trim s = "" ↔ Forall (λ c, is_white_space c = true) (chars s).
Proof.
  rewrite <-chars_nil_inv. split.
  - intros E. destruct (trim_split s) as (before & after & Hs & Hb & Ha).
    rewrite Hs, E. simpl. by apply Forall_app.
  - intros Hs. rewrite chars_trim.
    rewrite (proj2 (drop_while_nil _ (chars s)) Hs). done.
Qed.

(** ** Lemmas: [toLowerCase] *)

Lemma to_lower_idemp c : to_lower (to_lower c) = to_lower c.
Proof. by destruct c as [[] [] [] [] [] [] [] []]; vm_compute. Qed.

Lemma chars_toLowerCase s : chars (toLowerCase s) = to_lower <$> chars s.
Proof. apply chars_of_chars. Qed.

Lemma toLowerCase_idemp s : toLowerCase (toLowerCase s) = toLowerCase s.
Proof.
  apply (inj chars). rewrite !chars_toLowerCase, <-list_fmap_compose.
  apply list_fmap_ext. intros _ c _. apply to_lower_idemp.
Qed.

Lemma toLowerCase_length s : String.length (toLowerCase s) = String.length s.
Proof. by rewrite !string_length_chars, chars_toLowerCase, length_fmap. Qed.

Lemma toLowerCase_app s t : toLowerCase (s +:+ t) = toLowerCase s +:+ toLowerCase t.
Proof. apply (inj chars). by rewrite chars_app, !chars_toLowerCase, chars_app, fmap_app. Qed.

(** ** Lemmas: rounding to a double *)

Lemma excess_bits_safe z : (z < 2 ^ 53)%Z → excess_bits z = 0%Z.
Proof.
  intros Hz. unfold excess_bits. destruct (decide (0 < z)%Z) as [Hpos|Hneg].
  - apply Z.log2_lt_pow2 in Hz; [lia|done].
  - rewrite Z.log2_nonpos by lia. lia.
Qed.

Lemma excess_bits_nonneg z : (0 ≤ excess_bits z)%Z.
Proof. unfold excess_bits. lia. Qed.

(** An integer below 2^53 is a double. *)
Lemma round_double_safe z : (z < 2 ^ 53)%Z → round_double z = z.
Proof.
  intros Hz. unfold round_double. rewrite (excess_bits_safe z Hz).
  change (Z.ones 0) with 0%Z. change (Z.shiftr (Z.shiftl 1 0) 1) with 0%Z.
  rewrite Z.shiftr_0_r, Z.land_0_r, decide_False by (intros [?|(_ & _ & ?)]; lia).
  apply Z.shiftl_0_r.
Qed.

Lemma pow2_even e : (0 < e)%Z → (2 ^ e `mod` 2 = 0)%Z.
Proof.
  intros He. replace e with (Z.succ (e - 1)) by lia.
  rewrite Z.pow_succ_r, Z.mul_comm by lia. apply Z.mod_mul. lia.
Qed.

(** Rounding moves an integer by at most half a unit of its last kept
    bit. *)
Lemma round_double_near z :
  (0 ≤ z)%Z → (2 * Z.abs (round_double z - z) ≤ 2 ^ excess_bits z)%Z.
Proof.
  intros Hz. unfold round_double. pose proof (excess_bits_nonneg z) as He.
  set (e := excess_bits z) in *.
  rewrite Z.shiftr_div_pow2, Z.land_ones, Z.shiftl_mul_pow2 by lia.
  rewrite Z.shiftl_mul_pow2, Z.shiftr_div_pow2, Z.mul_1_l, Z.pow_1_r by lia.
  pose proof (Z.pow_pos_nonneg 2 e) as Hpow.
  pose proof (Z.div_mod z (2 ^ e)) as Hdiv.
  pose proof (Z.mod_pos_bound z (2 ^ e)) as Hmod.
  pose proof (Z.div_mod (2 ^ e) 2) as Hhalf.
  pose proof (Z.mod_pos_bound (2 ^ e) 2) as Hbit.
  pose proof (pow2_even e) as Heven.
  set (P := (2 ^ e)%Z) in *. set (q := (z `div` P)%Z) in *.
  set (r := (z `mod` P)%Z) in *. set (h := (P `div` 2)%Z) in *.
  set (b := (P `mod` 2)%Z) in *. clearbody b h r q P.
  case_decide; lia.
Qed.

(** Below 2^53 the Number value of an integer is the integer. *)
Lemma to_number_safe sign z :
  (z < 2 ^ 53)%Z → to_number sign z = Num (sign * z).
Proof.
  intros Hz. unfold to_number. rewrite (round_double_safe z Hz).
  assert (2 ^ 53 < 2 ^ 1024)%Z by (by apply Z.pow_lt_mono_r).
  by rewrite decide_False by lia.
Qed.

(** ** Lemmas: [parseInt] and [match_H_digit] *)

Lemma is_digit_value c : is_digit c = true ↔ ∃ d, digit_value c = Some d.
Proof. unfold is_digit. by rewrite bool_decide_eq_true. Qed.

Lemma digit_value_range c d : digit_value c = Some d → (0 ≤ d ≤ 9)%Z.
Proof.
  unfold digit_value. destruct (Ascii.is_nat c) as [n|] eqn:E; [|done].
  intros [= <-]. unfold Ascii.is_nat in E.
  repeat (case_match; simplify_eq; try lia).
Qed.

(** One digit parses to its value. *)
Lemma parseInt_digit c d : digit_value c = Some d → parseInt (String c "") = Num d.
Proof.
  intros Hd. pose proof (digit_value_range c d Hd) as Hr.
  unfold parseInt. rewrite chars_String, chars_empty. simpl.
  assert (is_white_space c = false) as ->.
  { destruct (is_white_space c) eqn:Hw; [|done]. exfalso. revert Hd.
    by destruct c as [[] [] [] [] [] [] [] []]. }
  assert (c ≠ "-"%char ∧ c ≠ "+"%char) as [Hm Hp].
  { split; intros ->; by vm_compute in Hd. }
  destruct (decide (c = "-"%char)), (decide (c = "+"%char)); try done.
  replace (match c with "-"%char => _ | _ => _ end)
    with (1%Z, [c]).
  - simpl. rewrite Hd. unfold digits_value. simpl.
    rewrite decide_False by (intros [_ ?]; done).
    rewrite to_number_safe by lia. f_equal. lia.
  - revert Hm Hp. by destruct c as [[] [] [] [] [] [] [] []].
Qed.

Lemma parseInt_empty : parseInt "" = NaN.
Proof. done. Qed.

Lemma match_H_digit_Some s g :
  match_H_digit s = Some g → ∃ d, g = String d "" ∧ is_digit d = true.
Proof.
  unfold match_H_digit. generalize (chars s). intros cs.
  destruct (match_H_digit_chars cs) as [d|] eqn:E; [|done]. intros [= <-].
  exists d. split; [done|]. induction cs as [|c cs IH]; [done|].
  simpl in E. destruct cs as [|d' cs]; [done|].
  destruct (bool_decide (c = "H"%char) && is_digit d') eqn:Hc; [|by apply IH].
  apply andb_prop in Hc as [_ Hd]. by simplify_eq.
Qed.

(** A tag name made of [H] and a digit matches, and captures the digit. *)
Lemma match_H_digit_heading d r :
  is_digit d = true → match_H_digit (String "H" (String d r)) = Some (String d "").
Proof.
  intros Hd. unfold match_H_digit. rewrite !chars_String. simpl.
  by rewrite Hd.
Qed.

Lemma match_H_digit_chars_cons c d cs :
  match_H_digit_chars (c :: d :: cs)
  = if bool_decide (c = "H"%char) && is_digit d then Some d
    else match_H_digit_chars (d :: cs).
Proof. done. Qed.

(** No match: no [H] of the string is followed by a digit. *)
Lemma match_H_digit_chars_None cs :
  match_H_digit_chars cs = None
  ↔ ∀ pre d post, cs = pre ++ "H"%char :: d :: post → is_digit d = false.
Proof.
  induction cs as [|c [|d' cs] IH].
  - split; [|done]. by intros _ [|??] ???.
  - split; [|done]. by intros _ [|?[|??]] ???.
  - rewrite match_H_digit_chars_cons.
    destruct (bool_decide (c = "H"%char) && is_digit d') eqn:Hc.
    + split; [done|]. apply andb_prop in Hc as [->%bool_decide_eq_true Hd].
      intros Hno. by rewrite (Hno [] d' cs) in Hd.
    + rewrite IH. split.
      * intros Hno [|c' pre'] d post [= ??]; simplify_eq; [|by eapply Hno].
        by rewrite bool_decide_true in Hc.
      * intros Hno pre d post Hcs. apply (Hno (c :: pre) d post). by rewrite Hcs.
Qed.

(** Before the match there is none: the match is the leftmost. *)
Lemma match_H_digit_chars_app pre d post :
  match_H_digit_chars (pre ++ ["H"%char]) = None →
  is_digit d = true →
  match_H_digit_chars (pre ++ "H"%char :: d :: post) = Some d.
Proof.
  intros Hp Hd. induction pre as [|c [|c' pre'] IH].
  - simpl. by rewrite Hd.
  - simpl in *. destruct (bool_decide (c = "H"%char)); simpl in *; by rewrite ?Hd.
  - rewrite <-!app_comm_cons, match_H_digit_chars_cons in *.
    destruct (_ && _); [done|]. by apply IH.
Qed.

Lemma match_H_digit_chars_Some cs d :
  match_H_digit_chars cs = Some d
  ↔ ∃ pre post, cs = pre ++ "H"%char :: d :: post ∧ is_digit d = true
      ∧ match_H_digit_chars (pre ++ ["H"%char]) = None.
Proof.
  split; [|intros (pre & post & -> & ? & ?); by apply match_H_digit_chars_app].
  induction cs as [|c [|d' cs] IH]; [done..|].
  rewrite match_H_digit_chars_cons.
  destruct (bool_decide (c = "H"%char) && is_digit d') eqn:Hc.
  - apply andb_prop in Hc as [->%bool_decide_eq_true Hd]. intros [= ->].
    by exists [], cs.
  - intros (pre & post & Hcs & Hd & Hp)%IH. exists (c :: pre), post.
    rewrite Hcs. split_and!; [done..|].
    destruct pre as [|c' pre']; simplify_eq/=; by rewrite Hc.
Qed.

(** The character of a decimal digit. *)
Definition digit_char (n : nat) : ascii := ascii_of_nat (48 + n).

Lemma digit_value_digit_char n : n ≤ 9 → digit_value (digit_char n) = Some (Z.of_nat n).
Proof. intros Hn. repeat (destruct n as [|n]; [done|]). lia. Qed.

Lemma is_digit_digit_char n : n ≤ 9 → is_digit (digit_char n) = true.
Proof. intros Hn. apply is_digit_value. eauto using digit_value_digit_char. Qed.

Lemma truthy_trim s :
  truthy (trim s) = true ↔ Exists (λ c, is_white_space c = false) (chars s).
Proof.
  rewrite truthy_true, trim_empty_iff. split.
  - intros Hn%not_Forall_Exists; [|intros c; apply _].
    eapply Exists_impl; [done|]. intros c. simpl. by destruct (is_white_space c).
  - intros (c & Hc & Hw)%Exists_exists Hf.
    rewrite Forall_forall in Hf. by rewrite (Hf c Hc) in Hw.
Qed.

Lemma trim_empty : trim "" = "".
Proof. done. Qed.

(** ** [parseInt] on a numeral *)

(** The string of the decimal digits [ds], most significant first. *)
Definition numeral (ds : list nat) : list ascii := digit_char <$> ds.

Arguments digit_char : simpl never.
Arguments digit_value : simpl never.
Arguments is_white_space : simpl never.

Lemma digits_prefix_cons c cs :
  digits_prefix (c :: cs)
  = match digit_value c with Some d => d :: digits_prefix cs | None => [] end.
Proof. done. Qed.

Lemma is_white_space_not_digit c : is_digit c = true → is_white_space c = false.
Proof. by destruct c as [[] [] [] [] [] [] [] []]. Qed.

Lemma is_digit_not_sign c :
  is_digit c = true → c ≠ "-"%char ∧ c ≠ "+"%char.
Proof. by split; intros ->. Qed.

Lemma drop_while_white_space ws cs :
  Forall (λ c, is_white_space c = true) ws →
  (∀ c, head cs = Some c → is_white_space c = false) →
  drop_while is_white_space (ws ++ cs) = cs.
Proof.
  intros Hws Hcs. induction Hws as [|c ws Hc _ IH]; simpl.
  - by apply drop_while_id.
  - by rewrite Hc.
Qed.

Lemma digits_prefix_numeral ds post :
  Forall (λ d, d ≤ 9) ds →
  (∀ c, head post = Some c → is_digit c = false) →
  digits_prefix (numeral ds ++ post) = Z.of_nat <$> ds.
Proof.
  intros Hds Hpost. induction Hds as [|d ds Hd _ IH].
  - destruct post as [|c post]; [done|]. simpl app. rewrite digits_prefix_cons.
    specialize (Hpost c eq_refl). unfold is_digit in Hpost.
    apply bool_decide_eq_false in Hpost.
    destruct (digit_value c) eqn:E; [|done]. by destruct Hpost.
  - unfold numeral. rewrite fmap_cons, <-app_comm_cons, digits_prefix_cons.
    by rewrite (digit_value_digit_char d Hd), fmap_cons, <-IH.
Qed.

Lemma digits_value_snoc ds d :
  digits_value (ds ++ [d]) = (10 * digits_value ds + d)%Z.
Proof. unfold digits_value. by rewrite fold_left_app. Qed.

(** [parseInt] skips the white space before a numeral, reads its digits
    by Horner's rule, stops at the first character that is no digit and
    rounds to a double. *)
Lemma parseInt_numeral ws ds post :
  Forall (λ c, is_white_space c = true) ws →
  ds ≠ [] → Forall (λ d, d ≤ 9) ds →
  (∀ c, head post = Some c → is_digit c = false) →
  parseInt (of_chars (ws ++ numeral ds ++ post))
  = to_number 1 (digits_value (Z.of_nat <$> ds)).
Proof.
  intros Hws Hne Hds Hpost. unfold parseInt. rewrite chars_of_chars.
  destruct ds as [|d ds]; [done|]. apply Forall_cons in Hds as Hd.
  destruct Hd as [Hd Hds']. pose proof (is_digit_digit_char d Hd) as Hdig.
  rewrite drop_while_white_space;
    [|done|by intros c [= <-]; apply is_white_space_not_digit].
  destruct (is_digit_not_sign _ Hdig) as [Hm Hp].
  unfold numeral. rewrite fmap_cons, <-app_comm_cons. fold (numeral ds).
  replace (match digit_char d with "-"%char => _ | _ => _ end)
    with (1%Z, digit_char d :: numeral ds ++ post).
  - change (digit_char d :: numeral ds ++ post) with (numeral (d :: ds) ++ post).
    rewrite (digits_prefix_numeral (d :: ds) post Hds Hpost), fmap_cons.
    by rewrite decide_False by (by intros [_ ?]).
  - revert Hm Hp. by destruct (digit_char d) as [[] [] [] [] [] [] [] []].
Qed.

(** A string whose first character after the white space is neither a
    digit nor a sign, or that has none, is no number. *)
Lemma parseInt_NaN s :
  (∀ c, head (chars (trimStart s)) = Some c →
    is_digit c = false ∧ c ≠ "-"%char ∧ c ≠ "+"%char) →
  parseInt s = NaN.
Proof.
  rewrite chars_trimStart. unfold parseInt. intros Hc.
  destruct (drop_while is_white_space (chars s)) as [|c cs]; [done|].
  destruct (Hc c eq_refl) as (Hd & Hm & Hp).
  replace (match c with "-"%char => _ | _ => _ end) with (1%Z, c :: cs).
  - rewrite digits_prefix_cons. apply not_true_iff_false in Hd.
    rewrite is_digit_value in Hd. destruct (digit_value c); [|done].
    destruct Hd. eauto.
  - revert Hm Hp. by destruct c as [[] [] [] [] [] [] [] []].
Qed.

(** A numeral below 2^53 is read exactly. *)
Lemma parseInt_numeral_safe ws ds post :
  Forall (λ c, is_white_space c = true) ws →
  ds ≠ [] → Forall (λ d, d ≤ 9) ds →
  (∀ c, head post = Some c → is_digit c = false) →
  (digits_value (Z.of_nat <$> ds) < 2 ^ 53)%Z →
  parseInt (of_chars (ws ++ numeral ds ++ post))
  = Num (digits_value (Z.of_nat <$> ds)).
Proof.
  intros Hws Hne Hds Hpost Hsafe.
  rewrite parseInt_numeral, to_number_safe by done. f_equal. lia.
Qed.

(** ** [String.prototype.split] with a separator of one character *)

(** The segments between the occurrences of [c]; a string without [c],
    the empty string included, is one segment. *)
Fixpoint split_chars (c : ascii) (cs : list ascii) : list (list ascii) :=
  match cs with
  | [] => [[]]
  | a :: cs' =>
      if decide (a = c) then [] :: split_chars c cs'
      else match split_chars c cs' with
           | seg :: segs => (a :: seg) :: segs
           | [] => [[a]]
           end
  end.

Definition split (c : ascii) (s : string) : list string :=
  of_chars <$> split_chars c (chars s).

Lemma split_chars_app c pre cs :
  c ∉ pre → split_chars c (pre ++ c :: cs) = pre :: split_chars c cs.
Proof.
  induction pre as [|a pre IH]; intros Hpre; simpl.
  - by rewrite decide_True.
  - apply not_elem_of_cons in Hpre as [? ?]. rewrite decide_False by done.
    by rewrite IH.
Qed.

Lemma split_chars_id c pre : c ∉ pre → split_chars c pre = [pre].
Proof.
  induction pre as [|a pre IH]; [done|]. intros [? ?]%not_elem_of_cons. simpl.
  rewrite decide_False by done. by rewrite IH.
Qed.

(** Splitting what [join] wrote gives the array back, when the array is
    not empty and no element holds the separator. *)
Lemma split_join c l :
  l ≠ [] → Forall (λ x, c ∉ chars x) l → split c (join (String c "") l) = l.
Proof.
  intros Hne Hl. unfold split. induction Hl as [|x l Hx Hl IH]; [done|].
  destruct l as [|y l].
  - rewrite join_singleton, split_chars_id by done. simpl. by rewrite of_chars_chars.
  - rewrite join_cons, !chars_app, chars_String, chars_empty by done. cbn [app].
    rewrite split_chars_app, fmap_cons, IH, of_chars_chars by done. done.
Qed.

(** No segment of a split holds the separator, and joining the segments
    gives the string back. *)
Lemma split_chars_not_elem c cs : Forall (λ seg, c ∉ seg) (split_chars c cs).
Proof.
  induction cs as [|a cs IH]; simpl.
  - apply Forall_singleton, not_elem_of_nil.
  - case_decide; [by constructor; [apply not_elem_of_nil|]|].
    destruct IH as [|seg segs Hseg Hsegs].
    + apply Forall_singleton. intros ?%list_elem_of_singleton. congruence.
    + constructor; [|done]. apply not_elem_of_cons. split; [congruence|done].
Qed.

Lemma split_chars_concat c cs :
  ∃ seg segs, split_chars c cs = seg :: segs ∧ seg ++ (segs ≫= λ y, c :: y) = cs.
Proof.
  induction cs as [|a cs (seg & segs & Hs & Hcs)]; [by exists [], []|].
  simpl. rewrite Hs. case_decide as Ha.
  - exists [], (seg :: segs). split; [done|]. by rewrite Ha, <-Hcs.
  - exists (a :: seg), segs. split; [done|]. by rewrite <-Hcs.
Qed.

Lemma join_split c s : join (String c "") (split c s) = s.
Proof.
  apply (inj chars). unfold split.
  destruct (split_chars_concat c (chars s)) as (seg & segs & -> & Hcs).
  rewrite fmap_cons, chars_join_cons, chars_of_chars, <-Hcs.
  f_equal. clear Hcs. induction segs as [|y segs IH]; [done|].
  rewrite fmap_cons, !bind_cons, IH, chars_of_chars. done.
Qed.

(** [split] inverts [join] on exactly the arrays that are not empty and
    hold the separator in no element. *)
Lemma split_join_iff c l :
  split c (join (String c "") l) = l ↔ l ≠ [] ∧ Forall (λ x, c ∉ chars x) l.
Proof.
  split; [|by intros [??]; apply split_join]. intros <-. unfold split. split.
  - by destruct (split_chars_concat c (chars (join (String c "") l)))
      as (? & ? & -> & _).
  - apply Forall_fmap. eapply Forall_impl; [apply split_chars_not_elem|].
    intros seg ?. simpl. by rewrite chars_of_chars.
Qed.
