(* ===== verification/ArrayUtils.v ===== *)
(** * ArrayUtils: the array utility

    [isEmpty] of [src/src/array-utils.ts].  Its argument is optional: an
    array or [undefined], here [option (list A)]. *)

From S2P Require Import Prelude.

(** [arr && arr.length > 0]: an array is truthy whatever it holds, so the
    conjunction fails on [undefined] and on the array of length 0. *)
Definition isEmpty {A} (arr : option (list A)) : bool :=
  if match arr with
     | Some a => bool_decide (0 < length a)
     | None => false
     end
  then false
  else true.

Lemma isEmpty_undefined {A} : isEmpty (@None (list A)) = true.
Proof. done. Qed.

Lemma isEmpty_length {A} (a : list A) :
  isEmpty (Some a) = bool_decide (length a = 0).
Proof. by destruct a. Qed.

(** C36.  [isEmpty] answers [true] on [undefined] and on the array without
    elements, and on nothing else. *)
Theorem isEmpty_true_iff {A} (arr : option (list A)) :
  isEmpty arr = true ↔ arr = None ∨ arr = Some [].
Proof.
  destruct arr as [[|x a]|]; simpl; split; auto; try done;
    by intros [?|?].
Qed.

(** [isEmpty] answers [false] exactly on the arrays that have a first
    element; an array that was pushed to is never empty. *)
Lemma isEmpty_false_iff {A} (arr : option (list A)) :
  isEmpty arr = false ↔ ∃ x a, arr = Some (x :: a).
Proof.
  destruct arr as [[|x a]|]; simpl; split; try done; eauto;
    by intros (? & ? & ?).
Qed.

Lemma isEmpty_push {A} (a : list A) x : isEmpty (Some (push a x)) = false.
Proof. unfold push. by destruct a. Qed.
