(* ===== verification/CustomRules.v ===== *)
(** * CustomRules: the two custom rule configurations

    [src/src/custom-rule-configurations/heading-rule.ts] and
    [src/src/custom-rule-configurations/frame-title.ts].  Each declares a
    rule of the scanner with one check, and the check's [evaluate] function.
    An [evaluate] function reads a DOM element and stores its findings in
    the check context it is called on ([this.data(...)]): here it takes the
    context and returns its answer with the context after the call.

    Of an element the checks read [innerText], [tagName], [title] and
    [getAttribute]; [HTMLElement] holds these.  [parseInt], [trim],
    [toLowerCase] and the regular expression are those of [JsString]. *)

From S2P Require Import Prelude JsString.
From Stdlib Require Import Ascii.

(** ** The element and the check context *)

Record HTMLElement : Type := {
  innerText : string;
  tagName : string;
  title : string;
  attributes : gmap string string;
}.

(** [node.getAttribute(name)]: [None] is [null]. *)
Definition getAttribute (node : HTMLElement) (name : string) : option string :=
  attributes node !! name.

(** The data of the heading check; a [headingLevel] that was never
    assigned is [undefined], here [None]. *)
Record AxeCheckResultExtraData : Type := {
  headingLevel : option JsNumber;
  headingText : string;
}.

Record AxeCheckResultFrameExtraData : Type := {
  frameType : string;
  frameTitle : string;
}.

Inductive CheckData : Type :=
| HeadingData (d : AxeCheckResultExtraData)
| FrameData (d : AxeCheckResultFrameExtraData).

(** The context of a check: what [this.data] stored last. *)
Record CheckContext : Type := {
  check_data : option CheckData;
}.

(** [this.data(d)] *)
Definition data (this : CheckContext) (d : CheckData) : CheckContext :=
  {| check_data := Some d |}.

#[export] Instance AxeCheckResultExtraData_eq_dec : EqDecision AxeCheckResultExtraData.
Proof. solve_decision. Defined.
#[export] Instance AxeCheckResultFrameExtraData_eq_dec :
  EqDecision AxeCheckResultFrameExtraData.
Proof. solve_decision. Defined.
#[export] Instance CheckData_eq_dec : EqDecision CheckData.
Proof. solve_decision. Defined.
#[export] Instance CheckContext_eq_dec : EqDecision CheckContext.
Proof. solve_decision. Defined.

(** ** Configurations *)

Section configurations.
(** The type of the [options] argument of [evaluate]; neither check reads
    it. *)
Context {Options : Type}.

Record CheckConfiguration : Type := {
  cc_id : string;
  evaluate : CheckContext → HTMLElement → Options → bool * CheckContext;
}.

Record RuleConfiguration : Type := {
  rc_id : string;
  selector : string;
  any : list string;
  enabled : bool;
}.

Record RulesConfiguration : Type := {
  checks : list CheckConfiguration;
  rule : RuleConfiguration;
}.


(** *** The heading rule *)

Definition headingCheckId : string := "collect-headings".

(** The level is that of [aria-level] when the element has the attribute,
    else that of a tag name with [H] and a digit, else it stays
    [undefined]. *)
Definition evaluateCodedHeadings (this : CheckContext) (node : HTMLElement)
    (options : Options) : bool * CheckContext :=
  let headingText := innerText node in
  let ariaHeadingLevel := getAttribute node "aria-level" in
  let headingLevel :=
    match ariaHeadingLevel with
    | Some ariaHeadingLevel => Some (parseInt ariaHeadingLevel)
    | None =>
        let codedHeadingLevel := match_H_digit (tagName node) in
        match codedHeadingLevel with
        | Some group1 => Some (parseInt group1)
        | None => None
        end
    end in
  let headingResultData :=
    {| headingLevel := headingLevel; headingText := headingText |} in
  let this := data this (HeadingData headingResultData) in
  (true, this).

Definition headingConfiguration : RulesConfiguration :=
  {| checks := [ {| cc_id := headingCheckId; evaluate := evaluateCodedHeadings |} ];
     rule := {| rc_id := "collect-headings";
                selector := "h1,h2,h3,h4,h5,h6,[role=heading]";
                any := [headingCheckId];
                enabled := false |} |}.

(** *** The frame title rule *)

Definition frameTitleId : string := "get-frame-title".

Definition evaluateTitle (this : CheckContext) (node : HTMLElement)
    (options : Options) : bool * CheckContext :=
  let frameTitle := if truthy (title node) then trim (title node) else "" in
  let frameResultData :=
    {| frameType := toLowerCase (tagName node); frameTitle := frameTitle |} in
  let this := data this (FrameData frameResultData) in
  (truthy frameTitle, this).

Definition frameTitleConfiguration : RulesConfiguration :=
  {| checks := [ {| cc_id := frameTitleId; evaluate := evaluateTitle |} ];
     rule := {| rc_id := frameTitleId;
                selector := "frame, iframe";
                any := [frameTitleId];
                enabled := false |} |}.

(** ** What the checks store *)

Definition heading_data (this : CheckContext) : option AxeCheckResultExtraData :=
  match check_data this with
  | Some (HeadingData d) => Some d
  | _ => None
  end.

Definition frame_data (this : CheckContext) : option AxeCheckResultFrameExtraData :=
  match check_data this with
  | Some (FrameData d) => Some d
  | _ => None
  end.

(** The tag name of the heading element of level [n]. *)
Definition heading_tag (n : nat) : string := String "H"%char (String (digit_char n) "").

Implicit Types (this : CheckContext) (node : HTMLElement) (options : Options).

(** ** Lemmas *)

(** What a check stores does not depend on what the context held. *)
Lemma evaluateCodedHeadings_overwrites this this' node options :
  evaluateCodedHeadings this node options = evaluateCodedHeadings this' node options.
Proof. done. Qed.

Lemma evaluateTitle_overwrites this this' node options :
  evaluateTitle this node options = evaluateTitle this' node options.
Proof. done. Qed.

Lemma heading_level_eq this node options :
  headingLevel <$> heading_data (evaluateCodedHeadings this node options).2
  = Some (match getAttribute node "aria-level" with
          | Some a => Some (parseInt a)
          | None => parseInt <$> match_H_digit (tagName node)
          end).
Proof.
  unfold evaluateCodedHeadings, heading_data.
  by destruct (getAttribute node "aria-level"), (match_H_digit (tagName node)).
Qed.

Lemma match_H_digit_heading_tag n :
  n ≤ 9 → match_H_digit (heading_tag n) = Some (String (digit_char n) "").
Proof. intros Hn. by apply match_H_digit_heading, is_digit_digit_char. Qed.

Lemma frame_title_eq node :
  (if truthy (title node) then trim (title node) else "") = trim (title node).
Proof. destruct (truthy _) eqn:Ht; [done|]. by apply truthy_false in Ht as ->. Qed.

(** ** The heading check *)

(** The heading check accepts every element it is run on, and stores
    the element's text as the heading text. *)
Lemma evaluateCodedHeadings_true this node options :
  (evaluateCodedHeadings this node options).1 = true
  ∧ headingText <$> heading_data (evaluateCodedHeadings this node options).2
    = Some (innerText node).
Proof. done. Qed.

(** An [aria-level] attribute decides the heading level, whatever the
    tag name: the level is the attribute read as a decimal integer. *)
Theorem evaluateCodedHeadings_aria_level this node options a :
  getAttribute node "aria-level" = Some a →
  headingLevel <$> heading_data (evaluateCodedHeadings this node options).2
  = Some (Some (parseInt a)).
Proof. intros Ha. by rewrite heading_level_eq, Ha. Qed.

(** C29.  An [aria-level] that holds a decimal numeral, after white space and
    before anything that is no digit, gives the number of the numeral as
    the heading level, beyond 6 as well: the number itself when it is
    below 2^53, and in every case the double nearest to it. *)
Theorem evaluateCodedHeadings_aria_numeral this node options ws ds post :
  getAttribute node "aria-level" = Some (of_chars (ws ++ numeral ds ++ post)) →
  Forall (λ c, is_white_space c = true) ws →
  ds ≠ [] → Forall (λ d, d ≤ 9) ds →
  (∀ c, head post = Some c → is_digit c = false) →
  let level := digits_value (Z.of_nat <$> ds) in
  headingLevel <$> heading_data (evaluateCodedHeadings this node options).2
  = Some (Some (to_number 1 level))
  ∧ ((level < 2 ^ 53)%Z → to_number 1 level = Num level).
Proof.
  intros Ha Hws Hne Hds Hpost level.
  rewrite heading_level_eq, Ha, parseInt_numeral by done. split; [done|].
  intros Hsafe. rewrite to_number_safe by done. f_equal. lia.
Qed.

(** C18.  An [aria-level] that is no number is not validated and the tag name is
    not consulted: when the first character of the attribute after the
    white space is neither a digit nor a sign, or when there is none, the
    heading level is NaN, on an [H2] as on any element. *)
Theorem evaluateCodedHeadings_aria_NaN this node options a :
  getAttribute node "aria-level" = Some a →
  (∀ c, head (chars (trimStart a)) = Some c →
    is_digit c = false ∧ c ≠ "-"%char ∧ c ≠ "+"%char) →
  headingLevel <$> heading_data (evaluateCodedHeadings this node options).2
  = Some (Some NaN).
Proof. intros Ha Hc. by rewrite heading_level_eq, Ha, parseInt_NaN. Qed.

(** C35.  Without [aria-level], the element [H<n>] has heading level [n]. *)
Theorem evaluateCodedHeadings_tag this node options n :
  getAttribute node "aria-level" = None →
  n ≤ 9 →
  tagName node = heading_tag n →
  headingLevel <$> heading_data (evaluateCodedHeadings this node options).2
  = Some (Some (Num (Z.of_nat n))).
Proof.
  intros Ha Hn Ht. rewrite heading_level_eq, Ha, Ht, match_H_digit_heading_tag by done.
  simpl. by rewrite (parseInt_digit _ _ (digit_value_digit_char n Hn)).
Qed.

(** C34.  Without [aria-level], the level is the digit after the leftmost [H]
    of the tag name that a digit follows, wherever in the name it stands. *)
Theorem evaluateCodedHeadings_leftmost this node options pre d post n :
  getAttribute node "aria-level" = None →
  chars (tagName node) = pre ++ "H"%char :: d :: post →
  match_H_digit_chars (pre ++ ["H"%char]) = None →
  digit_value d = Some n →
  headingLevel <$> heading_data (evaluateCodedHeadings this node options).2
  = Some (Some (Num n)).
Proof.
  intros Ha Ht Hpre Hd. rewrite heading_level_eq, Ha. unfold match_H_digit.
  rewrite Ht, match_H_digit_chars_app by (done || apply is_digit_value; eauto).
  simpl. by rewrite (parseInt_digit _ _ Hd).
Qed.

(** C33.  The heading level stays undefined exactly when the element has no
    [aria-level] and no [H] of its tag name is followed by a digit. *)
Theorem evaluateCodedHeadings_undefined this node options :
  headingLevel <$> heading_data (evaluateCodedHeadings this node options).2
  = Some None
  ↔ getAttribute node "aria-level" = None
    ∧ ∀ pre d post, chars (tagName node) = pre ++ "H"%char :: d :: post →
        is_digit d = false.
Proof.
  rewrite heading_level_eq, <-match_H_digit_chars_None. unfold match_H_digit.
  destruct (getAttribute _ _), (match_H_digit_chars _); simpl; split;
    (done || by intros [??]).
Qed.

(** ** The frame title check *)

(** C32.  The frame title check accepts an element exactly when its title
    has a character that is not white space. *)
Theorem evaluateTitle_true_iff this node options :
  (evaluateTitle this node options).1 = true
  ↔ Exists (λ c, is_white_space c = false) (chars (title node)).
Proof. unfold evaluateTitle. simpl. by rewrite frame_title_eq, truthy_trim. Qed.

(** C20.  The frame title check stores the tag name in lower case and the
    title without the white space around it; the stored title neither
    starts nor ends with white space. *)
Theorem evaluateTitle_data this node options :
  ∃ d, frame_data (evaluateTitle this node options).2 = Some d
    ∧ frameType d = toLowerCase (tagName node)
    ∧ frameTitle d = trim (title node)
    ∧ (∀ c, head (chars (frameTitle d)) = Some c → is_white_space c = false)
    ∧ (∀ c, last (chars (frameTitle d)) = Some c → is_white_space c = false).
Proof.
  eexists. split; [done|]. simpl. rewrite frame_title_eq.
  split_and!; [done..|apply trim_head|apply trim_last].
Qed.

End configurations.

(** ** Sample elements *)

Definition no_context : CheckContext := {| check_data := None |}.

Definition element_h2 : HTMLElement :=
  {| innerText := "Prices"; tagName := "H2"; title := ""; attributes := ∅ |}.

(** [<div role="heading" aria-level="3">] *)
Definition element_div_heading : HTMLElement :=
  {| innerText := "Terms"; tagName := "DIV"; title := "";
     attributes := {[ "role" := "heading"; "aria-level" := "3" ]} |}.

(** [<div role="heading">]: no level is declared. *)
Definition element_div_no_level : HTMLElement :=
  {| innerText := "Terms"; tagName := "DIV"; title := "";
     attributes := {[ "role" := "heading" ]} |}.

Definition element_iframe : HTMLElement :=
  {| innerText := ""; tagName := "IFRAME"; title := "  Map of the shop ";
     attributes := ∅ |}.

Definition element_frame_blank : HTMLElement :=
  {| innerText := ""; tagName := "FRAME"; title := "   "; attributes := ∅ |}.

Lemma evaluateCodedHeadings_aria_level_witness :
  headingLevel <$> heading_data (evaluateCodedHeadings no_context element_div_heading ()).2
  = Some (Some (parseInt "3")).
Proof. by apply (evaluateCodedHeadings_aria_level no_context element_div_heading () "3"). Defined.

(** [<h2 aria-level="two">] *)
Definition element_level_two : HTMLElement :=
  {| innerText := "Notes"; tagName := "H2"; title := "";
     attributes := {[ "aria-level" := "two" ]} |}.

Lemma evaluateCodedHeadings_aria_NaN_witness :
  headingLevel <$> heading_data (evaluateCodedHeadings no_context element_level_two ()).2
  = Some (Some NaN).
Proof.
  apply (evaluateCodedHeadings_aria_NaN no_context element_level_two () "two");
    [done|]. intros c [= <-]. by split_and!.
Defined.

Lemma evaluateCodedHeadings_tag_witness :
  headingLevel <$> heading_data (evaluateCodedHeadings no_context element_h2 ()).2
  = Some (Some (Num 2)).
Proof. apply (evaluateCodedHeadings_tag no_context element_h2 () 2); [done|lia|done]. Defined.

(** [<h2 aria-level=" 12px">]: the attribute wins over the tag name. *)
Definition element_level_12 : HTMLElement :=
  {| innerText := "Notes"; tagName := "H2"; title := "";
     attributes := {[ "aria-level" := " 12px" ]} |}.

Lemma evaluateCodedHeadings_aria_numeral_witness :
  headingLevel <$> heading_data (evaluateCodedHeadings no_context element_level_12 ()).2
  = Some (Some (to_number 1 12))
  ∧ ((12 < 2 ^ 53)%Z → to_number 1 12 = Num 12).
Proof.
  apply (evaluateCodedHeadings_aria_numeral no_context element_level_12 ()
    [" "]%char [1; 2] ["p"; "x"]%char);
    [done|by repeat constructor|done|repeat constructor; lia|by intros c [= <-]].
Defined.

(** [<x-h1 role="heading">], a custom element. *)
Definition element_custom : HTMLElement :=
  {| innerText := "News"; tagName := "X-H1"; title := "";
     attributes := {[ "role" := "heading" ]} |}.

Lemma evaluateCodedHeadings_leftmost_witness :
  headingLevel <$> heading_data (evaluateCodedHeadings no_context element_custom ()).2
  = Some (Some (Num 1)).
Proof.
  by apply (evaluateCodedHeadings_leftmost no_context element_custom ()
    ["X"; "-"]%char "1"%char [] 1%Z).
Defined.

(** The checks on the sample elements. *)
Example custom_checks_examples :
  evaluateCodedHeadings no_context element_div_heading ()
  = (true, {| check_data := Some (HeadingData
       {| headingLevel := Some (Num 3); headingText := "Terms" |}) |})
  ∧ evaluateCodedHeadings no_context element_div_no_level ()
  = (true, {| check_data := Some (HeadingData
       {| headingLevel := None; headingText := "Terms" |}) |})
  ∧ evaluateTitle no_context element_iframe ()
  = (true, {| check_data := Some (FrameData
       {| frameType := "iframe"; frameTitle := "Map of the shop" |}) |})
  ∧ evaluateTitle no_context element_frame_blank ()
  = (false, {| check_data := Some (FrameData
       {| frameType := "frame"; frameTitle := "" |}) |}).
Proof. by vm_compute. Qed.

(** The expression of the heading check is not anchored, and the attribute
    is not validated: a custom element whose name ends in [H1] is a heading
    of level 1, [H10] is one too, and an [aria-level] that is not a number
    gives NaN on an [H2]. *)
Example heading_level_examples :
  match_H_digit "X-H1" = Some "1"
  ∧ match_H_digit "H10" = Some "1"
  ∧ match_H_digit "TH" = None
  ∧ headingLevel <$> heading_data (evaluateCodedHeadings no_context
      {| innerText := ""; tagName := "H2"; title := "";
         attributes := {[ "aria-level" := "two" ]} |} ()).2
    = Some (Some NaN)
  ∧ parseInt " -12px" = Num (-12) ∧ parseInt "-0" = NegZero ∧ parseInt "+ 1" = NaN.
Proof. by vm_compute. Qed.

(** Levels beyond 2^53 are rounded to a double, a tie to the even one,
    and a numeral of 310 digits is read as [Infinity]. *)
Example heading_level_rounded :
  parseInt "9007199254740993" = Num 9007199254740992
  ∧ parseInt "9007199254740995" = Num 9007199254740996
  ∧ parseInt "-9007199254740993" = Num (-9007199254740992)
  ∧ parseInt (of_chars (numeral (1 :: replicate 308 0)))
    = Num (round_double (10 ^ 308))
  ∧ parseInt (of_chars (numeral (1 :: replicate 309 0))) = Infinity false
  ∧ parseInt (of_chars ("-"%char :: numeral (2 :: replicate 308 0))) = Infinity true.
Proof. by vm_compute. Qed.
