(* ===== verification/AxeResults.v ===== *)
(** * AxeResults: the scan results the converter reads

    The input document as the converter uses it: the four buckets of rule
    results ([DecoratedAxeResults]), a rule result with its tags and nodes
    ([DecoratedAxeResult]), an evaluated node with its three lists of checks
    ([NodeResult]) and a check ([CheckResult]); the severity level the
    converter attaches to a bucket ([level]); the options of a conversion
    ([ConverterOptions]).  The types are declared by axe-core and by files
    of the repository that are not part of the sources at hand: they are
    modelled from the data model of the specification and from the fields
    the converter reads. *)

From S2P Require Import Prelude.

(** One atomic test on an element: its id and, when axe supplies one, the
    message for a human reader. *)
Record CheckResult : Type := {
  check_id : string;
  check_message : option string;
}.

(** One evaluated element: the selector path [target], the serialised
    [html], and the checks by combination policy. *)
Record NodeResult : Type := {
  node_html : string;
  node_target : list string;
  node_any : list CheckResult;
  node_all : list CheckResult;
  node_none : list CheckResult;
}.

(** The result of one rule: its id, its guideline tags, its nodes. *)
Record DecoratedAxeResult : Type := {
  rule_id : string;
  rule_tags : list string;
  rule_nodes : list NodeResult;
}.

(** The scan document: a bucket is [None] when the property is undefined
    or null (an empty array is [Some []]). *)
Record DecoratedAxeResults : Type := {
  violations : option (list DecoratedAxeResult);
  passes : option (list DecoratedAxeResult);
  incomplete : option (list DecoratedAxeResult);
  inapplicable : option (list DecoratedAxeResult);
}.

(** [CustomSarif.Result.level]: the level a bucket is converted at. *)
Inductive level : Type :=
| level_error
| level_pass
| level_open
| level_notApplicable.

(** The options of [convert]; every one may be left out. *)
Record ConverterOptions : Type := {
  testCaseId : option string;
  scanName : option string;
  scanId : option string;
}.

#[export] Instance CheckResult_eq_dec : EqDecision CheckResult.
Proof. solve_decision. Defined.
#[export] Instance NodeResult_eq_dec : EqDecision NodeResult.
Proof. solve_decision. Defined.
#[export] Instance DecoratedAxeResult_eq_dec : EqDecision DecoratedAxeResult.
Proof. solve_decision. Defined.
#[export] Instance DecoratedAxeResults_eq_dec : EqDecision DecoratedAxeResults.
Proof. solve_decision. Defined.
#[export] Instance level_eq_dec : EqDecision level.
Proof. solve_decision. Defined.
#[export] Instance ConverterOptions_eq_dec : EqDecision ConverterOptions.
Proof. solve_decision. Defined.

(** ** Derived views of the document *)

(** A bucket read as an array: an undefined bucket holds nothing. *)
Definition bucket (b : option (list DecoratedAxeResult)) : list DecoratedAxeResult :=
  default [] b.

(** The checks of a node, [all] then [none] then [any]. *)
Definition node_checks (n : NodeResult) : list CheckResult :=
  (node_all n ++ node_none n) ++ node_any n.

(** The rule results of the three buckets that carry nodes, in the order
    the converter visits them. *)
Definition node_bearing (results : DecoratedAxeResults) : list DecoratedAxeResult :=
  bucket (violations results) ++ bucket (passes results) ++ bucket (incomplete results).

(** Every rule result of the document, in the order violations, passes,
    incomplete, inapplicable. *)
Definition all_rule_results (results : DecoratedAxeResults) : list DecoratedAxeResult :=
  node_bearing results ++ bucket (inapplicable results).

Lemma bucket_Some l : bucket (Some l) = l.
Proof. done. Qed.

Lemma bucket_None : bucket None = [].
Proof. done. Qed.

Lemma node_bearing_subset results r :
  r ∈ node_bearing results → r ∈ all_rule_results results.
Proof. unfold all_rule_results. rewrite elem_of_app. auto. Qed.
