(* ===== verification/Index.v ===== *)
(** * Index: the entry point of the package

    [axeToSarif] of [src/src/index.ts]: it builds the result decorator from
    its parts, sets the decorator's WCAG configuration, decorates the
    scanner's results and hands them to the converter with an empty options
    object.  The parts (message decorator, check message transformer, help
    URL getter, document utilities, result decorator, the converter of the
    first SARIF version and the two tables) are imported by [index.ts] and
    are not among the sources: they are the fields of [Pipeline.t], and
    [axeToSarif] is what the code composes of them.  The two calls that
    work on the document may throw.  Nothing is proved of [axeToSarif]:
    what it returns is decided by the parts, and of those the sources give
    only the order in which they are called. *)

From S2P Require Import Prelude AxeResults.

Module Pipeline.

Class t : Type := {
  AxeResults : Type;
  ChiselResults : Type;
  ISarifLog : Type;
  Configuration : Type;
  WCAGConfiguration : Type;
  WCAGLinkTable : Type;
  CheckMessageTransformer : Type;
  MessageDecorator : Type;
  HelpUrlGetter : Type;
  DocumentUtils : Type;
  ResultDecorator : Type;
  SarifConverter : Type;
  configuration : Configuration;
  rulesWCAGConfiguration : WCAGConfiguration;
  wcagLinkData : WCAGLinkTable;
  new_CheckMessageTransformer : unit → CheckMessageTransformer;
  new_MessageDecorator : Configuration → CheckMessageTransformer → MessageDecorator;
  new_HelpUrlGetter : Configuration → HelpUrlGetter;
  getHelpUrl : HelpUrlGetter → string → option string;
  new_DocumentUtils : unit → DocumentUtils;
  new_ResultDecorator :
    DocumentUtils → MessageDecorator → (string → option string) → ResultDecorator;
  setWCAGConfiguration : ResultDecorator → WCAGConfiguration → ResultDecorator;
  decorateResults : ResultDecorator → AxeResults → Completion ChiselResults;
  new_SarifConverter : WCAGLinkTable → SarifConverter;
  SarifConverter_convert :
    SarifConverter → ChiselResults → ConverterOptions → Completion ISarifLog;
}.

End Pipeline.

Section index.
Context `{Pipeline.t}.
Import Pipeline.

(** The options object [{}] of the call. *)
Definition empty_options : ConverterOptions :=
  {| testCaseId := None; scanName := None; scanId := None |}.

(** The decorator as [axeToSarif] sets it up, its WCAG configuration set. *)
Definition configured_decorator : ResultDecorator :=
  let messageDecorator :=
    new_MessageDecorator configuration (new_CheckMessageTransformer ()) in
  let chiselHelpUrlGetter := new_HelpUrlGetter configuration in
  let resultDecorator :=
    new_ResultDecorator (new_DocumentUtils ()) messageDecorator
      (λ ruleId, getHelpUrl chiselHelpUrlGetter ruleId) in
  setWCAGConfiguration resultDecorator rulesWCAGConfiguration.

Definition axeToSarif (axeResults : AxeResults) : Completion ISarifLog :=
  let resultDecorator := configured_decorator in
  let sarifConverter := new_SarifConverter wcagLinkData in
  chiselResults ← decorateResults resultDecorator axeResults;
  SarifConverter_convert sarifConverter chiselResults empty_options.

End index.
