(* ===== verification/SarifLog.v ===== *)
(** * SarifLog: the SARIF 2.1 document the converter builds

    The output types, one record per object literal of
    [src/src/sarif-converter-21.ts]: the log and its run, the tool with its
    driver, a result with its message and locations, and (from the data
    model of the specification) the rule descriptors and the taxonomy.
    The objects the converter only passes through, from a collaborator into
    the log, are values of the abstract types of [ExternalTypes]. *)

From S2P Require Import Prelude.

(** The types of the values produced by the collaborators of the converter
    (environment, artifact, invocation and tool property providers). *)
Class ExternalTypes : Type := {
  EnvironmentData : Type;
  ArtifactLocation : Type;
  Artifact : Type;
  Invocation : Type;
  Conversion : Type;
  DriverProperties : Type;
}.

(** [Sarif.Message] as [convertMessage] returns it. *)
Record Message : Type := {
  text : string;
  markdown : string;
}.

(** [Sarif.LogicalLocation] as [formatLogicalLocation] returns it. *)
Record LogicalLocation : Type := {
  fullyQualifiedName : string;
  kind : string;
}.

(** [region: { snippet: { text } }]. *)
Record Snippet : Type := { snippet_text : string }.
Record Region : Type := { snippet : Snippet }.

(** A rule of the run: its id, its position in the rule list and the
    indices of the taxa it is related to. *)
Record RuleDescriptor : Type := {
  rd_id : string;
  rd_index : nat;
  rd_taxa : list nat;
}.

(** An entry of the taxonomy: title and url of a guideline tag, and the
    position of the entry. *)
Record Taxon : Type := {
  taxon_title : string;
  taxon_url : string;
  taxon_index : nat;
}.

Record TaxonomyDescriptor : Type := { taxa : list Taxon }.

#[export] Instance Message_eq_dec : EqDecision Message.
Proof. solve_decision. Defined.
#[export] Instance LogicalLocation_eq_dec : EqDecision LogicalLocation.
Proof. solve_decision. Defined.
#[export] Instance RuleDescriptor_eq_dec : EqDecision RuleDescriptor.
Proof. solve_decision. Defined.
#[export] Instance Taxon_eq_dec : EqDecision Taxon.
Proof. solve_decision. Defined.

Section sarif.
Context `{ExternalTypes}.

Record PhysicalLocation : Type := {
  artifactLocation : ArtifactLocation;
  region : Region;
}.

Record Location : Type := {
  physicalLocation : PhysicalLocation;
  logicalLocations : list LogicalLocation;
}.

(** [Sarif.Result] as [convertRuleResult] pushes it; [ruleIndex] is [None]
    when the dictionary of rule indices has no entry for the rule id. *)
Record SarifResult : Type := {
  ruleId : string;
  ruleIndex : option nat;
  message : Message;
  locations : list Location;
}.

(** [Sarif.ToolComponent]: the rule list, and every other property of the
    driver as one value. *)
Record ToolComponent : Type := {
  driver_properties : DriverProperties;
  rules : option (list RuleDescriptor);
}.

Record Tool : Type := { driver : ToolComponent }.

(** [Sarif.Run]; [properties] is [None] while the run has no such
    property. *)
Record Run : Type := {
  conversion : Conversion;
  tool : Tool;
  invocations : list Invocation;
  artifacts : list Artifact;
  results : list SarifResult;
  taxonomies : list TaxonomyDescriptor;
  properties : option (gmap string string);
}.

Record Log : Type := {
  version : string;
  runs : list Run;
}.

End sarif.

(** The rule list of a run ([[]] when the driver has none). *)
Definition run_rules `{ExternalTypes} (run : Run) : list RuleDescriptor :=
  default [] (rules (driver (tool run))).
