(* ===== verification/Message.v ===== *)
(** * Message: the message of a result

    [convertMessage], [convertMessageChecks] and [escapeForMarkdown] of
    [src/src/sarif-converter-21.ts]: the plain and the marked-up message of
    an evaluated node, built from its checks.  The two arrays the code
    fills by [push] are passed in and returned.  [message_spec] is the
    specification of the result by groups of checks, and
    [convertMessage_spec] shows that the code implements it. *)

From S2P Require Import Prelude JsString AxeResults SarifLog.
From Stdlib Require Import Ascii.

Implicit Types (heading s : string) (checkResult c : CheckResult)
  (checkResults cs : list CheckResult) (textArray markdownArray : list string)
  (node : NodeResult) (lv : level).

(** The line feed, ['\n']. *)
Definition LF : string := String "010"%char "".

(** [isNotEmpty] of the string utilities: a message is used when it is
    defined and not the empty string. *)
Definition isNotEmpty (str : option string) : bool :=
  match str with
  | Some s => truthy s
  | None => false
  end.

(** [s ? s.replace(/</g, '&lt;') : ''] *)
Definition escapeForMarkdown (s : string) : string :=
  if truthy s then replace_all_char "<" "&lt;" s else "".

(** The text a check contributes:
    [isNotEmpty(checkResult.message) ? checkResult.message : checkResult.id]. *)
Definition check_text (checkResult : CheckResult) : string :=
  if isNotEmpty (check_message checkResult)
  then default "" (check_message checkResult)
  else check_id checkResult.

(** [convertMessageChecks]: a group of checks under a heading adds one
    entry to each array, and an empty group adds nothing. *)
Definition convertMessageChecks (heading : string) (checkResults : list CheckResult)
    (textArray markdownArray : list string) : list string * list string :=
  if bool_decide (0 < length checkResults) then
    let textLines := push [] heading in
    let richTextLines := push [] (escapeForMarkdown heading) in
    let '(textLines, richTextLines) :=
      fold_left (λ '(textLines, richTextLines) checkResult,
          let message := check_text checkResult in
          (push textLines (message +:+ "."),
           push richTextLines ("- " +:+ escapeForMarkdown message)))
        checkResults (textLines, richTextLines) in
    (push textArray (join " " textLines),
     push markdownArray (join LF richTextLines))
  else (textArray, markdownArray).

(** [convertMessage]: a failing node gets the groups "all" (its [all] and
    [none] checks) and "any"; every other node one group of all checks. *)
Definition convertMessage (node : NodeResult) (lv : level) : Message :=
  let textArray := [] in
  let markdownArray := [] in
  let '(textArray, markdownArray) :=
    if decide (lv = level_error) then
      let allAndNone := node_all node ++ node_none node in
      let '(textArray, markdownArray) :=
        convertMessageChecks "Fix all of the following:" allAndNone
          textArray markdownArray in
      convertMessageChecks "Fix any of the following:" (node_any node)
        textArray markdownArray
    else
      let allNodes := (node_all node ++ node_none node) ++ node_any node in
      convertMessageChecks "The following tests passed:" allNodes
        textArray markdownArray in
  {| text := join " " textArray; markdown := join (LF +:+ LF) markdownArray |}.

(** ** Specification by groups *)

(** The groups of a node at a level: heading and checks, in order. *)
Definition message_groups (node : NodeResult) (lv : level)
    : list (string * list CheckResult) :=
  match lv with
  | level_error =>
      [("Fix all of the following:", node_all node ++ node_none node);
       ("Fix any of the following:", node_any node)]
  | _ =>
      [("The following tests passed:", node_checks node)]
  end.

(** The plain text of a group: the heading, then each check's text with a
    full stop, separated by spaces. *)
Definition group_text (g : string * list CheckResult) : string :=
  join " " (g.1 :: ((λ c, check_text c +:+ ".") <$> g.2)).

(** The markdown of a group: the heading, then one bullet per check, one
    per line, every [<] escaped. *)
Definition group_markdown (g : string * list CheckResult) : string :=
  join LF (escapeForMarkdown g.1
           :: ((λ c, "- " +:+ escapeForMarkdown (check_text c)) <$> g.2)).

(** The message by groups: the groups without checks are left out. *)
Definition message_spec (node : NodeResult) (lv : level) : Message :=
  let groups := filter (λ g, g.2 ≠ []) (message_groups node lv) in
  {| text := join " " (group_text <$> groups);
     markdown := join (LF +:+ LF) (group_markdown <$> groups) |}.

(** ** Lemmas *)

Lemma isNotEmpty_true (str : option string) :
  isNotEmpty str = true ↔ ∃ s, str = Some s ∧ s ≠ "".
Proof.
  destruct str as [s|]; simpl; [rewrite truthy_true|]; split;
    [by eauto | by intros (? & [= <-] & ?) | done | by intros (? & ? & ?)].
Qed.

Lemma check_text_message c m :
  check_message c = Some m → m ≠ "" → check_text c = m.
Proof.
  intros Hm Hne. unfold check_text. rewrite Hm. simpl.
  by rewrite (proj2 (truthy_true m) Hne).
Qed.

Lemma check_text_id c :
  check_message c = None ∨ check_message c = Some "" → check_text c = check_id c.
Proof. unfold check_text. by intros [-> | ->]. Qed.

(** The guard of [escapeForMarkdown] only matters for [undefined]: on a
    string the function is the replacement. *)
Lemma escapeForMarkdown_replace s :
  escapeForMarkdown s = replace_all_char "<" "&lt;" s.
Proof. unfold escapeForMarkdown. by destruct s. Qed.

Lemma escapeForMarkdown_app s t :
  escapeForMarkdown (s +:+ t) = escapeForMarkdown s +:+ escapeForMarkdown t.
Proof. rewrite !escapeForMarkdown_replace. apply replace_all_char_app. Qed.

Lemma escapeForMarkdown_no_lt s : "<"%char ∉ chars (escapeForMarkdown s).
Proof.
  rewrite escapeForMarkdown_replace. apply replace_all_char_not_elem.
  compute_done.
Qed.

Lemma escapeForMarkdown_id s : "<"%char ∉ chars s → escapeForMarkdown s = s.
Proof. rewrite escapeForMarkdown_replace. apply replace_all_char_id. Qed.

Lemma escapeForMarkdown_elem a s :
  a ≠ "<"%char → a ∈ chars s → a ∈ chars (escapeForMarkdown s).
Proof.
  intros. rewrite escapeForMarkdown_replace, replace_all_char_elem. by left.
Qed.

(** The closed form of the loop of [convertMessageChecks]. *)
Lemma convertMessageChecks_cons heading c cs textArray markdownArray :
  convertMessageChecks heading (c :: cs) textArray markdownArray
  = (textArray ++ [group_text (heading, c :: cs)],
     markdownArray ++ [group_markdown (heading, c :: cs)]).
Proof.
  unfold convertMessageChecks, group_text, group_markdown.
  rewrite bool_decide_eq_true_2 by (simpl; lia).
  by rewrite (fold_left_push2 (λ c, check_text c +:+ ".")
    (λ c, "- " +:+ escapeForMarkdown (check_text c))).
Qed.

Lemma convertMessageChecks_nil heading textArray markdownArray :
  convertMessageChecks heading [] textArray markdownArray
  = (textArray, markdownArray).
Proof. done. Qed.

(** A group is never the empty string: its heading comes first. *)
Lemma group_text_nonempty heading cs : heading ≠ "" → group_text (heading, cs) ≠ "".
Proof.
  intros Hh E. apply (f_equal chars) in E. unfold group_text in E.
  rewrite chars_join_cons in E. apply app_eq_nil in E as [E _].
  by apply chars_nil_inv in E.
Qed.

Lemma group_markdown_no_lt g : "<"%char ∉ chars (group_markdown g).
Proof.
  apply not_elem_of_join; [compute_done|].
  apply Forall_cons. split; [apply escapeForMarkdown_no_lt|].
  apply Forall_fmap, Forall_forall. intros c _. simpl.
  rewrite chars_app, elem_of_app. intros [Hd|He]; [revert Hd; compute_done|].
  by apply escapeForMarkdown_no_lt in He.
Qed.

Lemma filter_group_nil heading :
  filter (λ g : string * list CheckResult, g.2 ≠ []) [(heading, [])] = [].
Proof. done. Qed.

Lemma filter_group_cons heading c cs :
  filter (λ g : string * list CheckResult, g.2 ≠ []) [(heading, c :: cs)]
  = [(heading, c :: cs)].
Proof. done. Qed.

Lemma message_groups_headings node lv g :
  g ∈ message_groups node lv → g.1 ≠ "".
Proof.
  destruct lv; simpl; rewrite ?elem_of_cons, elem_of_nil;
    intros Hg; destruct_or?; by simplify_eq.
Qed.

Lemma message_groups_checks node lv :
  message_groups node lv ≫= snd = node_checks node.
Proof.
  unfold node_checks. destruct lv; simpl; by rewrite ?app_nil_r, ?app_assoc.
Qed.

(** No group is kept exactly when the node has no check. *)
Lemma message_groups_filter_nil node lv :
  filter (λ g, g.2 ≠ []) (message_groups node lv) = [] ↔ node_checks node = [].
Proof.
  rewrite <-(message_groups_checks node lv), bind_nil_all.
  induction (message_groups node lv) as [|g gs IH]; [done|].
  rewrite filter_cons, Forall_cons, <-IH.
  destruct (decide (g.2 ≠ [])) as [Hg|Hg%dec_stable]; [|by split; [|intros []]].
  by split; [|intros []].
Qed.

(** ** Theorems *)

(** What a group adds to the two arrays. *)
Lemma convertMessageChecks_eq heading cs textArray markdownArray :
  convertMessageChecks heading cs textArray markdownArray
  = (textArray ++ (group_text <$> filter (λ g, g.2 ≠ []) [(heading, cs)]),
     markdownArray ++ (group_markdown <$> filter (λ g, g.2 ≠ []) [(heading, cs)])).
Proof.
  destruct cs as [|c cs].
  - by rewrite convertMessageChecks_nil, filter_group_nil, !app_nil_r.
  - by rewrite convertMessageChecks_cons, filter_group_cons.
Qed.

(** C9.  The loop of [convertMessageChecks] adds to each array exactly the
    text, respectively the markdown, of the group of its checks, and adds
    nothing for an empty group. *)
Theorem convertMessageChecks_spec heading cs textArray markdownArray :
  convertMessageChecks heading cs textArray markdownArray
  = (textArray ++ (group_text <$> filter (λ g, g.2 ≠ []) [(heading, cs)]),
     markdownArray ++ (group_markdown <$> filter (λ g, g.2 ≠ []) [(heading, cs)])).
Proof. apply convertMessageChecks_eq. Qed.

(** The message by its groups. *)
Lemma convertMessage_eq node lv :
  convertMessage node lv = message_spec node lv.
Proof.
  unfold convertMessage, message_spec, message_groups.
  destruct lv; simpl; rewrite !convertMessageChecks_eq; try done.
  by rewrite !app_nil_l, filter_two, !fmap_app.
Qed.

(** C2.  [convertMessage] implements the specification by groups: for a
    failing node the group "Fix all" of its [all] and [none] checks, then
    the group "Fix any" of its [any] checks; for any other level one group
    "The following tests passed" of all checks; groups without checks
    left out; the texts joined by a space and the markdown by an empty
    line. *)
Theorem convertMessage_spec node lv :
  convertMessage node lv = message_spec node lv.
Proof. apply convertMessage_eq. Qed.

(** C6.  The markdown of a message holds no [<], whatever the texts and
    ids of the checks hold. *)
Theorem convertMessage_markdown_no_lt node lv :
  "<"%char ∉ chars (markdown (convertMessage node lv)).
Proof.
  rewrite convertMessage_eq. apply not_elem_of_join; [compute_done|].
  apply Forall_fmap, Forall_forall. intros g _. apply group_markdown_no_lt.
Qed.

(** C24.  The plain text of a message is the empty string exactly when the
    node has no check at all: the conversion of a node without checks does
    not fail, and a node with a check never gets an empty message. *)
Theorem convertMessage_text_empty_iff node lv :
  text (convertMessage node lv) = "" ↔ node_checks node = [].
Proof.
  rewrite convertMessage_eq, <-(message_groups_filter_nil node lv). simpl.
  rewrite join_empty_inv by done. split; [|intros ->; by left].
  intros [?%fmap_nil_inv|Hg]; [done|].
  apply fmap_cons_inv in Hg as ([h cs] & gs & Hg & _ & Hgs).
  assert ((h, cs) ∈ filter (λ g, g.2 ≠ []) (message_groups node lv)) as Hin
    by (rewrite Hgs; left).
  apply list_elem_of_filter in Hin as [_ Hin%message_groups_headings].
  symmetry in Hg.
  by apply group_text_nonempty in Hg.
Qed.

(** C31.  For a failing node with a check to fix of each kind, the text is
    the "Fix all" group followed by the "Fix any" group. *)
Theorem convertMessage_error_text node :
  node_all node ++ node_none node ≠ [] → node_any node ≠ [] →
  text (convertMessage node level_error)
  = group_text ("Fix all of the following:", node_all node ++ node_none node)
    +:+ " "
    +:+ group_text ("Fix any of the following:", node_any node).
Proof.
  intros Hall Hany. rewrite convertMessage_eq. simpl.
  destruct (node_all node ++ node_none node); [done|].
  by destruct (node_any node).
Qed.

(** The failing node of the specification's scenario: [all] holds a check
    without message, [any] a check with the message "Fix me". *)
Definition grouping_node : NodeResult :=
  {| node_html := "<img>"; node_target := ["img"];
     node_any := [{| check_id := "c2"; check_message := Some "Fix me" |}];
     node_all := [{| check_id := "c1"; check_message := None |}];
     node_none := [] |}.

Lemma convertMessage_error_text_witness :
  text (convertMessage grouping_node level_error)
  = "Fix all of the following: c1. Fix any of the following: Fix me.".
Proof.
  rewrite (convertMessage_error_text grouping_node); [reflexivity|done|done].
Defined.

(** C13.  A [>] of a text is still in the text that [escapeForMarkdown]
    returns: only [<] is escaped, so a message that holds a tag keeps its
    closing bracket. *)
Theorem escapeForMarkdown_keeps_gt s :
  ">"%char ∈ chars s → ">"%char ∈ chars (escapeForMarkdown s).
Proof. by apply escapeForMarkdown_elem. Qed.

Lemma escapeForMarkdown_keeps_gt_witness :
  ">"%char ∈ chars (escapeForMarkdown "<span>")
  ∧ escapeForMarkdown "<span>" = "&lt;span>".
Proof.
  split; [|reflexivity].
  apply (escapeForMarkdown_keeps_gt "<span>"). compute_done.
Defined.

(** The text of a check with a message is the message, without escaping,
    and a check with no message, or an empty one, shows its id. *)
Example check_text_examples :
  check_text {| check_id := "c"; check_message := Some "a <b> c" |} = "a <b> c"
  ∧ check_text {| check_id := "c"; check_message := Some "" |} = "c"
  ∧ check_text {| check_id := "c"; check_message := None |} = "c".
Proof. done. Qed.

(** Two texts with the same escaped form: escaping cannot be undone. *)
Example escapeForMarkdown_not_injective :
  escapeForMarkdown "<" = escapeForMarkdown "&lt;".
Proof. done. Qed.
