(* ===== verification/WcagIndexer.v ===== *)
(** * WcagIndexer: the guideline taxonomy and its index

    The guideline taxonomy indexer ([WCAGLinkDataIndexer]) and the taxonomy
    provider ([getWcagTaxonomy]).  Their code is not among the sources: the
    definitions follow the contract of the specification (the tags of the
    static table in lexicographic order, each mapped to its position) and
    the way [src/src/sarif-converter-21.ts] calls them (the indexer is
    built from the table alone).  [Array.prototype.sort] without a
    comparison function is [sort_strings]; [tags_indexed] is what the rule
    linker may assume of an indexer. *)

From S2P Require Import Prelude JsString SarifLog.

Implicit Types (tags sortedTags : list string) (indices : gmap string nat)
  (tag : string).

(** The data of a guideline tag in the static table. *)
Record WCAGLinkData : Type := {
  wcag_title : string;
  wcag_url : string;
}.

#[export] Instance WCAGLinkData_eq_dec : EqDecision WCAGLinkData.
Proof. solve_decision. Defined.

(** [Object.keys(table)], in the order the engine enumerates them. *)
Definition object_keys {V} (table : gmap string V) : list string :=
  (map_to_list table).*1.

(** [tags.sort()]: code units compared position by position, a proper
    prefix first. *)
Definition sort_strings (l : list string) : list string :=
  merge_sort String.le l.

(** The indexer: the tags in order, and the position of each. *)
Record WCAGLinkDataIndexer : Type := {
  sortedWcagTags : list string;
  wcagTagsToTaxaIndices : gmap string nat;
}.

(** [new WCAGLinkDataIndexer(tagsToWcagLinkData)] *)
Definition new_WCAGLinkDataIndexer (tagsToWcagLinkData : gmap string WCAGLinkData)
    : WCAGLinkDataIndexer :=
  let sorted := sort_strings (object_keys tagsToWcagLinkData) in
  {| sortedWcagTags := sorted; wcagTagsToTaxaIndices := index_dict sorted |}.

Definition getSortedWcagTags (ix : WCAGLinkDataIndexer) : list string :=
  sortedWcagTags ix.

Definition getWcagTagsToTaxaIndices (ix : WCAGLinkDataIndexer) : gmap string nat :=
  wcagTagsToTaxaIndices ix.

(** The taxon of a tag at a position. *)
Definition taxon_of (data : WCAGLinkData) (i : nat) : Taxon :=
  {| taxon_title := wcag_title data; taxon_url := wcag_url data; taxon_index := i |}.

(** [getWcagTaxonomy(sortedTags, table)]: one taxon per tag, in order, with
    the title and url of the tag.  For a tag that the table does not hold
    the model takes the reading of JavaScript, a [TypeError] for the
    property read on [undefined]; the specification is silent, and the
    case does not arise on a converter, whose tags are the keys of its
    table ([getWcagTaxonomy_indexer]). *)
Definition getWcagTaxonomy (sortedTags : list string)
    (tagsToWcagLinkData : gmap string WCAGLinkData) : Completion TaxonomyDescriptor :=
  taxa ← for_of (λ taxa '(i, tag),
      match tagsToWcagLinkData !! tag with
      | Some data => Normal (push taxa (taxon_of data i))
      | None => Throw (TypeErrorRead tag "title")
      end) (imap pair sortedTags) [];
  mret {| taxa := taxa |}.

(** What a client may assume of the two values of an indexer: the tags are
    in strict order, and the dictionary is the inverse of the list. *)
Record tags_indexed (sortedTags : list string) (indices : gmap string nat) : Prop := {
  tags_sorted : StronglySorted String.le sortedTags;
  tags_NoDup : NoDup sortedTags;
  tags_index : ∀ tag i, indices !! tag = Some i ↔ sortedTags !! i = Some tag;
}.

(** ** Sorting *)

Section sort_strings.
Implicit Types (l k : list string).

Lemma sort_strings_Permutation l : sort_strings l ≡ₚ l.
Proof. apply merge_sort_Permutation. Qed.

Lemma sort_strings_sorted l : StronglySorted String.le (sort_strings l).
Proof. apply (StronglySorted_merge_sort _). Qed.

Lemma sort_strings_elem_of l x : x ∈ sort_strings l ↔ x ∈ l.
Proof. by rewrite sort_strings_Permutation. Qed.

Lemma sort_strings_length l : length (sort_strings l) = length l.
Proof. by rewrite sort_strings_Permutation. Qed.

Lemma sort_strings_NoDup l : NoDup (sort_strings l) ↔ NoDup l.
Proof. by rewrite sort_strings_Permutation. Qed.

(** The sorted list does not depend on the order of the input. *)
Lemma sort_strings_Permutation_eq l k : l ≡ₚ k → sort_strings l = sort_strings k.
Proof.
  intros Hlk. apply (StronglySorted_unique String.le);
    [apply sort_strings_sorted..|].
  by rewrite !sort_strings_Permutation.
Qed.

Lemma sort_strings_id l : StronglySorted String.le l → sort_strings l = l.
Proof.
  intros Hl. apply (StronglySorted_unique String.le);
    [apply sort_strings_sorted|done|apply sort_strings_Permutation].
Qed.

Lemma sort_strings_idemp l : sort_strings (sort_strings l) = sort_strings l.
Proof. apply sort_strings_id, sort_strings_sorted. Qed.

End sort_strings.

(** ** The keys of a dictionary *)

Lemma object_keys_NoDup {V} (table : gmap string V) : NoDup (object_keys table).
Proof. apply NoDup_fst_map_to_list. Qed.

Lemma object_keys_elem_of {V} (table : gmap string V) k :
  k ∈ object_keys table ↔ is_Some (table !! k).
Proof.
  unfold object_keys. rewrite list_elem_of_fmap. split.
  - intros ([k' v] & -> & Hkv%elem_of_map_to_list). by exists v.
  - intros [v Hv]. exists (k, v). by rewrite elem_of_map_to_list.
Qed.

(** ** The indexer *)

Section indexer.
Context (table : gmap string WCAGLinkData).
Let ix := new_WCAGLinkDataIndexer table.

Lemma indexer_tags_elem_of tag :
  tag ∈ getSortedWcagTags ix ↔ is_Some (table !! tag).
Proof. simpl. by rewrite sort_strings_elem_of, object_keys_elem_of. Qed.

Lemma indexer_tags_length : length (getSortedWcagTags ix) = size table.
Proof.
  simpl. rewrite sort_strings_length. unfold object_keys.
  by rewrite length_fmap, length_map_to_list.
Qed.

(** The indexer keeps the promise [tags_indexed]. *)
Lemma indexer_tags_indexed :
  tags_indexed (getSortedWcagTags ix) (getWcagTagsToTaxaIndices ix).
Proof.
  assert (NoDup (getSortedWcagTags ix)) as Hnd
    by apply sort_strings_NoDup, object_keys_NoDup.
  split; [apply sort_strings_sorted|done|].
  intros tag i. by apply index_dict_lookup.
Qed.

(** The tags do not depend on the order in which the engine enumerates
    the keys of the table. *)
Lemma indexer_tags_canonical (keys : list string) :
  NoDup keys → (∀ tag, tag ∈ keys ↔ is_Some (table !! tag)) →
  sort_strings keys = getSortedWcagTags ix.
Proof.
  intros Hnd Hkeys. apply sort_strings_Permutation_eq.
  apply NoDup_Permutation; [done|apply object_keys_NoDup|].
  intros tag. by rewrite Hkeys, object_keys_elem_of.
Qed.

End indexer.

(** ** The taxonomy *)

Section taxonomy.
Context (table : gmap string WCAGLinkData).
Implicit Types (ts : list Taxon).

Let body := λ ts '((i, tag) : nat * string),
  match table !! tag with
  | Some data => Normal (push ts (taxon_of data i))
  | None => Throw (TypeErrorRead tag "title")
  end.

(** The loop of [getWcagTaxonomy] over tags of the table: one taxon per
    tag, at the position of the tag. *)
Lemma taxonomy_loop tags :
  Forall (λ tag, is_Some (table !! tag)) tags →
  ∃ ts, for_of body (imap pair tags) [] = Normal ts
    ∧ length ts = length tags
    ∧ ∀ i tag, tags !! i = Some tag →
        ∃ data, table !! tag = Some data ∧ ts !! i = Some (taxon_of data i).
Proof.
  induction tags as [|tag tags IH] using rev_ind; intros Htags.
  { exists []. split_and!; [done..|]. by intros i tag. }
  apply Forall_app in Htags as [Htags [[data Hdata] _]%Forall_cons].
  destruct (IH Htags) as (ts & Hts & Hlen & Hlookup).
  exists (push ts (taxon_of data (length tags))).
  rewrite imap_app, for_of_app, Hts. simpl. rewrite Hdata, Nat.add_0_r.
  split_and!; [done|by rewrite push_length, length_app, Hlen; simpl; lia|].
  intros i tag' Hi. unfold push. apply lookup_app_Some in Hi as [Hi|[Hge Hi]].
  - destruct (Hlookup i tag' Hi) as (d & ? & ?). exists d.
    split; [done|]. by apply lookup_app_l_Some.
  - apply list_lookup_singleton_Some in Hi as [Hi <-].
    assert (i = length tags) as -> by lia. exists data. split; [done|].
    by rewrite <-Hlen, list_lookup_middle.
Qed.

Lemma taxonomy_loop_normal tags ts :
  Forall (λ tag, is_Some (table !! tag)) tags →
  is_normal (for_of body (imap pair tags) ts) = true.
Proof.
  induction tags as [|tag tags IH] using rev_ind; intros Htags; [done|].
  apply Forall_app in Htags as [Htags [[data Hdata] _]%Forall_cons].
  specialize (IH Htags). rewrite imap_app, for_of_app.
  destruct (for_of body (imap pair tags) ts); [|done]. simpl. by rewrite Hdata.
Qed.

(** A tag that the table does not hold makes the loop throw at that tag. *)
Lemma taxonomy_loop_throw tags1 tag tags2 ts :
  Forall (λ tag, is_Some (table !! tag)) tags1 → table !! tag = None →
  for_of body (imap pair (tags1 ++ tag :: tags2)) ts
  = Throw (TypeErrorRead tag "title").
Proof.
  intros H1 Htag. rewrite imap_app, for_of_app. simpl.
  apply (taxonomy_loop_normal _ ts), is_normal_Normal in H1 as [ts' ->].
  simpl. by rewrite Htag.
Qed.

End taxonomy.

(** [getWcagTaxonomy] on tags of the table returns one taxon per tag, each
    with the title and url of its tag and its position as index. *)
Lemma getWcagTaxonomy_normal (table : gmap string WCAGLinkData) tags :
  Forall (λ tag, is_Some (table !! tag)) tags →
  ∃ t, getWcagTaxonomy tags table = Normal t
    ∧ length (taxa t) = length tags
    ∧ ∀ i tag, tags !! i = Some tag →
        ∃ data, table !! tag = Some data ∧ taxa t !! i = Some (taxon_of data i).
Proof.
  intros (ts & Hts & ? & ?)%taxonomy_loop. exists {| taxa := ts |}.
  unfold getWcagTaxonomy. by rewrite Hts.
Qed.

(** The taxonomy of the tags of an indexer never throws. *)
Lemma getWcagTaxonomy_indexer (table : gmap string WCAGLinkData) :
  ∃ t, getWcagTaxonomy (getSortedWcagTags (new_WCAGLinkDataIndexer table)) table
       = Normal t
    ∧ length (taxa t) = length (getSortedWcagTags (new_WCAGLinkDataIndexer table)).
Proof.
  destruct (getWcagTaxonomy_normal table
    (getSortedWcagTags (new_WCAGLinkDataIndexer table))) as (t & ? & ? & _); [|eauto].
  apply Forall_forall. intros tag. by rewrite indexer_tags_elem_of.
Qed.

(** The taxonomy of an indexer, taxon by taxon: the taxon at a position is
    the one of the tag at that position of the sorted tags. *)
Lemma getWcagTaxonomy_indexer_lookup (table : gmap string WCAGLinkData) t i tag :
  getWcagTaxonomy (getSortedWcagTags (new_WCAGLinkDataIndexer table)) table = Normal t →
  getSortedWcagTags (new_WCAGLinkDataIndexer table) !! i = Some tag →
  ∃ data, table !! tag = Some data ∧ taxa t !! i = Some (taxon_of data i).
Proof.
  intros Ht Htag.
  destruct (getWcagTaxonomy_normal table
    (getSortedWcagTags (new_WCAGLinkDataIndexer table))) as (t' & Ht' & _ & Hlookup).
  { apply Forall_forall. intros tag'. by rewrite indexer_tags_elem_of. }
  rewrite Ht in Ht'. injection Ht' as <-. by apply Hlookup.
Qed.

Lemma getWcagTaxonomy_indexer_taxon (table : gmap string WCAGLinkData) t i taxon :
  getWcagTaxonomy (getSortedWcagTags (new_WCAGLinkDataIndexer table)) table = Normal t →
  taxa t !! i = Some taxon →
  ∃ tag data, getSortedWcagTags (new_WCAGLinkDataIndexer table) !! i = Some tag
    ∧ table !! tag = Some data ∧ taxon = taxon_of data i.
Proof.
  intros Ht Hi. destruct (getWcagTaxonomy_indexer table) as (t' & Ht' & Hlen).
  rewrite Ht in Ht'. injection Ht' as <-.
  destruct (lookup_lt_is_Some_2 (getSortedWcagTags (new_WCAGLinkDataIndexer table)) i)
    as [tag Htag]; [by rewrite <-Hlen; eapply lookup_lt_Some|].
  destruct (getWcagTaxonomy_indexer_lookup table t i tag Ht Htag) as (data & ? & Hi').
  exists tag, data. rewrite Hi in Hi'. by simplify_eq.
Qed.
