(* ===== verification/RuleLinker.v ===== *)
(** * RuleLinker: the rules of a run and their indices

    The rule-to-taxonomy linker ([ResultToRuleConverter]).  Its code is not
    among the sources.  What [src/src/sarif-converter-21.ts] uses of it is
    the interface [RuleLinker]: a constructor and the rule list, with the
    dictionary from rule ids to positions; [RuleLinkerLaws] is the contract
    of the specification (every rule at its own position, the dictionary
    the inverse of the list, every rule of the document present, the taxa
    of a rule the indices of its guideline tags).  [linker_of] is the
    linker of section 4.2 of the specification: the rules in the order of
    their first appearance in the document, each rule result after the
    first with the same id left out.  It keeps the contract, and its rule
    ids are [first_occurrences] of the rule ids of the document. *)

From S2P Require Import Prelude JsString AxeResults SarifLog WcagIndexer.

Implicit Types (r : DecoratedAxeResult) (rs acc : list DecoratedAxeResult)
  (results : DecoratedAxeResults) (sortedTags tags : list string)
  (indices : gmap string nat) (id : string) (i t : nat).

(** ** The interface the converter uses *)

Class RuleLinker : Type := {
  ResultToRuleConverter : Type;
  new_ResultToRuleConverter :
    DecoratedAxeResults → list string → gmap string nat → ResultToRuleConverter;
  getRulePropertiesFromResults : ResultToRuleConverter → list RuleDescriptor;
  getRuleIdsToRuleIndices : ResultToRuleConverter → gmap string nat;
}.

(** The contract: [linker] ranges over the linkers built from a document. *)
Class RuleLinkerLaws `{RuleLinker} : Prop := {
  (** a rule descriptor carries its own position *)
  linker_rule_index results sortedTags indices i rule :
    getRulePropertiesFromResults
      (new_ResultToRuleConverter results sortedTags indices) !! i = Some rule →
    rd_index rule = i;
  (** the dictionary is the inverse of the list of rule ids *)
  linker_index results sortedTags indices id i :
    getRuleIdsToRuleIndices
      (new_ResultToRuleConverter results sortedTags indices) !! id = Some i
    ↔ rd_id <$> (getRulePropertiesFromResults
        (new_ResultToRuleConverter results sortedTags indices) !! i) = Some id;
  (** the rules are those of the document *)
  linker_rule_ids results sortedTags indices id :
    id ∈ (rd_id <$> getRulePropertiesFromResults
        (new_ResultToRuleConverter results sortedTags indices))
    ↔ id ∈ (rule_id <$> all_rule_results results);
  (** the taxa of a rule are the indices of guideline tags of a rule
      result of the document with the id of the rule *)
  linker_taxa_tags results sortedTags indices rule t :
    rule ∈ getRulePropertiesFromResults
        (new_ResultToRuleConverter results sortedTags indices) →
    t ∈ rd_taxa rule →
    ∃ r tag, r ∈ all_rule_results results ∧ rule_id r = rd_id rule
      ∧ tag ∈ rule_tags r ∧ indices !! tag = Some t;
}.

(** ** The linker of the specification *)

(** The rule results with an id not seen before, in order. *)
Definition add_rule (acc : list DecoratedAxeResult) (r : DecoratedAxeResult)
    : list DecoratedAxeResult :=
  if decide (rule_id r ∈ rule_id <$> acc) then acc else push acc r.

Definition distinct_rules (rs : list DecoratedAxeResult) : list DecoratedAxeResult :=
  fold_left add_rule rs [].

(** The tags of a rule that the taxonomy knows, as taxon indices. *)
Definition taxa_of_tags (sortedTags : list string) (indices : gmap string nat)
    (tags : list string) : list nat :=
  omap (λ tag, indices !! tag) (filter (λ tag, tag ∈ sortedTags) tags).

Definition rule_descriptor (sortedTags : list string) (indices : gmap string nat)
    (i : nat) (r : DecoratedAxeResult) : RuleDescriptor :=
  {| rd_id := rule_id r; rd_index := i;
     rd_taxa := taxa_of_tags sortedTags indices (rule_tags r) |}.

Record LinkerState : Type := {
  linker_rules : list RuleDescriptor;
  linker_indices : gmap string nat;
}.

Definition linker_of results sortedTags indices : LinkerState :=
  let rs := distinct_rules (all_rule_results results) in
  {| linker_rules := imap (rule_descriptor sortedTags indices) rs;
     linker_indices := index_dict (rule_id <$> rs) |}.

(** Rules in the order of their first appearance. *)
Definition first_appearance_linker : RuleLinker :=
  {| ResultToRuleConverter := LinkerState;
     new_ResultToRuleConverter := linker_of;
     getRulePropertiesFromResults := linker_rules;
     getRuleIdsToRuleIndices := linker_indices |}.

(** ** Lemmas: distinct rules *)

Lemma distinct_rules_snoc rs r :
  distinct_rules (rs ++ [r]) = add_rule (distinct_rules rs) r.
Proof. unfold distinct_rules. by rewrite fold_left_app. Qed.

Lemma distinct_rules_ids rs id :
  id ∈ rule_id <$> distinct_rules rs ↔ id ∈ rule_id <$> rs.
Proof.
  induction rs as [|r rs IH] using rev_ind; [done|].
  rewrite distinct_rules_snoc, fmap_app, elem_of_app, <-IH. unfold add_rule, push.
  simpl. rewrite list_elem_of_singleton. case_decide as Hr.
  - split; [by left|]. by intros [?| ->].
  - rewrite fmap_app, elem_of_app. simpl. by rewrite list_elem_of_singleton.
Qed.

Lemma distinct_rules_NoDup rs : NoDup (rule_id <$> distinct_rules rs).
Proof.
  induction rs as [|r rs IH] using rev_ind; [by constructor|].
  rewrite distinct_rules_snoc. unfold add_rule, push. case_decide as Hr; [done|].
  rewrite fmap_app. apply NoDup_app. split_and!; [done| |by apply NoDup_singleton].
  intros id Hid Hid'. simpl in Hid'. by apply list_elem_of_singleton in Hid' as ->.
Qed.

Lemma distinct_rules_elem_of rs r : r ∈ distinct_rules rs → r ∈ rs.
Proof.
  induction rs as [|r' rs IH] using rev_ind; [done|].
  rewrite distinct_rules_snoc, elem_of_app. unfold add_rule, push.
  case_decide; [by left; auto|]. rewrite elem_of_app. intros [?|?]; auto.
Qed.

(** The first rule result of the document with a given id is kept. *)
Lemma distinct_rules_head r rs : head (distinct_rules (r :: rs)) = Some r.
Proof.
  induction rs as [|r' rs IH] using rev_ind; [done|].
  rewrite app_comm_cons, distinct_rules_snoc. unfold add_rule, push.
  case_decide; [done|]. by rewrite head_app, IH.
Qed.

(** ** Lemmas: taxa of a rule *)

Lemma taxa_of_tags_elem_of sortedTags indices tags t :
  t ∈ taxa_of_tags sortedTags indices tags
  ↔ ∃ tag, tag ∈ tags ∧ tag ∈ sortedTags ∧ indices !! tag = Some t.
Proof.
  unfold taxa_of_tags. rewrite list_elem_of_omap.
  setoid_rewrite list_elem_of_filter. split.
  - intros (tag & (? & ?) & ?). eauto.
  - intros (tag & ? & ? & ?). eauto.
Qed.

Lemma taxa_of_tags_bound sortedTags indices tags t :
  tags_indexed sortedTags indices →
  t ∈ taxa_of_tags sortedTags indices tags → t < length sortedTags.
Proof.
  intros Hix (tag & _ & _ & Hi)%taxa_of_tags_elem_of.
  apply (tags_index _ _ Hix) in Hi. by eapply lookup_lt_Some.
Qed.

(** A rule without a tag of the taxonomy still has a descriptor, without
    taxa. *)
Lemma taxa_of_tags_nil sortedTags indices tags :
  Forall (λ tag, tag ∉ sortedTags) tags → taxa_of_tags sortedTags indices tags = [].
Proof.
  intros Hn. unfold taxa_of_tags.
  replace (filter (λ tag, tag ∈ sortedTags) tags) with (@nil string); [done|].
  symmetry. induction Hn as [|tag tags Hn _ IH]; [done|].
  by rewrite filter_cons_False.
Qed.

(** ** The linker keeps the contract *)

Lemma linker_of_rule_ids results sortedTags indices :
  rd_id <$> linker_rules (linker_of results sortedTags indices)
  = rule_id <$> distinct_rules (all_rule_results results).
Proof.
  simpl. apply list_eq. intros i.
  rewrite !list_lookup_fmap, list_lookup_imap. by destruct (_ !! i).
Qed.

Lemma linker_of_indices results sortedTags indices :
  linker_indices (linker_of results sortedTags indices)
  = index_dict (rd_id <$> linker_rules (linker_of results sortedTags indices)).
Proof. by rewrite linker_of_rule_ids. Qed.

Lemma linker_of_ids_NoDup results sortedTags indices :
  NoDup (rd_id <$> linker_rules (linker_of results sortedTags indices)).
Proof. rewrite linker_of_rule_ids. apply distinct_rules_NoDup. Qed.

Lemma first_appearance_linker_laws : @RuleLinkerLaws first_appearance_linker.
Proof.
  split; intros results sortedTags indices; cbn -[linker_of].
  - intros i rule (r & _ & ->)%list_lookup_imap_Some. done.
  - intros id i.
    rewrite linker_of_indices, <-list_lookup_fmap.
    apply index_dict_lookup, linker_of_ids_NoDup.
  - intros id. by rewrite linker_of_rule_ids, distinct_rules_ids.
  - intros rule t (i & r & -> & Hr%list_elem_of_lookup_2)%elem_of_lookup_imap.
    simpl. intros (tag & ? & _ & ?)%taxa_of_tags_elem_of. exists r, tag.
    eauto using distinct_rules_elem_of.
Qed.

(** ** Consequences of the contract *)

(** The taxa of a rule are positions of the taxonomy. *)
Lemma linker_taxa `{RuleLinkerLaws} results sortedTags indices rule t :
  tags_indexed sortedTags indices →
  rule ∈ getRulePropertiesFromResults
      (new_ResultToRuleConverter results sortedTags indices) →
  t ∈ rd_taxa rule → t < length sortedTags.
Proof.
  intros Hix Hrule Ht.
  destruct (linker_taxa_tags _ _ _ _ _ Hrule Ht) as (_ & tag & _ & _ & _ & Hi).
  apply (tags_index _ _ Hix) in Hi. by eapply lookup_lt_Some.
Qed.

(** No rule id stands twice in the rule list. *)
Lemma linker_rule_ids_NoDup `{RuleLinkerLaws} results sortedTags indices :
  NoDup (rd_id <$> getRulePropertiesFromResults
    (new_ResultToRuleConverter results sortedTags indices)).
Proof.
  apply NoDup_alt. intros i j id Hi Hj. rewrite list_lookup_fmap in Hi, Hj.
  apply linker_index in Hi, Hj. by simplify_eq.
Qed.

(** ** The order of the rules *)

(** The ids of the rule results that are kept are the rule ids of the
    document in the order of their first occurrence. *)
Lemma distinct_rules_first_occurrences rs :
  rule_id <$> distinct_rules rs = first_occurrences (rule_id <$> rs).
Proof.
  induction rs as [|r rs IH] using rev_ind; [done|].
  rewrite distinct_rules_snoc, fmap_app. change (rule_id <$> [r]) with [rule_id r].
  rewrite first_occurrences_snoc, <-IH. unfold add_rule, push.
  destruct (decide (rule_id r ∈ rule_id <$> rs)) as [Hr|Hr].
  - by rewrite decide_True by (by apply distinct_rules_ids).
  - rewrite decide_False by (by rewrite distinct_rules_ids). by rewrite fmap_app.
Qed.

(** The rule ids of the linker: the rule ids of the document, violations
    first, then passes, incomplete results and inapplicable rules, each id
    where it appears first. *)
Lemma first_appearance_rule_ids results sortedTags indices :
  rd_id <$> getRulePropertiesFromResults (RuleLinker:=first_appearance_linker)
    (new_ResultToRuleConverter results sortedTags indices)
  = first_occurrences (rule_id <$> all_rule_results results).
Proof.
  cbn -[linker_of]. by rewrite linker_of_rule_ids, distinct_rules_first_occurrences.
Qed.

(** With first appearance the first rule of the list is the first rule
    result of the document. *)
Lemma first_appearance_head r rs bs ps ins sortedTags indices :
  rd_id <$> head (getRulePropertiesFromResults (RuleLinker:=first_appearance_linker)
    (new_ResultToRuleConverter
      {| violations := Some (r :: rs); passes := bs; incomplete := ps;
         inapplicable := ins |} sortedTags indices))
  = Some (rule_id r).
Proof.
  cbn -[linker_of]. unfold linker_of, all_rule_results, node_bearing.
  cbn -[distinct_rules bucket]. rewrite bucket_Some, <-!app_comm_cons.
  pose proof (distinct_rules_head r
    ((rs ++ bucket bs ++ bucket ps) ++ bucket ins)) as Hh.
  destruct (distinct_rules _); simpl in *; by simplify_eq.
Qed.
