(* ===== verification/Collaborators.v ===== *)
(** * Collaborators: the functions the converter imports

    The functions and the table that [src/src/sarif-converter-21.ts]
    imports from files that are not among the sources (environment data,
    artifact, invocation and tool property providers, the static table of
    guideline tags).  The converter only calls them: they are the fields of
    the class [Providers.t], assumed pure and total as the specification
    says, and the theorems on the converter hold for every instance.  A
    field is named as the import it stands for, under the module name
    [Providers], because the converter has a member of its own called
    [getArtifactProperties]. *)

From S2P Require Import Prelude AxeResults SarifLog WcagIndexer.

Module Providers.

Class t `{ExternalTypes} : Type := {
  getEnvironmentDataFromResults : DecoratedAxeResults → EnvironmentData;
  getArtifactLocation : EnvironmentData → ArtifactLocation;
  getArtifactProperties : EnvironmentData → Artifact;
  getConverterProperties : unit → Conversion;
  getAxeToolProperties21 : unit → ToolComponent;
  getInvocations21 : EnvironmentData → list Invocation;
  axeTagsToWcagLinkData : gmap string WCAGLinkData;
  (** [CustomSarif.SarifLogVersion21.version], the version literal of a log *)
  SarifLogVersion21_version : string;
}.

End Providers.
