(* ===== verification/Samples.v ===== *)
(** * Samples: concrete collaborators and documents

    Instances of the abstract collaborators and small scan documents, on
    which the theorems of the development are applied to concrete inputs.
    They model no code: the collaborators return fixed strings, and the
    documents are those of the scenarios of the specification. *)

From S2P Require Import Prelude AxeResults SarifLog Message WcagIndexer.
From S2P Require Import RuleLinker Collaborators.

(** Every passed-through object is a string. *)
Definition sample_types : ExternalTypes :=
  {| EnvironmentData := string; ArtifactLocation := string; Artifact := string;
     Invocation := string; Conversion := string; DriverProperties := string |}.

Definition sample_table : gmap string WCAGLinkData :=
  {[ "wcag412" := {| wcag_title := "WCAG 4.1.2"; wcag_url := "https://w3.org/412" |};
     "wcag111" := {| wcag_title := "WCAG 1.1.1"; wcag_url := "https://w3.org/111" |};
     "wcag131" := {| wcag_title := "WCAG 1.3.1"; wcag_url := "https://w3.org/131" |} ]}.

Definition sample_providers : @Providers.t sample_types :=
  {| Providers.getEnvironmentDataFromResults := λ _, "https://example.com/" : @EnvironmentData sample_types;
     Providers.getArtifactLocation := λ env : @EnvironmentData sample_types,
       env : @ArtifactLocation sample_types;
     Providers.getArtifactProperties := λ env : @EnvironmentData sample_types,
       env : @Artifact sample_types;
     Providers.getConverterProperties := λ _, "axe-sarif-converter" : @Conversion sample_types;
     Providers.getAxeToolProperties21 := λ _,
       @Build_ToolComponent sample_types "axe-core" None;
     Providers.getInvocations21 := λ env : @EnvironmentData sample_types,
       [env : @Invocation sample_types];
     Providers.axeTagsToWcagLinkData := sample_table;
     Providers.SarifLogVersion21_version := "2.1.0" |}.

Definition check_alt : CheckResult :=
  {| check_id := "has-alt"; check_message := Some "Element has no <alt> attribute" |}.

Definition check_role : CheckResult :=
  {| check_id := "role-none"; check_message := None |}.

Definition node_img : NodeResult :=
  {| node_html := "<img src=a.png>"; node_target := ["#main"; "img"];
     node_any := [check_alt]; node_all := []; node_none := [check_role] |}.

Definition node_logo : NodeResult :=
  {| node_html := "<img alt=logo>"; node_target := ["img.logo"];
     node_any := [check_alt]; node_all := []; node_none := [] |}.

Definition rule_image_alt (nodes : list NodeResult) : DecoratedAxeResult :=
  {| rule_id := "image-alt"; rule_tags := ["cat.text-alternatives"; "wcag111"];
     rule_nodes := nodes |}.

Definition rule_frame_title : DecoratedAxeResult :=
  {| rule_id := "frame-title"; rule_tags := ["wcag412"; "section508"];
     rule_nodes := [] |}.

(** One violation and one pass of the same rule, and a rule that applies
    to no element. *)
Definition sample_results : DecoratedAxeResults :=
  {| violations := Some [rule_image_alt [node_img]];
     passes := Some [rule_image_alt [node_logo]];
     incomplete := Some [];
     inapplicable := Some [rule_frame_title] |}.

(** A document whose four buckets are empty. *)
Definition empty_results : DecoratedAxeResults :=
  {| violations := Some []; passes := Some []; incomplete := Some [];
     inapplicable := Some [] |}.

(** A document with rules and no node: nothing to report. *)
Definition nodeless_results : DecoratedAxeResults :=
  {| violations := Some [rule_image_alt []]; passes := None;
     incomplete := None; inapplicable := Some [rule_frame_title] |}.
