(* ===== verification/Results.v ===== *)
(** * Results: the results of a run

    The class [SarifConverter21] of [src/src/sarif-converter-21.ts] as the
    record of its members, and its result projecting methods:
    [convertResults], [convertRuleResults], [convertRuleResult],
    [getLogicalLocations], [formatLogicalLocation],
    [getPartialFingerprintsFromRule], [convertRuleResultsWithoutNodes].
    The array [resultArray] that the methods fill by [push] is passed in
    and returned, inside a [Completion] because reading the rule index can
    throw; [convertRuleResult_push] is the statement of the loop over the
    nodes.  [results_spec] is the specification of the result list (one
    result per node, in the order of the document, bucket by bucket),
    [same_nodes] relates the documents that give the same results, and
    [location_targets] reads a target path back from a logical location. *)

From Stdlib Require Import Ascii.
From S2P Require Import Prelude JsString AxeResults SarifLog Message.
From S2P Require Import WcagIndexer RuleLinker Collaborators Samples.

Section results.
Context `{ExternalTypes}.

(** The members of a converter.  [ruleIdsToRuleIndices] is read by
    [convertRuleResult]; it is [None] while the property is undefined. *)
Record SarifConverter21 : Type := {
  tagsToWcagLinkData : gmap string WCAGLinkData;
  wcagLinkDataIndexer : WCAGLinkDataIndexer;
  getConverterToolProperties : unit → Conversion;
  getAxeProperties : unit → ToolComponent;
  invocationConverter : EnvironmentData → list Invocation;
  getArtifactProperties : EnvironmentData → Artifact;
  ruleIdsToRuleIndices : option (gmap string nat);
}.

Context `{!Providers.t}.

Implicit Types (this : SarifConverter21) (resultArray : list SarifResult)
  (ruleResult r : DecoratedAxeResult) (rs : list DecoratedAxeResult)
  (ruleResults : option (list DecoratedAxeResult)) (node : NodeResult)
  (lv : level) (environmentData env : EnvironmentData)
  (results : DecoratedAxeResults) (properties : gmap string string)
  (indices : gmap string nat).

Definition formatLogicalLocation (name : string) : LogicalLocation :=
  {| fullyQualifiedName := name; kind := "element" |}.

Definition getLogicalLocations (node : NodeResult) : list LogicalLocation :=
  let selector := join ";" (node_target node) in
  [formatLogicalLocation selector].

Definition getPartialFingerprintsFromRule (ruleResult : DecoratedAxeResult)
    : gmap string string :=
  {[ "ruleId" := rule_id ruleResult ]}.

(** One turn of the loop of [convertRuleResult]: the result of the node
    is pushed.  The properties of the literal are evaluated in order, so
    the rule index is read from the member [ruleIdsToRuleIndices] before
    the message and the locations are built. *)
Definition convertRuleResult_push this ruleResult lv environmentData
    resultArray node : Completion (list SarifResult) :=
  ruleIndex ← get_property "ruleIdsToRuleIndices"
    (ruleIdsToRuleIndices this) (rule_id ruleResult);
  mret (push resultArray
    {| ruleId := rule_id ruleResult;
       ruleIndex := ruleIndex;
       message := convertMessage node lv;
       locations :=
         [ {| physicalLocation :=
                {| artifactLocation :=
                     Providers.getArtifactLocation environmentData;
                   region := {| snippet := {| snippet_text := node_html node |} |} |};
              logicalLocations := getLogicalLocations node |} ] |}).

(** One result per node of the rule result. *)
Definition convertRuleResult this resultArray ruleResult lv environmentData
    : Completion (list SarifResult) :=
  for_of (convertRuleResult_push this ruleResult lv environmentData)
    (rule_nodes ruleResult) resultArray.

Definition convertRuleResults this resultArray ruleResults lv environmentData
    : Completion (list SarifResult) :=
  match ruleResults with
  | Some ruleResults =>
      for_of (λ resultArray ruleResult,
          convertRuleResult this resultArray ruleResult lv environmentData)
        ruleResults resultArray
  | None => Normal resultArray
  end.

(** The loop over the rules without nodes builds the fingerprints of each
    rule and pushes nothing. *)
Definition convertRuleResultsWithoutNodes this resultArray ruleResults lv properties
    : Completion (list SarifResult) :=
  match ruleResults with
  | Some ruleResults =>
      for_of (λ resultArray ruleResult,
          let partialFingerprints := getPartialFingerprintsFromRule ruleResult in
          Normal resultArray)
        ruleResults resultArray
  | None => Normal resultArray
  end.

Definition convertResults this results properties : Completion (list SarifResult) :=
  let resultArray := [] in
  let environmentData := Providers.getEnvironmentDataFromResults results in
  resultArray ← convertRuleResults this resultArray (violations results)
    level_error environmentData;
  resultArray ← convertRuleResults this resultArray (passes results)
    level_pass environmentData;
  resultArray ← convertRuleResults this resultArray (incomplete results)
    level_open environmentData;
  resultArray ← convertRuleResultsWithoutNodes this resultArray
    (inapplicable results) level_notApplicable properties;
  mret resultArray.

(** ** Specification of the result list *)

(** The result of a node of a rule result, given the dictionary of rule
    indices. *)
Definition result_of indices env lv r node : SarifResult :=
  {| ruleId := rule_id r;
     ruleIndex := indices !! rule_id r;
     message := convertMessage node lv;
     locations :=
       [ {| physicalLocation :=
              {| artifactLocation := Providers.getArtifactLocation env;
                 region := {| snippet := {| snippet_text := node_html node |} |} |};
            logicalLocations :=
              [ {| fullyQualifiedName := join ";" (node_target node);
                   kind := "element" |} ] |} ] |}.

(** The results of a bucket: rule results in order, nodes in order. *)
Definition bucket_results indices env lv rs : list SarifResult :=
  rs ≫= λ r, result_of indices env lv r <$> rule_nodes r.

(** The results of a document: violations, passes, incomplete. *)
Definition results_spec indices results : list SarifResult :=
  let env := Providers.getEnvironmentDataFromResults results in
  bucket_results indices env level_error (bucket (violations results))
  ++ bucket_results indices env level_pass (bucket (passes results))
  ++ bucket_results indices env level_open (bucket (incomplete results)).

(** Documents that [convertResults] does not tell apart: the same rule
    results in each bucket that bears nodes, an undefined bucket read as
    an empty one, and the same environment data. *)
Definition same_nodes (results results' : DecoratedAxeResults) : Prop :=
  bucket (violations results) = bucket (violations results')
  ∧ bucket (passes results) = bucket (passes results')
  ∧ bucket (incomplete results) = bucket (incomplete results')
  ∧ Providers.getEnvironmentDataFromResults results
    = Providers.getEnvironmentDataFromResults results'.

#[export] Instance same_nodes_equivalence : Equivalence same_nodes.
Proof.
  unfold same_nodes. split; [by intros ?|by intros ?? (-> & -> & -> & ->)|].
  by intros ??? (-> & -> & -> & ->).
Qed.

(** The first rule result that has a node. *)
Definition first_with_nodes rs : option DecoratedAxeResult :=
  snd <$> list_find (λ r, rule_nodes r ≠ []) rs.

(** ** Lemmas *)

Lemma first_with_nodes_nil : first_with_nodes [] = None.
Proof. done. Qed.

Lemma first_with_nodes_cons r rs :
  first_with_nodes (r :: rs)
  = if decide (rule_nodes r ≠ []) then Some r else first_with_nodes rs.
Proof.
  unfold first_with_nodes. simpl. case_decide; [done|].
  by rewrite <-option_fmap_compose; destruct (list_find _ rs) as [[]|].
Qed.

Lemma first_with_nodes_app rs1 rs2 :
  first_with_nodes (rs1 ++ rs2)
  = match first_with_nodes rs1 with
    | Some r => Some r
    | None => first_with_nodes rs2
    end.
Proof.
  induction rs1 as [|r rs1 IH]; [done|].
  rewrite <-app_comm_cons, !first_with_nodes_cons. by case_decide.
Qed.

Lemma first_with_nodes_None rs :
  first_with_nodes rs = None ↔ Forall (λ r, rule_nodes r = []) rs.
Proof.
  induction rs as [|r rs IH]; [done|].
  rewrite first_with_nodes_cons, Forall_cons, <-IH.
  case_decide as Hr; by split; [|intros []].
Qed.

Lemma first_with_nodes_Some rs r :
  first_with_nodes rs = Some r → r ∈ rs ∧ rule_nodes r ≠ [].
Proof.
  unfold first_with_nodes. destruct (list_find _ rs) as [[i r']|] eqn:E; [|done].
  intros [= <-]. apply list_find_Some in E as (? & ? & _).
  split; [by eapply list_elem_of_lookup_2|done].
Qed.

(** With the dictionary defined a rule result adds the results of its
    nodes, in order. *)
Lemma convertRuleResult_push_defined this r lv env resultArray node indices :
  ruleIdsToRuleIndices this = Some indices →
  convertRuleResult_push this r lv env resultArray node
  = Normal (push resultArray (result_of indices env lv r node)).
Proof. intros Hi. unfold convertRuleResult_push. by rewrite Hi. Qed.

Lemma convertRuleResult_push_undefined this r lv env resultArray node :
  ruleIdsToRuleIndices this = None →
  convertRuleResult_push this r lv env resultArray node
  = Throw (TypeErrorRead "ruleIdsToRuleIndices" (rule_id r)).
Proof. intros Hi. unfold convertRuleResult_push. by rewrite Hi. Qed.

Lemma convertRuleResult_defined this resultArray r lv env indices :
  ruleIdsToRuleIndices this = Some indices →
  convertRuleResult this resultArray r lv env
  = Normal (resultArray ++ (result_of indices env lv r <$> rule_nodes r)).
Proof.
  intros Hi. unfold convertRuleResult.
  rewrite (for_of_fold _ (λ acc node, push acc (result_of indices env lv r node)))
    by (intros; by apply convertRuleResult_push_defined).
  by rewrite fold_left_push.
Qed.

(** With the dictionary undefined the first node makes it throw. *)
Lemma convertRuleResult_undefined this resultArray r lv env :
  ruleIdsToRuleIndices this = None →
  convertRuleResult this resultArray r lv env
  = if decide (rule_nodes r = []) then Normal resultArray
    else Throw (TypeErrorRead "ruleIdsToRuleIndices" (rule_id r)).
Proof.
  intros Hi. unfold convertRuleResult. destruct (rule_nodes r) as [|node nodes]; [done|].
  by rewrite for_of_cons, convertRuleResult_push_undefined.
Qed.

Lemma convertRuleResults_defined this resultArray ruleResults lv env indices :
  ruleIdsToRuleIndices this = Some indices →
  convertRuleResults this resultArray ruleResults lv env
  = Normal (resultArray ++ bucket_results indices env lv (bucket ruleResults)).
Proof.
  intros Hi. destruct ruleResults as [rs|]; simpl; [|by rewrite app_nil_r].
  apply for_of_append. intros. by apply convertRuleResult_defined.
Qed.

Lemma convertRuleResults_undefined this resultArray ruleResults lv env :
  ruleIdsToRuleIndices this = None →
  convertRuleResults this resultArray ruleResults lv env
  = match first_with_nodes (bucket ruleResults) with
    | Some r => Throw (TypeErrorRead "ruleIdsToRuleIndices" (rule_id r))
    | None => Normal resultArray
    end.
Proof.
  intros Hi. destruct ruleResults as [rs|]; simpl; [|done].
  induction rs as [|r rs IH]; [done|].
  rewrite for_of_cons, first_with_nodes_cons, convertRuleResult_undefined by done.
  destruct (decide (rule_nodes r = [])); [by rewrite decide_False by auto|].
  by rewrite decide_True.
Qed.

Lemma convertRuleResultsWithoutNodes_id this resultArray ruleResults lv properties :
  convertRuleResultsWithoutNodes this resultArray ruleResults lv properties
  = Normal resultArray.
Proof. destruct ruleResults; simpl; [|done]. by apply for_of_skip. Qed.

Lemma bucket_results_app indices env lv rs1 rs2 :
  bucket_results indices env lv (rs1 ++ rs2)
  = bucket_results indices env lv rs1 ++ bucket_results indices env lv rs2.
Proof. apply bind_app. Qed.

Lemma bucket_results_length indices env lv rs :
  length (bucket_results indices env lv rs)
  = sum_list (length ∘ rule_nodes <$> rs).
Proof.
  unfold bucket_results. rewrite length_bind. f_equal.
  apply list_fmap_ext. intros _ r _. simpl. by rewrite length_fmap.
Qed.

Lemma bucket_results_elem_of indices env lv rs res :
  res ∈ bucket_results indices env lv rs
  ↔ ∃ r node, r ∈ rs ∧ node ∈ rule_nodes r ∧ res = result_of indices env lv r node.
Proof.
  unfold bucket_results. rewrite list_elem_of_bind. split.
  - intros (r & (node & -> & ?)%list_elem_of_fmap & ?). eauto.
  - intros (r & node & ? & ? & ->). exists r. split; [|done].
    apply list_elem_of_fmap. eauto.
Qed.

Lemma results_spec_length indices results :
  length (results_spec indices results)
  = sum_list (length ∘ rule_nodes <$> node_bearing results).
Proof.
  unfold results_spec, node_bearing.
  by rewrite !length_app, !bucket_results_length, !fmap_app, !sum_list_with_app.
Qed.

Lemma results_spec_nil indices results :
  results_spec indices results = []
  ↔ Forall (λ r, rule_nodes r = []) (node_bearing results).
Proof.
  rewrite <-length_zero_iff_nil, results_spec_length.
  induction (node_bearing results) as [|r rs IH]; [done|].
  rewrite Forall_cons, <-IH, <-length_zero_iff_nil, fmap_cons. simpl.
  apply Nat.eq_add_0.
Qed.

(** ** Theorems *)

(** With the dictionary defined, the result list of the specification. *)
Lemma convertResults_Some this results properties indices :
  ruleIdsToRuleIndices this = Some indices →
  convertResults this results properties = Normal (results_spec indices results).
Proof.
  intros Hi. unfold convertResults, results_spec.
  repeat (rewrite (convertRuleResults_defined _ _ _ _ _ indices) by done; simpl).
  rewrite convertRuleResultsWithoutNodes_id. simpl. by rewrite <-app_assoc.
Qed.

(** C3.  With the dictionary of rule indices defined, [convertResults]
    returns the result list of the specification: one result per node, the
    violations first, then the passes, then the incomplete results, each
    bucket in the order of the document; the inapplicable rules and the
    properties add nothing. *)
Theorem convertResults_spec this results properties indices :
  ruleIdsToRuleIndices this = Some indices →
  convertResults this results properties = Normal (results_spec indices results).
Proof. apply convertResults_Some. Qed.

(** With the dictionary undefined, a throw at the first node. *)
Lemma convertResults_None this results properties :
  ruleIdsToRuleIndices this = None →
  convertResults this results properties
  = match first_with_nodes (node_bearing results) with
    | Some r => Throw (TypeErrorRead "ruleIdsToRuleIndices" (rule_id r))
    | None => Normal []
    end.
Proof.
  intros Hi. unfold convertResults, node_bearing.
  rewrite !first_with_nodes_app.
  repeat (rewrite convertRuleResults_undefined by done;
          destruct (first_with_nodes _); simpl; [done|]).
  by rewrite convertRuleResultsWithoutNodes_id.
Qed.

(** C7.  With the dictionary of rule indices undefined, [convertResults]
    throws a TypeError at the first rule result of the violations, passes
    and incomplete results that has a node, and returns the empty list
    when there is none. *)
Theorem convertResults_undefined this results properties :
  ruleIdsToRuleIndices this = None →
  convertResults this results properties
  = match first_with_nodes (node_bearing results) with
    | Some r => Throw (TypeErrorRead "ruleIdsToRuleIndices" (rule_id r))
    | None => Normal []
    end.
Proof. apply convertResults_None. Qed.

(** C27.  The number of results is the number of nodes of the violations,
    passes and incomplete results. *)
Theorem convertResults_length this results properties indices :
  ruleIdsToRuleIndices this = Some indices →
  length <$> convertResults this results properties
  = Normal (sum_list (length ∘ rule_nodes <$> node_bearing results)).
Proof.
  intros Hi. rewrite (convertResults_Some _ _ _ indices) by done. simpl.
  by rewrite results_spec_length.
Qed.

Lemma results_spec_elem_of indices results res :
  res ∈ results_spec indices results →
  ∃ r node lv, r ∈ node_bearing results ∧ node ∈ rule_nodes r
    ∧ ruleId res = rule_id r
    ∧ ruleIndex res = indices !! rule_id r
    ∧ message res = convertMessage node lv
    ∧ ∃ loc, locations res = [loc]
      ∧ snippet_text (snippet (region (physicalLocation loc))) = node_html node
      ∧ logicalLocations loc
        = [ {| fullyQualifiedName := join ";" (node_target node);
               kind := "element" |} ].
Proof.
  unfold results_spec, node_bearing. rewrite !elem_of_app.
  intros Hres. destruct_or!;
    apply bucket_results_elem_of in Hres as (r & node & ? & ? & ->);
    exists r, node; eexists; rewrite !elem_of_app; split_and!; eauto.
Qed.

(** C25.  Every result that [convertResults] returns comes from a node of
    a rule result of the violations, passes or incomplete results: it has
    the id of the rule, the entry of that id in the dictionary as rule
    index, the message of the node, and exactly one location, whose
    snippet is the html of the node and whose one logical location is the
    element named by the segments of the target joined by [;]. *)
Theorem convertResults_elem_of this results properties indices resultArray res :
  ruleIdsToRuleIndices this = Some indices →
  convertResults this results properties = Normal resultArray →
  res ∈ resultArray →
  ∃ r node lv, r ∈ node_bearing results ∧ node ∈ rule_nodes r
    ∧ ruleId res = rule_id r
    ∧ ruleIndex res = indices !! rule_id r
    ∧ message res = convertMessage node lv
    ∧ ∃ loc, locations res = [loc]
      ∧ snippet_text (snippet (region (physicalLocation loc))) = node_html node
      ∧ logicalLocations loc
        = [ {| fullyQualifiedName := join ";" (node_target node);
               kind := "element" |} ].
Proof.
  intros Hi. rewrite (convertResults_Some _ _ _ indices) by done.
  intros [= <-]. apply results_spec_elem_of.
Qed.

(** C28.  Two results of one conversion with the same rule id carry the
    same rule index, whatever their buckets. *)
Theorem convertResults_same_index this results properties resultArray res1 res2 :
  convertResults this results properties = Normal resultArray →
  res1 ∈ resultArray → res2 ∈ resultArray →
  ruleId res1 = ruleId res2 → ruleIndex res1 = ruleIndex res2.
Proof.
  destruct (ruleIdsToRuleIndices this) as [indices|] eqn:Hi.
  - rewrite (convertResults_Some _ _ _ indices) by done. intros [= <-].
    intros (?&?&?&_&_& E1 & -> & _)%results_spec_elem_of
           (?&?&?&_&_& E2 & -> & _)%results_spec_elem_of E.
    by rewrite <-E1, <-E2, E.
  - rewrite convertResults_None by done.
    destruct (first_with_nodes _); [done|]. by intros [= <-] ?%elem_of_nil.
Qed.

(** C22.  Rule results without nodes give no result: [convertResults] returns
    the empty list exactly when no rule result of the violations, passes
    and incomplete results has a node, whether the dictionary of rule
    indices is defined or not. *)
Theorem convertResults_nil_iff this results properties :
  convertResults this results properties = Normal []
  ↔ Forall (λ r, rule_nodes r = []) (node_bearing results).
Proof.
  rewrite <-first_with_nodes_None.
  destruct (ruleIdsToRuleIndices this) as [indices|] eqn:Hi.
  - rewrite (convertResults_Some _ _ _ indices), first_with_nodes_None by done.
    rewrite <-(results_spec_nil indices). split; [by intros [= ->]|by intros ->].
  - rewrite convertResults_None by done.
    by destruct (first_with_nodes _).
Qed.

(** The targets of a node, read back from a logical location. *)
Definition location_targets (loc : LogicalLocation) : list string :=
  split ";"%char (fullyQualifiedName loc).

(** C26.  The logical location of a node gives the targets of the node back
    exactly when the node has a target and no target holds a semicolon. *)
Theorem getLogicalLocations_targets node :
  location_targets <$> getLogicalLocations node = [node_target node]
  ↔ node_target node ≠ [] ∧ Forall (λ sel, ";"%char ∉ chars sel) (node_target node).
Proof.
  unfold getLogicalLocations, location_targets. simpl.
  rewrite <-split_join_iff. split; [by intros [= ->]|by intros ->].
Qed.

(** An undefined bucket is converted as an empty one. *)
Lemma convertRuleResults_bucket this resultArray ruleResults lv env :
  convertRuleResults this resultArray ruleResults lv env
  = convertRuleResults this resultArray (Some (bucket ruleResults)) lv env.
Proof. by destruct ruleResults. Qed.

(** The next call of [convertRuleResults] on both sides, for buckets that
    hold the same by [H]. *)
Local Ltac same_bucket H :=
  rewrite convertRuleResults_bucket, H, <-convertRuleResults_bucket;
  destruct (convertRuleResults _ _ _ _ _); simpl; [|done].

Lemma convertResults_buckets this results results' properties properties' :
  same_nodes results results' →
  convertResults this results properties = convertResults this results' properties'.
Proof.
  intros (Hv & Hp & Hi & Henv). unfold convertResults. rewrite Henv.
  same_bucket Hv. same_bucket Hp. same_bucket Hi.
  by rewrite !convertRuleResultsWithoutNodes_id.
Qed.

Lemma convertResults_proper this :
  Proper (same_nodes ==> (λ _ _, True) ==> (=)) (convertResults this).
Proof. intros results results' ? properties properties' _. by apply convertResults_buckets. Qed.

(** C21.  What [convertResults] reads of a document.  Two documents with the
    same rule results in the violations, the passes and the incomplete
    results, an undefined bucket counting as an empty one, and with the
    same environment data, give the same completion, whatever their
    inapplicable rules and whatever the properties passed. *)
Theorem convertResults_same_nodes this results results' properties properties' :
  same_nodes results results' →
  convertResults this results properties = convertResults this results' properties'.
Proof. apply convertResults_buckets. Qed.

(** The properties built from the options have no effect on the
    results. *)
Lemma convertResults_properties this results properties properties' :
  convertResults this results properties = convertResults this results properties'.
Proof. by apply convertResults_buckets. Qed.

End results.

(** ** The theorems on the sample documents *)

(** A converter on the sample collaborators, with a given value of the
    member [ruleIdsToRuleIndices]. *)
Definition sample_converter (indices : option (gmap string nat))
    : @SarifConverter21 sample_types :=
  {| tagsToWcagLinkData := sample_table;
     wcagLinkDataIndexer := new_WCAGLinkDataIndexer sample_table;
     getConverterToolProperties := @Providers.getConverterProperties _ sample_providers;
     getAxeProperties := @Providers.getAxeToolProperties21 _ sample_providers;
     invocationConverter := @Providers.getInvocations21 _ sample_providers;
     getArtifactProperties := @Providers.getArtifactProperties _ sample_providers;
     ruleIdsToRuleIndices := indices |}.

Definition sample_indices : gmap string nat :=
  {[ "image-alt" := 0; "frame-title" := 1 ]}.

(** The conversion of the sample document. *)
Lemma sample_convertResults :
  @convertResults sample_types sample_providers
    (sample_converter (Some sample_indices)) sample_results ∅
  = Normal (@results_spec sample_types sample_providers sample_indices sample_results).
Proof. by apply (@convertResults_Some sample_types sample_providers). Defined.

Lemma convertResults_spec_witness :
  @convertResults sample_types sample_providers
    (sample_converter (Some sample_indices)) sample_results ∅
  = Normal (@results_spec sample_types sample_providers sample_indices sample_results).
Proof. apply (@convertResults_spec sample_types sample_providers). reflexivity. Defined.

Lemma convertResults_undefined_witness :
  @convertResults sample_types sample_providers
    (sample_converter None) sample_results ∅
  = Throw (TypeErrorRead "ruleIdsToRuleIndices" "image-alt").
Proof.
  rewrite (@convertResults_undefined sample_types sample_providers); reflexivity.
Defined.

Lemma convertResults_length_witness :
  length <$> @convertResults sample_types sample_providers
    (sample_converter (Some sample_indices)) sample_results ∅
  = Normal 2.
Proof.
  rewrite (@convertResults_length sample_types sample_providers _ _ _ sample_indices);
    reflexivity.
Defined.

(** The results of the sample document: the violation before the pass,
    both at rule index 0, each with its selector and its message. *)
Example sample_results_converted :
  (λ res, (ruleId res, ruleIndex res, text (message res),
           fullyQualifiedName <$> (locations res ≫= logicalLocations)))
    <$> @results_spec sample_types sample_providers sample_indices sample_results
  = [ ("image-alt", Some 0,
       "Fix all of the following: role-none. Fix any of the following: Element has no <alt> attribute.",
       ["#main;img"]);
      ("image-alt", Some 0,
       "The following tests passed: Element has no <alt> attribute.",
       ["img.logo"]) ].
Proof. vm_compute. reflexivity. Qed.

Definition sample_first_result : @SarifResult sample_types :=
  @result_of sample_types sample_providers sample_indices "https://example.com/"
    level_error (rule_image_alt [node_img]) node_img.

Definition sample_second_result : @SarifResult sample_types :=
  @result_of sample_types sample_providers sample_indices "https://example.com/"
    level_pass (rule_image_alt [node_logo]) node_logo.

Lemma sample_first_result_elem_of :
  sample_first_result
  ∈ @results_spec sample_types sample_providers sample_indices sample_results.
Proof. left. Defined.

Lemma sample_second_result_elem_of :
  sample_second_result
  ∈ @results_spec sample_types sample_providers sample_indices sample_results.
Proof. right. left. Defined.

Lemma convertResults_elem_of_witness :
  ∃ r node lv, r ∈ node_bearing sample_results ∧ node ∈ rule_nodes r
    ∧ ruleId sample_first_result = rule_id r
    ∧ ruleIndex sample_first_result = sample_indices !! rule_id r
    ∧ message sample_first_result = convertMessage node lv
    ∧ ∃ loc, locations sample_first_result = [loc]
      ∧ snippet_text (snippet (region (physicalLocation loc))) = node_html node
      ∧ logicalLocations loc
        = [ {| fullyQualifiedName := join ";" (node_target node);
               kind := "element" |} ].
Proof.
  apply (@convertResults_elem_of sample_types sample_providers
    (sample_converter (Some sample_indices)) sample_results ∅ sample_indices
    (@results_spec sample_types sample_providers sample_indices sample_results));
    [reflexivity|apply sample_convertResults|apply sample_first_result_elem_of].
Defined.

Lemma convertResults_same_index_witness :
  ruleIndex sample_first_result = ruleIndex sample_second_result.
Proof.
  apply (@convertResults_same_index sample_types sample_providers
    (sample_converter (Some sample_indices)) sample_results ∅
    (@results_spec sample_types sample_providers sample_indices sample_results));
    [apply sample_convertResults|apply sample_first_result_elem_of
    |apply sample_second_result_elem_of|reflexivity].
Defined.

(** A node whose second target holds a semicolon, and a node without
    target. *)
Definition node_link : NodeResult :=
  {| node_html := "<a title='x;y'>"; node_target := ["#nav"; "a[title='x;y']"];
     node_any := []; node_all := []; node_none := [] |}.

Definition node_detached : NodeResult :=
  {| node_html := "<p>"; node_target := [];
     node_any := []; node_all := []; node_none := [] |}.

(** The targets of the first sample node are read back from its logical
    location; those of the two nodes above are not: the semicolon of a
    target splits it, and no target reads back as one empty target. *)
Example logical_location_targets :
  location_targets <$> getLogicalLocations node_img = [["#main"; "img"]]
  ∧ location_targets <$> getLogicalLocations node_link
    = [["#nav"; "a[title='x"; "y']"]]
  ∧ location_targets <$> getLogicalLocations node_detached = [[EmptyString]].
Proof. by vm_compute. Qed.

(** The sample document with its last two buckets undefined. *)
Definition sample_results_undefined : DecoratedAxeResults :=
  {| violations := violations sample_results; passes := passes sample_results;
     incomplete := None; inapplicable := None |}.

Lemma convertResults_same_nodes_witness :
  @convertResults sample_types sample_providers
    (sample_converter (Some sample_indices)) sample_results ∅
  = @convertResults sample_types sample_providers
    (sample_converter (Some sample_indices)) sample_results_undefined
    {[ "scanName" := "home page" ]}.
Proof.
  apply (@convertResults_same_nodes sample_types sample_providers). by repeat split.
Defined.

(** A dictionary that lacks the rule id: the read gives [undefined], the
    results are pushed without rule index and nothing is thrown. *)
Example stale_dictionary_results :
  fmap (M:=list) (λ res, (ruleId res, ruleIndex res))
    <$> @convertResults sample_types sample_providers
      (sample_converter (Some {[ "frame-title" := 0 ]})) sample_results ∅
  = Normal [("image-alt", None); ("image-alt", None)].
Proof. vm_compute. reflexivity. Qed.
