(* ===== verification/Machine.v ===== *)
(** * Machine: the loops of the result projector, step by step

    A transition semantics of [convertResults] of
    [src/src/sarif-converter-21.ts] and of the methods it calls.  The
    methods return nothing: they push into the one array that
    [convertResults] creates and hands to each call.  A configuration holds
    that array and the work that is left, as a stack of frames: the calls
    [convertResults] still has to make, and the loops that are running
    ([for (const ruleResult of ruleResults)] of [convertRuleResults] and of
    [convertRuleResultsWithoutNodes], [for (const node of ruleResult.nodes)]
    of [convertRuleResult]).  One transition is one call, one turn of a
    loop, the end of a loop, or the [return]; the turn of the loop over the
    nodes is [convertRuleResult_push], which can throw, and an exception
    abandons the array with the stack.

    [step] is the relation, [step_fn] the same as a function, [run] its
    iteration with fuel, [steps_left] the measure.  The array is a list
    that each transition replaces, so the model has one array by
    construction and cannot express a second reference to it.

    The theorems are stated against the specification of [Results], not
    against the functions: with the dictionary of rule indices defined, the
    array of every configuration reached, followed by what the stack will
    push, is the result list [results_spec]; and every configuration
    reached leads, within [steps_left] transitions, to the one final
    configuration of the specification ([specified_outcome]).  The lemmas
    that carry the proofs relate the transitions to the functions
    ([step_denote], [denote_initial]). *)

From S2P Require Import Prelude JsString AxeResults SarifLog Message.
From S2P Require Import WcagIndexer RuleLinker Collaborators Samples Results.

Section machine.
Context `{types : ExternalTypes} `{providers : !Providers.t}.

(** ** Configurations *)

(** What is left to do: a call that [convertResults] has not made yet,
    with its arguments, or a loop with the elements it has not visited. *)
Inductive frame : Type :=
| CallRuleResults (ruleResults : option (list DecoratedAxeResult)) (lv : level)
    (environmentData : EnvironmentData)
| CallRuleResultsWithoutNodes (ruleResults : option (list DecoratedAxeResult))
    (lv : level) (properties : gmap string string)
| LoopRuleResults (ruleResults : list DecoratedAxeResult) (lv : level)
    (environmentData : EnvironmentData)
| LoopNodes (ruleResult : DecoratedAxeResult) (nodes : list NodeResult)
    (lv : level) (environmentData : EnvironmentData)
| LoopRuleResultsWithoutNodes (ruleResults : list DecoratedAxeResult)
    (lv : level) (properties : gmap string string).

Inductive config : Type :=
| Running (resultArray : list SarifResult) (stack : list frame)
| Returned (resultArray : list SarifResult)
| Thrown (e : JsError).

(** [convertResults(results, properties)] when it is entered: the array
    is empty and the four calls are ahead. *)
Definition initial (results : DecoratedAxeResults)
    (properties : gmap string string) : config :=
  let resultArray := [] in
  let environmentData := Providers.getEnvironmentDataFromResults results in
  Running resultArray
    [ CallRuleResults (violations results) level_error environmentData;
      CallRuleResults (passes results) level_pass environmentData;
      CallRuleResults (incomplete results) level_open environmentData;
      CallRuleResultsWithoutNodes (inapplicable results) level_notApplicable
        properties ].

(** The configuration in which a completion leaves the caller. *)
Definition outcome (m : Completion (list SarifResult)) : config :=
  match m with
  | Normal resultArray => Returned resultArray
  | Throw e => Thrown e
  end.

Definition is_final (c : config) : bool :=
  match c with
  | Running _ _ => false
  | Returned _ | Thrown _ => true
  end.

Section steps.
Context (this : SarifConverter21).

Implicit Types (c : config) (k stack : list frame) (f : frame)
  (resultArray : list SarifResult) (ruleResult r : DecoratedAxeResult)
  (ruleResults rs : list DecoratedAxeResult) (node : NodeResult)
  (nodes : list NodeResult) (lv : level) (environmentData env : EnvironmentData)
  (properties : gmap string string) (indices : gmap string nat).

(** ** Transitions *)

Inductive step : relation config :=
| step_return resultArray :
    step (Running resultArray []) (Returned resultArray)
| step_call ruleResults lv env resultArray k :
    step (Running resultArray (CallRuleResults (Some ruleResults) lv env :: k))
         (Running resultArray (LoopRuleResults ruleResults lv env :: k))
| step_call_undefined lv env resultArray k :
    step (Running resultArray (CallRuleResults None lv env :: k))
         (Running resultArray k)
| step_rule ruleResult ruleResults lv env resultArray k :
    step (Running resultArray
            (LoopRuleResults (ruleResult :: ruleResults) lv env :: k))
         (Running resultArray
            (LoopNodes ruleResult (rule_nodes ruleResult) lv env
             :: LoopRuleResults ruleResults lv env :: k))
| step_rules_done lv env resultArray k :
    step (Running resultArray (LoopRuleResults [] lv env :: k))
         (Running resultArray k)
| step_node ruleResult node nodes lv env resultArray resultArray' k :
    convertRuleResult_push this ruleResult lv env resultArray node
      = Normal resultArray' →
    step (Running resultArray (LoopNodes ruleResult (node :: nodes) lv env :: k))
         (Running resultArray' (LoopNodes ruleResult nodes lv env :: k))
| step_node_throw ruleResult node nodes lv env resultArray e k :
    convertRuleResult_push this ruleResult lv env resultArray node = Throw e →
    step (Running resultArray (LoopNodes ruleResult (node :: nodes) lv env :: k))
         (Thrown e)
| step_nodes_done ruleResult lv env resultArray k :
    step (Running resultArray (LoopNodes ruleResult [] lv env :: k))
         (Running resultArray k)
| step_call_without_nodes ruleResults lv properties resultArray k :
    step (Running resultArray
            (CallRuleResultsWithoutNodes (Some ruleResults) lv properties :: k))
         (Running resultArray
            (LoopRuleResultsWithoutNodes ruleResults lv properties :: k))
| step_call_without_nodes_undefined lv properties resultArray k :
    step (Running resultArray
            (CallRuleResultsWithoutNodes None lv properties :: k))
         (Running resultArray k)
| step_rule_without_nodes ruleResult ruleResults lv properties resultArray k :
    step (Running resultArray
            (LoopRuleResultsWithoutNodes (ruleResult :: ruleResults) lv properties
             :: k))
         (Running resultArray
            (LoopRuleResultsWithoutNodes ruleResults lv properties :: k))
| step_rules_without_nodes_done lv properties resultArray k :
    step (Running resultArray (LoopRuleResultsWithoutNodes [] lv properties :: k))
         (Running resultArray k).

(** The transition of a running configuration with a frame on its stack. *)
Definition step_frame resultArray f k : config :=
  match f with
  | CallRuleResults (Some ruleResults) lv env =>
      Running resultArray (LoopRuleResults ruleResults lv env :: k)
  | CallRuleResults None lv env => Running resultArray k
  | LoopRuleResults (ruleResult :: ruleResults) lv env =>
      Running resultArray
        (LoopNodes ruleResult (rule_nodes ruleResult) lv env
         :: LoopRuleResults ruleResults lv env :: k)
  | LoopRuleResults [] lv env => Running resultArray k
  | LoopNodes ruleResult (node :: nodes) lv env =>
      match convertRuleResult_push this ruleResult lv env resultArray node with
      | Normal resultArray' =>
          Running resultArray' (LoopNodes ruleResult nodes lv env :: k)
      | Throw e => Thrown e
      end
  | LoopNodes ruleResult [] lv env => Running resultArray k
  | CallRuleResultsWithoutNodes (Some ruleResults) lv properties =>
      Running resultArray (LoopRuleResultsWithoutNodes ruleResults lv properties :: k)
  | CallRuleResultsWithoutNodes None lv properties => Running resultArray k
  | LoopRuleResultsWithoutNodes (ruleResult :: ruleResults) lv properties =>
      Running resultArray (LoopRuleResultsWithoutNodes ruleResults lv properties :: k)
  | LoopRuleResultsWithoutNodes [] lv properties => Running resultArray k
  end.

(** [step] as a function: a final configuration has no transition. *)
Definition step_fn c : option config :=
  match c with
  | Running resultArray [] => Some (Returned resultArray)
  | Running resultArray (f :: k) => Some (step_frame resultArray f k)
  | Returned _ | Thrown _ => None
  end.

(** Transitions as long as there is fuel and a transition. *)
Fixpoint run (fuel : nat) c : config :=
  match fuel with
  | 0 => c
  | S fuel => from_option (run fuel) c (step_fn c)
  end.

(** ** The measure: the transitions that are left when nothing throws *)

Definition nodes_steps nodes : nat := S (length nodes).

Definition rules_steps rs : nat :=
  S (sum_list ((λ r, S (nodes_steps (rule_nodes r))) <$> rs)).

Definition frame_steps f : nat :=
  match f with
  | CallRuleResults ruleResults _ _ => S (from_option rules_steps 0 ruleResults)
  | LoopRuleResults rs _ _ => rules_steps rs
  | LoopNodes _ nodes _ _ => nodes_steps nodes
  | CallRuleResultsWithoutNodes ruleResults _ _ =>
      S (from_option (λ rs, S (length rs)) 0 ruleResults)
  | LoopRuleResultsWithoutNodes rs _ _ => S (length rs)
  end.

Definition steps_left c : nat :=
  match c with
  | Running _ k => S (sum_list (frame_steps <$> k))
  | Returned _ | Thrown _ => 0
  end.

(** ** The functions of [Results] on a stack *)

(** What the work of a frame does to the array, by the functions of
    [Results]. *)
Definition run_frame f resultArray : Completion (list SarifResult) :=
  match f with
  | CallRuleResults ruleResults lv env =>
      convertRuleResults this resultArray ruleResults lv env
  | LoopRuleResults rs lv env =>
      convertRuleResults this resultArray (Some rs) lv env
  | LoopNodes r nodes lv env =>
      for_of (convertRuleResult_push this r lv env) nodes resultArray
  | CallRuleResultsWithoutNodes ruleResults lv properties =>
      convertRuleResultsWithoutNodes this resultArray ruleResults lv properties
  | LoopRuleResultsWithoutNodes rs lv properties =>
      convertRuleResultsWithoutNodes this resultArray (Some rs) lv properties
  end.

Definition run_stack k resultArray : Completion (list SarifResult) :=
  for_of (λ resultArray f, run_frame f resultArray) k resultArray.

(** The completion a configuration stands for. *)
Definition denote c : Completion (list SarifResult) :=
  match c with
  | Running resultArray k => run_stack k resultArray
  | Returned resultArray => Normal resultArray
  | Thrown e => Throw e
  end.

(** The results the frames of a stack will push, given the dictionary of
    rule indices. *)
Definition frame_results indices f : list SarifResult :=
  match f with
  | CallRuleResults ruleResults lv env =>
      bucket_results indices env lv (bucket ruleResults)
  | LoopRuleResults rs lv env => bucket_results indices env lv rs
  | LoopNodes r nodes lv env => result_of indices env lv r <$> nodes
  | CallRuleResultsWithoutNodes _ _ _ | LoopRuleResultsWithoutNodes _ _ _ => []
  end.

Definition stack_results indices k : list SarifResult :=
  k ≫= frame_results indices.

(** The final configuration that the specification gives a conversion:
    the result list when the dictionary of rule indices is defined; without
    it the [TypeError] at the first rule result with a node, or the empty
    array. *)
Definition specified_outcome results : config :=
  match ruleIdsToRuleIndices this with
  | Some indices => Returned (results_spec indices results)
  | None =>
      match first_with_nodes (node_bearing results) with
      | Some r => Thrown (TypeErrorRead "ruleIdsToRuleIndices" (rule_id r))
      | None => Returned []
      end
  end.

(** ** Lemmas: the relation and the function *)

(** The premise of the transition of a node, used as a rewrite rule. *)
Ltac rewrite_push :=
  select (convertRuleResult_push _ _ _ _ _ _ = _) (fun H => rewrite H).

Lemma step_fn_spec c c' : step c c' ↔ step_fn c = Some c'.
Proof.
  split.
  - destruct 1; simpl; try done; by rewrite_push.
  - destruct c as [resultArray [|f k]| |]; simpl; intros [= <-]; [constructor|].
    destruct f as [[rs|] lv env|[rs|] lv p|[|r rs] lv env
      |r [|node nodes] lv env|[|r rs] lv p]; simpl; try constructor.
    destruct (convertRuleResult_push _ _ _ _ _ _) eqn:Hpush; by constructor.
Qed.

Lemma step_deterministic : deterministic step.
Proof. intros c c1 c2 H1%step_fn_spec H2%step_fn_spec. congruence. Qed.

(** A running configuration has a transition, a final one has none. *)
Lemma running_red resultArray k : red step (Running resultArray k).
Proof. destruct k; eexists; by apply step_fn_spec. Qed.

Lemma nf_final c : nf step c ↔ is_final c = true.
Proof.
  destruct c; simpl; split; try done.
  - intros Hnf. destruct Hnf. apply running_red.
  - by intros _ [c' Hc'%step_fn_spec].
  - by intros _ [c' Hc'%step_fn_spec].
Qed.

Lemma final_outcome c : is_final c = true → outcome (denote c) = c.
Proof. by destruct c. Qed.

Lemma step_fn_final c : is_final c = true → step_fn c = None.
Proof. by destruct c. Qed.

(** ** Lemmas: the measure *)

Lemma step_steps_left c c' : step c c' → steps_left c' < steps_left c.
Proof. destruct 1; cbn; unfold rules_steps, nodes_steps; cbn; lia. Qed.

(** ** Lemmas: a transition keeps the completion *)

Lemma step_denote c c' : step c c' → denote c' = denote c.
Proof.
  destruct 1; simpl; unfold run_stack; rewrite ?for_of_cons; simpl;
    try done; try by rewrite_push.
  unfold convertRuleResult. by rewrite !bind_assoc.
Qed.

Lemma rtc_denote c c' : rtc step c c' → denote c' = denote c.
Proof. induction 1 as [|c1 c2 c3 H12 _ IH]; [done|]. by rewrite IH, (step_denote c1). Qed.

Lemma denote_initial results properties :
  denote (initial results properties) = convertResults this results properties.
Proof.
  unfold convertResults. simpl. unfold run_stack. simpl.
  repeat (destruct (convertRuleResults _ _ _ _ _); simpl; [|done]).
  by destruct (convertRuleResultsWithoutNodes _ _ _ _ _).
Qed.

(** The completion of the function [convertResults], in closed form. *)
Lemma convertResults_outcome results properties :
  outcome (convertResults this results properties) = specified_outcome results.
Proof.
  unfold specified_outcome. destruct (ruleIdsToRuleIndices this) as [indices|] eqn:Hi.
  - by rewrite (convertResults_Some _ _ _ indices).
  - rewrite convertResults_None by done. by destruct (first_with_nodes _).
Qed.

(** From every configuration the transitions lead, within [steps_left],
    to the configuration of its completion. *)
Lemma nsteps_outcome c :
  ∃ n, n ≤ steps_left c ∧ nsteps step n c (outcome (denote c)).
Proof.
  induction (sn_measure step steps_left step_steps_left c) as [c _ IH].
  destruct (is_final c) eqn:Hc.
  { exists 0. rewrite final_outcome by done. split; [lia|constructor]. }
  destruct c as [resultArray k| |]; try done.
  destruct (running_red resultArray k) as [c' Hstep].
  destruct (IH c' Hstep) as (n & Hn & Hsteps). exists (S n).
  rewrite <-(step_denote _ _ Hstep).
  apply step_steps_left in Hstep as Hlt. split; [lia|by econstructor].
Qed.

(** [steps_left] is enough fuel. *)
Lemma run_outcome fuel c :
  steps_left c ≤ fuel → run fuel c = outcome (denote c).
Proof.
  revert c. induction fuel as [|fuel IH]; intros c Hc.
  { destruct c; simpl in *; [lia|done..]. }
  cbn [run]. destruct (is_final c) eqn:Hfinal.
  { by rewrite step_fn_final, final_outcome. }
  destruct c as [resultArray k| |]; try done.
  destruct (running_red resultArray k) as [c' Hstep].
  rewrite (proj1 (step_fn_spec _ _) Hstep), <-(step_denote _ _ Hstep).
  apply IH. apply step_steps_left in Hstep. lia.
Qed.

(** [run] follows the transitions. *)
Lemma run_rtc fuel c : rtc step c (run fuel c).
Proof.
  revert c. induction fuel as [|fuel IH]; intros c; [done|]. cbn [run].
  destruct (step_fn c) as [c'|] eqn:Hstep; [|done].
  apply step_fn_spec in Hstep. by econstructor.
Qed.

(** ** Lemmas: the results a stack will push *)

Lemma run_frame_defined indices f resultArray :
  ruleIdsToRuleIndices this = Some indices →
  run_frame f resultArray = Normal (resultArray ++ frame_results indices f).
Proof.
  intros Hi. destruct f; unfold run_frame, frame_results;
    rewrite ?convertRuleResultsWithoutNodes_id, ?app_nil_r; try done.
  - by apply convertRuleResults_defined.
  - by rewrite (convertRuleResults_defined _ _ _ _ _ indices).
  - rewrite (for_of_fold _ (λ acc node, push acc (result_of indices _ _ _ node)))
      by (intros; by apply convertRuleResult_push_defined).
    by rewrite fold_left_push.
Qed.

Lemma run_stack_defined indices k resultArray :
  ruleIdsToRuleIndices this = Some indices →
  run_stack k resultArray = Normal (resultArray ++ stack_results indices k).
Proof. intros Hi. apply for_of_append. intros. by apply run_frame_defined. Qed.

(** ** Theorems *)

(** C15.  The machine reaches the specified result.  From every configuration
    that the transitions reach from the entry of [convertResults], the
    transitions go on, in at most [steps_left] steps, to the final
    configuration of the specification: with the dictionary of rule
    indices defined the return of the result list [results_spec], with
    the dictionary undefined the [TypeError] of the first rule result
    that has a node, or the return of the empty array when there is
    none.  [run] computes that configuration with [steps_left] as fuel,
    and the transitions end in no other. *)
Theorem machine_live results properties c :
  rtc step (initial results properties) c →
  (∃ n, n ≤ steps_left c ∧ nsteps step n c (specified_outcome results))
  ∧ run (steps_left c) c = specified_outcome results
  ∧ ∀ c', rtc step c c' → nf step c' → c' = specified_outcome results.
Proof.
  intros Hc%rtc_denote%(f_equal outcome).
  rewrite denote_initial, convertResults_outcome in Hc. rewrite <-Hc. split_and!; [apply nsteps_outcome|by apply run_outcome|].
  intros c' Hc' Hnf. destruct (nsteps_outcome c) as (n & _ & Hn%rtc_nsteps_2).
  eapply (deterministic_rtc_nf step); eauto using step_deterministic.
  apply nf_final. by destruct (denote c).
Qed.

(** C14.  The array grows along the result list.  With the dictionary of rule
    indices defined, in every configuration that the transitions reach the
    array followed by the results that the stack will push is the result
    list of the specification: the array is a prefix of it, nothing pushed
    is changed or removed later, and no reached configuration has thrown. *)
Theorem machine_prefix results properties indices c :
  ruleIdsToRuleIndices this = Some indices →
  rtc step (initial results properties) c →
  match c with
  | Running resultArray k =>
      resultArray ++ stack_results indices k = results_spec indices results
  | Returned resultArray => resultArray = results_spec indices results
  | Thrown _ => False
  end.
Proof.
  intros Hi Hc%rtc_denote.
  rewrite denote_initial, (convertResults_Some _ _ _ indices) in Hc by done.
  destruct c as [resultArray k| |]; simpl in Hc; [|by simplify_eq..].
  rewrite (run_stack_defined indices) in Hc by done. by simplify_eq.
Qed.

End steps.
End machine.

(** ** The machine on the sample document *)

#[local] Existing Instance sample_types.
#[local] Existing Instance sample_providers.

(** The configuration after six transitions on the sample document: the
    violation is converted and the loop over the passes is entered. *)
Definition sample_config : config :=
  run (sample_converter (Some sample_indices)) 6 (initial sample_results ∅).

Lemma machine_live_witness :
  (∃ n, n ≤ steps_left sample_config
    ∧ nsteps (step (sample_converter (Some sample_indices))) n sample_config
        (specified_outcome (sample_converter (Some sample_indices)) sample_results))
  ∧ run (sample_converter (Some sample_indices)) (steps_left sample_config)
      sample_config
    = specified_outcome (sample_converter (Some sample_indices)) sample_results
  ∧ ∀ c', rtc (step (sample_converter (Some sample_indices))) sample_config c' →
      nf (step (sample_converter (Some sample_indices))) c' →
      c' = specified_outcome (sample_converter (Some sample_indices)) sample_results.
Proof.
  apply (machine_live (sample_converter (Some sample_indices)) sample_results ∅
    sample_config).
  apply run_rtc.
Defined.

Lemma machine_prefix_witness :
  match sample_config with
  | Running resultArray k =>
      resultArray ++ stack_results sample_indices k
      = results_spec sample_indices sample_results
  | Returned resultArray => resultArray = results_spec sample_indices sample_results
  | Thrown _ => False
  end.
Proof.
  apply (machine_prefix (sample_converter (Some sample_indices)) sample_results ∅
    sample_indices sample_config); [reflexivity|apply run_rtc].
Defined.

(** The run on the sample document: the third transition pushes the
    first result; the machine returns at the sixteenth, with the two
    results; without the dictionary of rule indices the third transition
    throws. *)
Example machine_sample_run :
  steps_left (initial sample_results ∅) = 16
  ∧ (∃ k, run (sample_converter (Some sample_indices)) 2 (initial sample_results ∅)
      = Running [] k)
  ∧ (∃ k, run (sample_converter (Some sample_indices)) 3 (initial sample_results ∅)
      = Running [sample_first_result] k)
  ∧ run (sample_converter (Some sample_indices)) 15 (initial sample_results ∅)
    = Running [sample_first_result; sample_second_result] []
  ∧ run (sample_converter (Some sample_indices)) 16 (initial sample_results ∅)
    = Returned [sample_first_result; sample_second_result]
  ∧ (∃ k, run (sample_converter None) 2 (initial sample_results ∅) = Running [] k)
  ∧ run (sample_converter None) 3 (initial sample_results ∅)
    = Thrown (TypeErrorRead "ruleIdsToRuleIndices" "image-alt").
Proof. vm_compute. split_and!; eauto. Qed.
