(* ===== verification/Converter.v ===== *)
(** * Converter: the run and the log

    The run assembler of [src/src/sarif-converter-21.ts]: the constructor
    of [SarifConverter21] with its field initialisers
    ([new_SarifConverter21]), [defaultSarifConverter21], [convertRun] and
    [convert].  The properties of the object literal of the run are
    evaluated in the order of the source, so the first exception is the
    one thrown.  The theorems are proved for every instance of the
    collaborators and of the rule linker interface. *)

From S2P Require Import Prelude JsString AxeResults SarifLog Message.
From S2P Require Import WcagIndexer RuleLinker Collaborators Samples Results.

Section converter.
Context `{types : ExternalTypes} `{providers : !Providers.t} `{linker : !RuleLinker}.

Implicit Types (this : SarifConverter21) (results : DecoratedAxeResults)
  (options : option ConverterOptions) (run : Run) (log : Log)
  (indices : gmap string nat).

(** [new SarifConverter21(a, b, c, d)]: the field initialisers, then the
    parameter properties.  Nothing assigns [ruleIdsToRuleIndices]. *)
Definition new_SarifConverter21
    (getConverterToolProperties : unit → Conversion)
    (getAxeProperties : unit → ToolComponent)
    (invocationConverter : EnvironmentData → list Invocation)
    (getArtifactProperties : EnvironmentData → Artifact) : SarifConverter21 :=
  let tagsToWcagLinkData := Providers.axeTagsToWcagLinkData in
  let wcagLinkDataIndexer := new_WCAGLinkDataIndexer tagsToWcagLinkData in
  {| tagsToWcagLinkData := tagsToWcagLinkData;
     wcagLinkDataIndexer := wcagLinkDataIndexer;
     getConverterToolProperties := getConverterToolProperties;
     getAxeProperties := getAxeProperties;
     invocationConverter := invocationConverter;
     Results.getArtifactProperties := getArtifactProperties;
     ruleIdsToRuleIndices := None |}.

Definition defaultSarifConverter21 (_ : unit) : SarifConverter21 :=
  new_SarifConverter21
    Providers.getConverterProperties
    Providers.getAxeToolProperties21
    Providers.getInvocations21
    Providers.getArtifactProperties.

(** [run.properties!.testCaseId = v]: the assignment reads [run.properties]
    and writes the key into it. *)
Definition set_run_property (run : Run) (key value : string) : Completion Run :=
  p ← set_property "properties" (properties run) key value;
  mret {| conversion := conversion run; tool := tool run;
          invocations := invocations run; artifacts := artifacts run;
          SarifLog.results := SarifLog.results run; taxonomies := taxonomies run;
          properties := Some p |}.

Definition convertRun this results options : Completion Run :=
  let properties : gmap string string := ∅ in
  let properties :=
    match options with
    | Some o =>
        match scanName o with
        | Some name => {[ "scanName" := name ]}
        | None => properties
        end
    | None => properties
    end in
  let resultToRuleConverter :=
    new_ResultToRuleConverter results
      (getSortedWcagTags (wcagLinkDataIndexer this))
      (getWcagTagsToTaxaIndices (wcagLinkDataIndexer this)) in
  let conversion := getConverterToolProperties this () in
  let driver :=
    {| driver_properties := driver_properties (getAxeProperties this ());
       rules := Some (getRulePropertiesFromResults resultToRuleConverter) |} in
  let invocations :=
    invocationConverter this (Providers.getEnvironmentDataFromResults results) in
  let artifacts :=
    [Results.getArtifactProperties this
       (Providers.getEnvironmentDataFromResults results)] in
  resultArray ← convertResults this results properties;
  taxonomy ← getWcagTaxonomy (getSortedWcagTags (wcagLinkDataIndexer this))
    (tagsToWcagLinkData this);
  let run :=
    {| conversion := conversion; tool := {| driver := driver |};
       invocations := invocations; artifacts := artifacts;
       SarifLog.results := resultArray; taxonomies := [taxonomy];
       SarifLog.properties := None |} in
  run ← match options with
        | Some o =>
            match testCaseId o with
            | Some id => set_run_property run "testCaseId" id
            | None => mret run
            end
        | None => mret run
        end;
  let run :=
    match options with
    | Some o => match scanId o with Some _ => run | None => run end
    | None => run
    end in
  mret run.

Definition convert this results options : Completion Log :=
  run ← convertRun this results options;
  mret {| version := Providers.SarifLogVersion21_version; runs := [run] |}.

(** ** Specification *)

(** What the constructor establishes and nothing changes: the indexer is
    the indexer of the table of the converter. *)
Definition converter_wf this : Prop :=
  wcagLinkDataIndexer this = new_WCAGLinkDataIndexer (tagsToWcagLinkData this).

(** The run of a document, given its results and its taxonomy. *)
Definition run_of this results (resultArray : list SarifResult)
    (taxonomy : TaxonomyDescriptor) : Run :=
  {| conversion := getConverterToolProperties this ();
     tool := {| driver :=
       {| driver_properties := driver_properties (getAxeProperties this ());
          rules := Some (getRulePropertiesFromResults
            (new_ResultToRuleConverter results
              (getSortedWcagTags (wcagLinkDataIndexer this))
              (getWcagTagsToTaxaIndices (wcagLinkDataIndexer this)))) |} |};
     invocations :=
       invocationConverter this (Providers.getEnvironmentDataFromResults results);
     artifacts :=
       [Results.getArtifactProperties this
          (Providers.getEnvironmentDataFromResults results)];
     SarifLog.results := resultArray;
     taxonomies := [taxonomy];
     SarifLog.properties := None |}.

(** The test case id of the options, when there is one. *)
Definition option_testCaseId options : option string := options ≫= testCaseId.

(** ** Lemmas *)

Lemma new_SarifConverter21_wf a b c d : converter_wf (new_SarifConverter21 a b c d).
Proof. done. Qed.

Lemma new_SarifConverter21_indices a b c d :
  ruleIdsToRuleIndices (new_SarifConverter21 a b c d) = None.
Proof. done. Qed.

Lemma set_run_property_throws run key value :
  SarifLog.properties run = None →
  set_run_property run key value = Throw (TypeErrorWrite "properties" key).
Proof. intros Hp. unfold set_run_property. by rewrite Hp. Qed.

(** [convertRun] in three steps: the results, the taxonomy, the test case
    id; the scan name and the scan id play no part. *)
Lemma convertRun_eq this results options :
  convertRun this results options
  = resultArray ← convertResults this results ∅;
    taxonomy ← getWcagTaxonomy (getSortedWcagTags (wcagLinkDataIndexer this))
      (tagsToWcagLinkData this);
    match option_testCaseId options with
    | Some _ => Throw (TypeErrorWrite "properties" "testCaseId")
    | None => Normal (run_of this results resultArray taxonomy)
    end.
Proof.
  unfold convertRun. rewrite (convertResults_properties _ _ _ ∅).
  destruct (convertResults this results ∅) as [resultArray|]; [simpl|done].
  destruct (getWcagTaxonomy _ _) as [taxonomy|]; [simpl|done].
  destruct options as [[[id|] ? [?|]]|]; done.
Qed.

(** A run that is returned: the results and the taxonomy were built and
    the options carry no test case id. *)
Lemma convertRun_Normal_inv this results options run :
  convertRun this results options = Normal run →
  ∃ resultArray taxonomy,
    convertResults this results ∅ = Normal resultArray
    ∧ getWcagTaxonomy (getSortedWcagTags (wcagLinkDataIndexer this))
        (tagsToWcagLinkData this) = Normal taxonomy
    ∧ option_testCaseId options = None
    ∧ run = run_of this results resultArray taxonomy.
Proof.
  rewrite convertRun_eq.
  intros (resultArray & ? & (taxonomy & ? & Hrun)%bind_Normal_inv)%bind_Normal_inv.
  exists resultArray, taxonomy. by destruct (option_testCaseId options); simplify_eq.
Qed.

(** The taxonomy of a well-formed converter never throws, and has one
    taxon per tag of the indexer. *)
Lemma converter_taxonomy this :
  converter_wf this →
  ∃ taxonomy,
    getWcagTaxonomy (getSortedWcagTags (wcagLinkDataIndexer this))
      (tagsToWcagLinkData this) = Normal taxonomy
    ∧ length (taxa taxonomy) = length (getSortedWcagTags (wcagLinkDataIndexer this)).
Proof. intros ->. apply getWcagTaxonomy_indexer. Qed.

Lemma converter_tags_indexed this :
  converter_wf this →
  tags_indexed (getSortedWcagTags (wcagLinkDataIndexer this))
    (getWcagTagsToTaxaIndices (wcagLinkDataIndexer this)).
Proof. intros ->. apply indexer_tags_indexed. Qed.

(** ** Theorems on every converter *)

(** C8.  A conversion with a test case id always throws: when the results
    and the taxonomy are built, the assignment to [run.properties] finds
    no such object. *)
Theorem convertRun_testCaseId_throws this results o id :
  testCaseId o = Some id →
  is_throw (convertRun this results (Some o)) = true.
Proof.
  intros Hid. rewrite convertRun_eq. unfold option_testCaseId. simpl. rewrite Hid.
  destruct (convertResults _ _ _); [simpl|done]. by destruct (getWcagTaxonomy _ _).
Qed.

(** C10.  The scan name and the scan id of the options have no effect on
    the run: two option objects with the same test case id give the same
    completion. *)
Theorem convertRun_scanName_ignored this results o o' :
  testCaseId o = testCaseId o' →
  convertRun this results (Some o) = convertRun this results (Some o').
Proof.
  intros Hid. rewrite !convertRun_eq. unfold option_testCaseId. simpl.
  by rewrite Hid.
Qed.

(** C30.  A run that is returned has no [properties]: neither the scan
    name nor the test case id reaches the output. *)
Theorem convertRun_no_properties this results options run :
  convertRun this results options = Normal run →
  SarifLog.properties run = None.
Proof. by intros (resultArray & taxonomy & _ & _ & _ & ->)%convertRun_Normal_inv. Qed.

(** C11.  What a run takes from the collaborators.  A run that is returned
    carries the conversion of [getConverterToolProperties], the
    invocations and the one artifact that the collaborators give for the
    environment data of the document, and a driver with the properties of
    [getAxeProperties], whose rule list is replaced by the rule list of
    the linker built from the document and the indexer of the
    converter. *)
Theorem convertRun_collaborators this results options run :
  convertRun this results options = Normal run →
  conversion run = getConverterToolProperties this ()
  ∧ driver_properties (driver (tool run))
    = driver_properties (getAxeProperties this ())
  ∧ rules (driver (tool run))
    = Some (getRulePropertiesFromResults
        (new_ResultToRuleConverter results
          (getSortedWcagTags (wcagLinkDataIndexer this))
          (getWcagTagsToTaxaIndices (wcagLinkDataIndexer this))))
  ∧ invocations run
    = invocationConverter this (Providers.getEnvironmentDataFromResults results)
  ∧ artifacts run
    = [Results.getArtifactProperties this
         (Providers.getEnvironmentDataFromResults results)].
Proof. by intros (resultArray & taxonomy & _ & _ & _ & ->)%convertRun_Normal_inv. Qed.

(** The completion of [convertRun] on a well-formed converter whose
    dictionary of rule indices is defined. *)
Lemma convertRun_defined this results options indices :
  converter_wf this → ruleIdsToRuleIndices this = Some indices →
  ∃ taxonomy,
    length (taxa taxonomy) = length (getSortedWcagTags (wcagLinkDataIndexer this))
    ∧ convertRun this results options
      = match option_testCaseId options with
        | Some _ => Throw (TypeErrorWrite "properties" "testCaseId")
        | None => Normal (run_of this results (results_spec indices results) taxonomy)
        end.
Proof.
  intros (taxonomy & Ht & Hlen)%converter_taxonomy Hi. exists taxonomy.
  split; [done|].
  by rewrite convertRun_eq, (convertResults_Some _ _ _ indices), Ht.
Qed.

(** C4.  The converter as constructed, with [ruleIdsToRuleIndices] left
    undefined: the conversion throws at the first rule result with a node,
    else at the test case id, and else returns a log of one run without
    results. *)
Theorem convert_constructed a b c d results options :
  ∃ taxonomy,
    convert (new_SarifConverter21 a b c d) results options
    = match first_with_nodes (node_bearing results) with
      | Some r => Throw (TypeErrorRead "ruleIdsToRuleIndices" (rule_id r))
      | None =>
          match option_testCaseId options with
          | Some _ => Throw (TypeErrorWrite "properties" "testCaseId")
          | None => Normal
              {| version := Providers.SarifLogVersion21_version;
                 runs := [run_of (new_SarifConverter21 a b c d) results [] taxonomy] |}
          end
      end.
Proof.
  destruct (converter_taxonomy (new_SarifConverter21 a b c d)) as (taxonomy & Ht & _);
    [done|].
  exists taxonomy. unfold convert.
  rewrite convertRun_eq, convertResults_None by done.
  destruct (first_with_nodes _); [done|].
  rewrite bind_Normal, Ht. by destruct (option_testCaseId options).
Qed.

(** C17.  The taxonomy of a run.  In a run returned by a well-formed converter
    the one taxonomy lists the guideline tags of the table in the order of
    the tags: the taxon at a position carries that position as its index,
    and the title and the url of the tag at that position. *)
Theorem convertRun_taxonomy_indices this results options run :
  converter_wf this →
  convertRun this results options = Normal run →
  ∃ taxonomy, taxonomies run = [taxonomy]
    ∧ length (taxa taxonomy) = size (tagsToWcagLinkData this)
    ∧ StronglySorted String.le (getSortedWcagTags (wcagLinkDataIndexer this))
    ∧ ∀ i taxon, taxa taxonomy !! i = Some taxon →
        taxon_index taxon = i
        ∧ ∃ tag data,
            getSortedWcagTags (wcagLinkDataIndexer this) !! i = Some tag
            ∧ tagsToWcagLinkData this !! tag = Some data
            ∧ taxon = taxon_of data i.
Proof.
  intros Hwf (resultArray & taxonomy & _ & Ht & _ & ->)%convertRun_Normal_inv.
  destruct (converter_taxonomy this Hwf) as (taxonomy' & Ht' & Hlen).
  assert (taxonomy' = taxonomy) as -> by congruence.
  pose proof (tags_sorted _ _ (converter_tags_indexed this Hwf)) as Hsorted.
  exists taxonomy. rewrite Hwf in *.
  split_and!; [done|by rewrite Hlen; apply indexer_tags_length|done|].
  intros i taxon (tag & data & ? & ? & ->)%(getWcagTaxonomy_indexer_taxon _ _ _ _ Ht).
  split; [done|]. by exists tag, data.
Qed.

Section with_laws.
Context `{!RuleLinkerLaws}.

(** A result of the specification, built with the dictionary of the
    linker, names the rule of the linker at its rule index. *)
Lemma results_spec_linked results sortedTags indices res :
  let linked := new_ResultToRuleConverter results sortedTags indices in
  res ∈ results_spec (getRuleIdsToRuleIndices linked) results →
  ∃ i rule, ruleIndex res = Some i
    ∧ getRulePropertiesFromResults linked !! i = Some rule
    ∧ rd_id rule = ruleId res ∧ rd_index rule = i.
Proof.
  intros linked (r & _ & _ & Hr & _ & -> & -> & _)%results_spec_elem_of.
  apply node_bearing_subset, (list_elem_of_fmap_2 rule_id) in Hr.
  apply (linker_rule_ids results sortedTags indices), list_elem_of_lookup in Hr
    as [i Hr].
  rewrite list_lookup_fmap in Hr. exists i.
  destruct (_ !! i) as [rule|] eqn:Hrule; [|done]. exists rule.
  split_and!; [by apply linker_index; rewrite Hrule|done|by injection Hr|].
  by eapply linker_rule_index.
Qed.

(** C1.  Index integrity.  On a well-formed converter whose dictionary of
    rule indices is the one of the rule linker, a conversion without test
    case id returns a log of one run, and every result of the run names a
    rule of the rule list of the run: the rule at its rule index has its
    rule id, and that rule carries the same index. *)
Theorem convert_index_integrity this results options :
  converter_wf this →
  ruleIdsToRuleIndices this
  = Some (getRuleIdsToRuleIndices
      (new_ResultToRuleConverter results
        (getSortedWcagTags (wcagLinkDataIndexer this))
        (getWcagTagsToTaxaIndices (wcagLinkDataIndexer this)))) →
  option_testCaseId options = None →
  ∃ run,
    convert this results options
    = Normal {| version := Providers.SarifLogVersion21_version; runs := [run] |}
    ∧ ∀ res, res ∈ SarifLog.results run →
        ∃ i rule, ruleIndex res = Some i ∧ run_rules run !! i = Some rule
          ∧ rd_id rule = ruleId res ∧ rd_index rule = i.
Proof.
  intros Hwf Hi Hopt.
  destruct (convertRun_defined this results options _ Hwf Hi) as (taxonomy & _ & Hrun).
  rewrite Hopt in Hrun. eexists. unfold convert. rewrite Hrun. split; [done|].
  apply results_spec_linked.
Qed.

(** C5.  Taxonomy coverage.  In a run returned by a well-formed
    converter, every taxon index of every rule is a position of the one
    taxonomy of the run. *)
Theorem convertRun_taxonomy_coverage this results options run :
  converter_wf this →
  convertRun this results options = Normal run →
  ∃ taxonomy, taxonomies run = [taxonomy]
    ∧ ∀ rule t, rule ∈ run_rules run → t ∈ rd_taxa rule → t < length (taxa taxonomy).
Proof.
  intros Hwf (resultArray & taxonomy & _ & Ht & _ & ->)%convertRun_Normal_inv.
  destruct (converter_taxonomy this Hwf) as (taxonomy' & Ht' & Hlen).
  assert (taxonomy' = taxonomy) as -> by congruence.
  exists taxonomy. split; [done|]. intros rule t Hrule Htaxa. rewrite Hlen.
  eapply linker_taxa; [by apply converter_tags_indexed|exact Hrule|done].
Qed.

(** C23.  A document without any rule result: a conversion without test
    case id returns a log of one run with no rule and no result, and with
    the one taxonomy of the whole table of guideline tags. *)
Theorem convert_empty a b c d results options :
  all_rule_results results = [] → option_testCaseId options = None →
  ∃ run taxonomy,
    convert (new_SarifConverter21 a b c d) results options
    = Normal {| version := Providers.SarifLogVersion21_version; runs := [run] |}
    ∧ run_rules run = [] ∧ SarifLog.results run = []
    ∧ taxonomies run = [taxonomy]
    ∧ length (taxa taxonomy) = size Providers.axeTagsToWcagLinkData.
Proof.
  intros Hempty Hopt.
  destruct (converter_taxonomy (new_SarifConverter21 a b c d)) as (taxonomy & Ht & Hlen);
    [done|].
  exists (run_of (new_SarifConverter21 a b c d) results [] taxonomy), taxonomy.
  unfold convert. rewrite convertRun_eq, convertResults_None by done.
  assert (node_bearing results = []) as ->
    by (by apply app_eq_nil in Hempty as [? _]).
  rewrite first_with_nodes_nil, bind_Normal, Ht, Hopt.
  split_and!; [done| |done|done|by rewrite Hlen; apply indexer_tags_length].
  apply elem_of_nil_inv. intros rule Hrule.
  apply (list_elem_of_fmap_2 rd_id) in Hrule. simpl in Hrule.
  apply linker_rule_ids in Hrule.
  rewrite Hempty in Hrule. by apply elem_of_nil in Hrule.
Qed.

(** C16.  Cross references of rules and taxonomy.  In a run returned by a
    well-formed converter every taxon index of a rule designates, in the
    taxonomy of the run, the taxon of a guideline tag that a rule result of
    the document with the id of the rule carries. *)
Theorem convertRun_rule_taxa this results options run rule t :
  converter_wf this →
  convertRun this results options = Normal run →
  rule ∈ run_rules run → t ∈ rd_taxa rule →
  ∃ r tag data taxonomy,
    r ∈ all_rule_results results ∧ rule_id r = rd_id rule ∧ tag ∈ rule_tags r
    ∧ tagsToWcagLinkData this !! tag = Some data
    ∧ taxonomies run = [taxonomy]
    ∧ taxa taxonomy !! t = Some (taxon_of data t).
Proof.
  intros Hwf (resultArray & taxonomy & _ & Ht & _ & ->)%convertRun_Normal_inv.
  intros Hrule Htaxa.
  destruct (linker_taxa_tags _ _ _ _ _ Hrule Htaxa) as (r & tag & ? & ? & ? & Hi).
  apply (tags_index _ _ (converter_tags_indexed this Hwf)) in Hi.
  rewrite Hwf in Ht, Hi.
  destruct (getWcagTaxonomy_indexer_lookup _ _ _ _ Ht Hi) as (data & ? & ?).
  by exists r, tag, data, taxonomy.
Qed.

End with_laws.

End converter.

(** ** The order of the rules, with the linker of the specification *)

Section rule_order.
Context `{ExternalTypes} `{!Providers.t}.
Implicit Types (this : SarifConverter21) (results : DecoratedAxeResults)
  (options : option ConverterOptions) (run : Run).

(** C19.  The rule list of a run, with the linker of section 4.2 of the
    specification: its rule ids are the rule ids of the document in the
    order of their first occurrence, the violations read first, then the
    passes, the incomplete results and the inapplicable rules, so that no
    id stands twice; and every rule carries its position as its index. *)
Theorem convertRun_rule_order_first_appearance this results options run :
  convertRun (linker:=first_appearance_linker) this results options = Normal run →
  rd_id <$> run_rules run = first_occurrences (rule_id <$> all_rule_results results)
  ∧ rd_index <$> run_rules run = seq 0 (length (run_rules run)).
Proof.
  intros (resultArray & taxonomy & _ & _ & _ & ->)%convertRun_Normal_inv.
  split; [apply first_appearance_rule_ids|].
  apply indexed_lookup. intros i rule.
  apply (@linker_rule_index _ first_appearance_linker_laws results).
Qed.

End rule_order.

(** ** The theorems on the sample documents *)

(** The sample converter with the dictionary of the first-appearance
    linker for a document. *)
Definition linked_converter (results : DecoratedAxeResults)
    : @SarifConverter21 sample_types :=
  sample_converter (Some
    (@getRuleIdsToRuleIndices first_appearance_linker
      (@new_ResultToRuleConverter first_appearance_linker results
        (getSortedWcagTags (new_WCAGLinkDataIndexer sample_table))
        (getWcagTagsToTaxaIndices (new_WCAGLinkDataIndexer sample_table))))).

Definition options_with_testCaseId : ConverterOptions :=
  {| testCaseId := Some "case-7"; scanName := Some "home page"; scanId := None |}.

Definition options_with_scanName : ConverterOptions :=
  {| testCaseId := None; scanName := Some "home page"; scanId := Some "42" |}.

Definition no_options : ConverterOptions :=
  {| testCaseId := None; scanName := None; scanId := None |}.

Lemma convertRun_testCaseId_throws_witness :
  is_throw (@convertRun sample_types sample_providers first_appearance_linker
    (linked_converter sample_results) sample_results (Some options_with_testCaseId))
  = true.
Proof.
  apply (@convertRun_testCaseId_throws sample_types sample_providers
    first_appearance_linker _ _ options_with_testCaseId "case-7").
  reflexivity.
Defined.

Lemma convertRun_scanName_ignored_witness :
  @convertRun sample_types sample_providers first_appearance_linker
    (linked_converter sample_results) sample_results (Some options_with_scanName)
  = @convertRun sample_types sample_providers first_appearance_linker
    (linked_converter sample_results) sample_results (Some no_options).
Proof.
  apply (@convertRun_scanName_ignored sample_types sample_providers
    first_appearance_linker). reflexivity.
Defined.

(** The run of the sample document. *)
Definition sample_run : @Run sample_types :=
  Eval vm_compute in
    match @convertRun sample_types sample_providers first_appearance_linker
      (linked_converter sample_results) sample_results (Some options_with_scanName)
    with
    | Normal run => run
    | Throw _ => @run_of sample_types sample_providers first_appearance_linker
        (linked_converter sample_results) sample_results [] {| taxa := [] |}
    end.

Lemma sample_run_returned :
  @convertRun sample_types sample_providers first_appearance_linker
    (linked_converter sample_results) sample_results (Some options_with_scanName)
  = Normal sample_run.
Proof. vm_compute. reflexivity. Defined.

Lemma convertRun_no_properties_witness : SarifLog.properties sample_run = None.
Proof.
  apply (@convertRun_no_properties sample_types sample_providers
    first_appearance_linker (linked_converter sample_results) sample_results
    (Some options_with_scanName)).
  apply sample_run_returned.
Defined.

Lemma convertRun_collaborators_witness :
  conversion sample_run = "axe-sarif-converter"
  ∧ driver_properties (driver (tool sample_run)) = "axe-core"
  ∧ rules (driver (tool sample_run))
    = Some (@getRulePropertiesFromResults first_appearance_linker
        (@new_ResultToRuleConverter first_appearance_linker sample_results
          (getSortedWcagTags (new_WCAGLinkDataIndexer sample_table))
          (getWcagTagsToTaxaIndices (new_WCAGLinkDataIndexer sample_table))))
  ∧ invocations sample_run = ["https://example.com/"]
  ∧ artifacts sample_run = ["https://example.com/"].
Proof.
  apply (@convertRun_collaborators sample_types sample_providers
    first_appearance_linker (linked_converter sample_results) sample_results
    (Some options_with_scanName)).
  apply sample_run_returned.
Defined.

Lemma convert_index_integrity_witness :
  ∃ run,
    @convert sample_types sample_providers first_appearance_linker
      (linked_converter sample_results) sample_results (Some options_with_scanName)
    = Normal {| version := "2.1.0"; runs := [run] |}
    ∧ ∀ res, res ∈ SarifLog.results run →
        ∃ i rule, ruleIndex res = Some i ∧ run_rules run !! i = Some rule
          ∧ rd_id rule = ruleId res ∧ rd_index rule = i.
Proof.
  apply (@convert_index_integrity sample_types sample_providers
    first_appearance_linker first_appearance_linker_laws); reflexivity.
Defined.

Lemma convertRun_taxonomy_coverage_witness :
  ∃ taxonomy, taxonomies sample_run = [taxonomy]
    ∧ ∀ rule t, rule ∈ run_rules sample_run → t ∈ rd_taxa rule →
        t < length (taxa taxonomy).
Proof.
  apply (@convertRun_taxonomy_coverage sample_types sample_providers
    first_appearance_linker first_appearance_linker_laws
    (linked_converter sample_results) sample_results (Some options_with_scanName));
    [reflexivity|apply sample_run_returned].
Defined.

Lemma convertRun_taxonomy_indices_witness :
  ∃ taxonomy, taxonomies sample_run = [taxonomy]
    ∧ length (taxa taxonomy) = size (tagsToWcagLinkData (linked_converter sample_results))
    ∧ StronglySorted String.le
        (getSortedWcagTags (wcagLinkDataIndexer (linked_converter sample_results)))
    ∧ ∀ i taxon, taxa taxonomy !! i = Some taxon →
        taxon_index taxon = i
        ∧ ∃ tag data,
            getSortedWcagTags (wcagLinkDataIndexer (linked_converter sample_results)) !! i
            = Some tag
            ∧ tagsToWcagLinkData (linked_converter sample_results) !! tag = Some data
            ∧ taxon = taxon_of data i.
Proof.
  apply (@convertRun_taxonomy_indices sample_types sample_providers
    first_appearance_linker
    (linked_converter sample_results) sample_results (Some options_with_scanName));
    [reflexivity|apply sample_run_returned].
Defined.

(** The rule of the images in the sample run, tagged with [wcag111]. *)
Definition sample_rule : RuleDescriptor :=
  {| rd_id := "image-alt"; rd_index := 0; rd_taxa := [0] |}.

Lemma convertRun_rule_taxa_witness :
  ∃ r tag data taxonomy,
    r ∈ all_rule_results sample_results ∧ rule_id r = rd_id sample_rule
    ∧ tag ∈ rule_tags r
    ∧ tagsToWcagLinkData (linked_converter sample_results) !! tag = Some data
    ∧ taxonomies sample_run = [taxonomy]
    ∧ taxa taxonomy !! 0 = Some (taxon_of data 0).
Proof.
  apply (@convertRun_rule_taxa sample_types sample_providers
    first_appearance_linker first_appearance_linker_laws
    (linked_converter sample_results) sample_results (Some options_with_scanName)
    sample_run sample_rule 0);
    [reflexivity|apply sample_run_returned|vm_compute; left|vm_compute; left].
Defined.

Lemma convertRun_rule_order_first_appearance_witness :
  rd_id <$> run_rules sample_run
  = first_occurrences (rule_id <$> all_rule_results sample_results)
  ∧ rd_index <$> run_rules sample_run = seq 0 (length (run_rules sample_run)).
Proof.
  apply (@convertRun_rule_order_first_appearance sample_types sample_providers
    (linked_converter sample_results) sample_results (Some options_with_scanName)).
  apply sample_run_returned.
Defined.

Lemma convert_empty_witness :
  ∃ run taxonomy,
    @convert sample_types sample_providers first_appearance_linker
      (@defaultSarifConverter21 sample_types sample_providers ()) empty_results None
    = Normal {| version := "2.1.0"; runs := [run] |}
    ∧ run_rules run = [] ∧ SarifLog.results run = []
    ∧ taxonomies run = [taxonomy]
    ∧ length (taxa taxonomy) = 3.
Proof.
  apply (@convert_empty sample_types sample_providers first_appearance_linker
    first_appearance_linker_laws); reflexivity.
Defined.

(** The run of the sample document: the rule list, the rule index of each
    result, and the taxa. *)
Example sample_run_shape :
  run_rules sample_run
  = [ {| rd_id := "image-alt"; rd_index := 0; rd_taxa := [0] |};
      {| rd_id := "frame-title"; rd_index := 1; rd_taxa := [2] |} ]
  ∧ (λ res, (ruleId res, ruleIndex res)) <$> SarifLog.results sample_run
    = [("image-alt", Some 0); ("image-alt", Some 0)]
  ∧ taxon_title <$> (taxonomies sample_run ≫= taxa)
    = ["WCAG 1.1.1"; "WCAG 1.3.1"; "WCAG 4.1.2"].
Proof. vm_compute. done. Qed.

(** The default converter on the sample document throws: the document has
    a node. *)
Example default_converter_throws :
  @convert sample_types sample_providers first_appearance_linker
    (@defaultSarifConverter21 sample_types sample_providers ()) sample_results None
  = Throw (TypeErrorRead "ruleIdsToRuleIndices" "image-alt").
Proof. vm_compute. reflexivity. Qed.

(** The default converter on a document without nodes returns a log of one
    run with the rules of the document and no result. *)
Example default_converter_nodeless :
  (λ log, (version log,
      (λ run, (rd_id <$> run_rules run, length (SarifLog.results run))) <$> runs log))
    <$> @convert sample_types sample_providers first_appearance_linker
      (@defaultSarifConverter21 sample_types sample_providers ()) nodeless_results None
  = Normal ("2.1.0", [(["image-alt"; "frame-title"], 0)]).
Proof. vm_compute. reflexivity. Qed.
