(* ===== verification/LogWf.v ===== *)
(** * LogWf: the shape of a log

    The invariants of the data model that a log has to keep, as a
    predicate on the output types of [SarifLog]: one run; the rules at
    their own index and without a repeated id; every result with the index
    of the rule of its id and with one location of one logical location of
    kind [element]; one taxonomy, its taxa at their own index; the taxa of
    the rules positions of the taxonomy.  The predicate is decidable, so
    [decide] checks a given log.  The theorem: a log that [convert] of
    [src/src/sarif-converter-21.ts] returns has this shape, when the
    member [ruleIdsToRuleIndices] is undefined or holds the dictionary of
    the linker. *)

From S2P Require Import Prelude JsString AxeResults SarifLog Message.
From S2P Require Import WcagIndexer RuleLinker Collaborators Samples Results.
From S2P Require Import Converter.

Section log_wf.
Context `{types : ExternalTypes}.

Implicit Types (rules : list RuleDescriptor) (rule : RuleDescriptor)
  (res : SarifResult) (taxonomy : TaxonomyDescriptor) (run : Run) (log : Log).

(** ** The predicate *)

(** The rule that the rule index of a result designates. *)
Definition result_rule rules res : option RuleDescriptor :=
  ruleIndex res ≫= λ i, rules !! i.

Definition result_wf rules res : Prop :=
  rd_id <$> result_rule rules res = Some (ruleId res)
  ∧ (λ loc, kind <$> logicalLocations loc) <$> locations res = [["element"]].

Definition taxonomy_wf taxonomy : Prop := indexed taxon_index (taxa taxonomy).

Definition rule_wf (taxonomies : list TaxonomyDescriptor) rule : Prop :=
  Forall (λ taxonomy, Forall (λ t, t < length (taxa taxonomy)) (rd_taxa rule))
    taxonomies.

Definition run_wf run : Prop :=
  indexed rd_index (run_rules run)
  ∧ NoDup (rd_id <$> run_rules run)
  ∧ Forall (result_wf (run_rules run)) (SarifLog.results run)
  ∧ length (taxonomies run) = 1
  ∧ Forall taxonomy_wf (taxonomies run)
  ∧ Forall (rule_wf (taxonomies run)) (run_rules run).

Definition log_wf log : Prop := length (runs log) = 1 ∧ Forall run_wf (runs log).

#[export] Instance result_wf_dec rules res : Decision (result_wf rules res).
Proof. unfold result_wf. apply _. Defined.
#[export] Instance taxonomy_wf_dec taxonomy : Decision (taxonomy_wf taxonomy).
Proof. unfold taxonomy_wf. apply _. Defined.
#[export] Instance rule_wf_dec taxonomies rule : Decision (rule_wf taxonomies rule).
Proof. unfold rule_wf. apply _. Defined.
#[export] Instance run_wf_dec run : Decision (run_wf run).
Proof. unfold run_wf. apply _. Defined.
#[export] Instance log_wf_dec log : Decision (log_wf log).
Proof. unfold log_wf. apply _. Defined.

(** ** What the shape gives *)

(** Index integrity, as a reader of the log uses it. *)
Lemma result_wf_rule rules res :
  indexed rd_index rules → result_wf rules res →
  ∃ i rule, ruleIndex res = Some i ∧ rules !! i = Some rule
    ∧ rd_id rule = ruleId res ∧ rd_index rule = i.
Proof.
  intros Hrules [Hres _]. unfold result_rule in Hres.
  destruct (ruleIndex res) as [i|]; [|done]. simpl in Hres.
  destruct (rules !! i) as [rule|] eqn:Hrule; [|done]. exists i, rule.
  simpl in Hres. split_and!; [done|done|congruence|by eapply indexed_lookup].
Qed.

Lemma run_wf_result run res :
  run_wf run → res ∈ SarifLog.results run →
  ∃ i rule, ruleIndex res = Some i ∧ run_rules run !! i = Some rule
    ∧ rd_id rule = ruleId res ∧ rd_index rule = i.
Proof.
  intros (Hrules & _ & Hres & _) Hin. rewrite Forall_forall in Hres.
  by apply result_wf_rule, Hres.
Qed.

Lemma run_wf_taxa run rule t :
  run_wf run → rule ∈ run_rules run → t ∈ rd_taxa rule →
  ∃ taxonomy, taxonomies run = [taxonomy] ∧ t < length (taxa taxonomy).
Proof.
  intros (_ & _ & _ & Hlen & _ & Htaxa) Hrule Ht.
  destruct (taxonomies run) as [|taxonomy [|??]] eqn:E; try done.
  exists taxonomy. split; [done|]. rewrite Forall_forall in Htaxa.
  specialize (Htaxa rule Hrule). unfold rule_wf in Htaxa.
  rewrite Forall_singleton, Forall_forall in Htaxa. by apply Htaxa.
Qed.

End log_wf.

(** ** The log of a conversion *)

Section converted.
Context `{types : ExternalTypes} `{providers : !Providers.t}.
Context `{linker : !RuleLinker} `{!RuleLinkerLaws}.

Implicit Types (this : SarifConverter21) (results : DecoratedAxeResults)
  (options : option ConverterOptions) (run : Run) (log : Log).

(** The linker that [convertRun] builds for a document. *)
Definition run_linker this results : ResultToRuleConverter :=
  new_ResultToRuleConverter results
    (getSortedWcagTags (wcagLinkDataIndexer this))
    (getWcagTagsToTaxaIndices (wcagLinkDataIndexer this)).

(** The member [ruleIdsToRuleIndices], when it is defined, is the
    dictionary of the linker of the document. *)
Definition indices_linked this results : Prop :=
  ∀ indices, ruleIdsToRuleIndices this = Some indices →
    indices = getRuleIdsToRuleIndices (run_linker this results).

Lemma linker_rules_indexed results sortedTags indices :
  indexed rd_index (getRulePropertiesFromResults
    (new_ResultToRuleConverter results sortedTags indices)).
Proof. apply indexed_lookup. intros i rule. apply linker_rule_index. Qed.

Lemma results_spec_wf results sortedTags indices :
  let linked := new_ResultToRuleConverter results sortedTags indices in
  Forall (result_wf (getRulePropertiesFromResults linked))
    (results_spec (getRuleIdsToRuleIndices linked) results).
Proof.
  intros linked. apply Forall_forall. intros res Hres.
  destruct (results_spec_linked _ _ _ _ Hres) as (i & rule & Hi & Hrule & Hid & _).
  apply results_spec_elem_of in Hres
    as (? & node & ? & _ & _ & _ & _ & _ & loc & Hloc & _ & Hlogical).
  split; [unfold result_rule, linked; rewrite Hi; simpl; by rewrite Hrule, <-Hid|].
  by rewrite Hloc; simpl; rewrite Hlogical.
Qed.

Lemma converted_results_wf this results properties resultArray :
  indices_linked this results →
  convertResults this results properties = Normal resultArray →
  Forall (result_wf (getRulePropertiesFromResults (run_linker this results)))
    resultArray.
Proof.
  intros Hlinked. destruct (ruleIdsToRuleIndices this) as [indices|] eqn:Hi.
  - rewrite (convertResults_Some _ _ _ indices Hi), (Hlinked indices Hi).
    intros [= <-]. apply results_spec_wf.
  - rewrite (convertResults_None _ _ _ Hi).
    destruct (first_with_nodes _); [done|]. by intros [= <-].
Qed.

Lemma convertRun_wf this results options run :
  converter_wf this → indices_linked this results →
  convertRun this results options = Normal run → run_wf run.
Proof.
  intros Hwf Hlinked (resultArray & taxonomy & Hres & Ht & _ & ->)%convertRun_Normal_inv.
  split_and!; simpl.
  - apply linker_rules_indexed.
  - apply linker_rule_ids_NoDup.
  - by eapply converted_results_wf.
  - done.
  - apply Forall_singleton, indexed_lookup. intros i taxon Htaxon. rewrite Hwf in Ht.
    by destruct (getWcagTaxonomy_indexer_taxon _ _ _ _ Ht Htaxon) as (? & ? & _ & _ & ->).
  - destruct (converter_taxonomy this Hwf) as (taxonomy' & Ht' & Hlen).
    assert (taxonomy' = taxonomy) as -> by congruence.
    apply Forall_forall. intros rule Hrule. apply Forall_singleton, Forall_forall.
    intros t Htaxa. rewrite Hlen.
    eapply linker_taxa; [by apply converter_tags_indexed|exact Hrule|done].
Qed.

(** C12.  The shape of the log.  A log that [convert] returns on a well-formed
    converter, whose member [ruleIdsToRuleIndices] is undefined or the
    dictionary of the linker, is well formed: one run, rules and taxa at
    their own index, rule ids distinct, every result with the index of
    the rule of its id and one logical location of kind [element], every
    taxon index of a rule a position of the one taxonomy. *)
Theorem convert_log_wf this results options log :
  converter_wf this → indices_linked this results →
  convert this results options = Normal log → log_wf log.
Proof.
  intros Hwf Hlinked (run & Hrun & [= <-])%bind_Normal_inv.
  split; [done|]. apply Forall_singleton. by eapply convertRun_wf.
Qed.

(** The converter as constructed: its member is undefined, so whatever
    log it returns is well formed (and has no result). *)
Lemma constructed_log_wf a b c d results options log :
  convert (new_SarifConverter21 a b c d) results options = Normal log → log_wf log.
Proof.
  intros (run & Hrun & [= <-])%bind_Normal_inv.
  split; [done|]. apply Forall_singleton.
  by eapply convertRun_wf; [apply new_SarifConverter21_wf|intros ? [=]|].
Qed.

End converted.

(** ** The shape of the sample logs *)

Definition sample_log : @Log sample_types :=
  {| version := "2.1.0"; runs := [sample_run] |}.

Lemma sample_log_returned :
  @convert sample_types sample_providers first_appearance_linker
    (linked_converter sample_results) sample_results (Some options_with_scanName)
  = Normal sample_log.
Proof. vm_compute. reflexivity. Defined.

Lemma convert_log_wf_witness : log_wf sample_log.
Proof.
  apply (@convert_log_wf sample_types sample_providers first_appearance_linker
    first_appearance_linker_laws (linked_converter sample_results) sample_results
    (Some options_with_scanName)).
  - reflexivity.
  - intros indices [= <-]. reflexivity.
  - apply sample_log_returned.
Defined.

(** The run of a converter whose dictionary is not the one of the
    linker: [image-alt] is given the index of [frame-title]. *)
Definition sample_run_stale : @Run sample_types :=
  Eval vm_compute in
    match @convertRun sample_types sample_providers first_appearance_linker
      (sample_converter (Some {[ "image-alt" := 1 ]})) sample_results None
    with
    | Normal run => run
    | Throw _ => sample_run
    end.

(** The checker decides the shape: the sample log has it, and so has the
    log of the default converter on the document without nodes; the run of
    the stale dictionary has not, its results carry the index of another
    rule. *)
Example sample_log_checked :
  bool_decide (log_wf sample_log) = true
  ∧ (λ log, bool_decide (log_wf log))
      <$> @convert sample_types sample_providers first_appearance_linker
        (@defaultSarifConverter21 sample_types sample_providers ())
        nodeless_results None = Normal true
  ∧ (λ res, (ruleId res, ruleIndex res)) <$> SarifLog.results sample_run_stale
    = [("image-alt", Some 1); ("image-alt", Some 1)]
  ∧ bool_decide (run_wf sample_run_stale) = false
  ∧ bool_decide (Forall (result_wf (run_rules sample_run_stale))
      (SarifLog.results sample_run_stale)) = false.
Proof. vm_compute. done. Qed.
